(** * BAR vault engine: a shallow embedding of the Python sources

    The development follows the layout of the repository:

    - [Py]                 the fragment of Python's dynamic values the code
                           manipulates (JSON documents, exceptions);
    - [Primitives]         the third-party routines the code calls
                           (cryptography, base64, hashlib, json, datetime),
                           as an interface, with the contracts the proofs
                           rely on in [PrimitivesLaws];
    - [EncryptionManager]  src/crypto/encryption.py;
    - [SecureDelete]       src/security/secure_delete.py;
    - [FileScanner]        src/file_manager/file_scanner.py;
    - [OsRoutines]         the operating-system calls of the scanner, as
                           an interface;
    - [FileSystem]         file names, and where a path given as a text
                           leads, as an interface;
    - [FileManager]        src/file_manager/file_manager.py;
    - [Scan]               the walk and the import of file_scanner.py;
    - [SessionManager]     src/security/session_manager.py;
    - [UserManager]        src/user_manager/user_manager.py;
    - [Spec]               the vocabulary of the specification;
    - [Reference]          stand-ins for the third-party routines and
                           sample data, to run the functions.

    Definitions come first, theorems afterwards.

    Conventions of the embedding.  A function that raises returns a
    [result]; a method that reads or writes the directories of the vault
    takes the [state] and returns the new one.  What a call draws from its
    environment is an argument: the entropy behind [os.urandom], the id
    that [uuid.uuid4] produces, and the clock, which a call reads once
    ([now] stands for every [datetime.now()] of that call).  Log lines are
    left out, except where formatting one can raise. *)

From Stdlib Require Import ZArith DecimalString DecimalZ DecimalPos.
From Stdlib Require Import Strings.Byte Strings.Ascii.
From stdpp Require Import gmap strings list fin_maps.

Local Open Scope string_scope.
Local Open Scope Z_scope.

(** Python [bytes]. *)
Abbreviation bytes := (list Byte.byte).

(* ===================================================================== *)
(** * Python values and exceptions *)
(* ===================================================================== *)

Module Py.

(** What [json.load] produces: [None], [bool], [int], [str] and [dict]
    with string keys.  Lists and floats never reach the modelled code
    paths and are left out.  A [dict] is a finite map: the code only
    looks keys up, inserts, deletes and copies. *)
#[warnings="-register-all"]
Inductive json :=
| JNull
| JBool (b : bool)
| JInt (n : Z)
| JStr (s : string)
| JObj (o : gmap string json).

(** The exception classes the modelled code can meet.  [binascii.Error]
    is a subclass of [ValueError] and is represented by it. *)
Inductive exn :=
| ValueError (msg : string)
| FileNotFoundError (msg : string)
| KeyError (key : string)
| TypeError (msg : string)
| AttributeError (msg : string)
| OverflowError (msg : string).

Inductive result (A : Type) :=
| Ok (a : A)
| Raise (e : exn).
Arguments Ok {A} a.
Arguments Raise {A} e.

#[global] Instance result_ret : MRet result := @Ok.
#[global] Instance result_bind : MBind result :=
  λ A B f m, match m with Ok a => f a | Raise e => Raise e end.

(** [type(v).__name__] *)
Definition type_name (v : json) : string :=
  match v with
  | JNull => "NoneType"
  | JBool _ => "bool"
  | JInt _ => "int"
  | JStr _ => "str"
  | JObj _ => "dict"
  end.

(** [str(n)] for an [int]. *)
Definition str_int (n : Z) : string := NilZero.string_of_int (Z.to_int n).

(** [str(e)] for an exception; [str(KeyError(k))] is [repr(k)]. *)
Definition str_exn (e : exn) : string :=
  match e with
  | ValueError m | FileNotFoundError m | TypeError m | AttributeError m
  | OverflowError m => m
  | KeyError k => "'" +:+ k +:+ "'"
  end.

(** [bool(v)]: Python truthiness. *)
Definition truthy (v : json) : bool :=
  match v with
  | JNull => false
  | JBool b => b
  | JInt n => negb (Z.eqb n 0)
  | JStr s => negb (String.eqb s "")
  | JObj o => negb (Nat.eqb (size o) 0)
  end.

(** [v is not None] *)
Definition is_not_None (v : json) : bool :=
  match v with JNull => false | _ => true end.

(** [sub in s] for two strings. *)
Fixpoint str_contains (sub s : string) : bool :=
  String.prefix sub s ||
  match s with
  | EmptyString => false
  | String _ s' => str_contains sub s'
  end.

(** [v[k]] *)
Definition getitem (v : json) (k : string) : result json :=
  match v with
  | JObj o => match o !! k with
              | Some x => Ok x
              | None => Raise (KeyError k)
              end
  | JStr _ => Raise (TypeError "string indices must be integers")
  | _ => Raise (TypeError ("'" +:+ type_name v +:+ "' object is not subscriptable"))
  end.

(** [v.get(k, default)] *)
Definition get (v : json) (k : string) (default : json) : result json :=
  match v with
  | JObj o => Ok (match o !! k with Some x => x | None => default end)
  | _ => Raise (AttributeError
           ("'" +:+ type_name v +:+ "' object has no attribute 'get'"))
  end.

(** [k in v] *)
Definition contains (v : json) (k : string) : result bool :=
  match v with
  | JObj o => Ok (bool_decide (is_Some (o !! k)))
  | JStr s => Ok (str_contains k s)
  | _ => Raise (TypeError
           ("argument of type '" +:+ type_name v +:+ "' is not iterable"))
  end.

(** The [int] behind a value usable in arithmetic ([bool] is a subclass
    of [int]). *)
Definition as_int (v : json) : option Z :=
  match v with
  | JInt n => Some n
  | JBool b => Some (if b then 1 else 0)
  | _ => None
  end.

(** [a >= b] *)
Definition ge (a b : json) : result bool :=
  match as_int a, as_int b with
  | Some x, Some y => Ok (Z.leb y x)
  | _, _ =>
      match a, b with
      | JStr x, JStr y => Ok (String.leb y x)
      | _, _ => Raise (TypeError
                  ("'>=' not supported between instances of '" +:+
                   type_name a +:+ "' and '" +:+ type_name b +:+ "'"))
      end
  end.

(** [a > b] *)
Definition gt (a b : json) : result bool :=
  match as_int a, as_int b with
  | Some x, Some y => Ok (Z.ltb y x)
  | _, _ =>
      match a, b with
      | JStr x, JStr y => Ok (negb (String.leb x y))
      | _, _ => Raise (TypeError
                  ("'>' not supported between instances of '" +:+
                   type_name a +:+ "' and '" +:+ type_name b +:+ "'"))
      end
  end.

(** A text between double quotes. *)
Definition quoted (s : string) : string :=
  String (Ascii.ascii_of_nat 34) s +:+ String (Ascii.ascii_of_nat 34) "".

(** [v + 1], as in [metadata[k] += 1]; a [str] refuses the [int] in
    words of its own. *)
Definition add1 (v : json) : result Z :=
  match as_int v, v with
  | Some n, _ => Ok (n + 1)
  | None, JStr _ =>
      Raise (TypeError
        ("can only concatenate str (not " +:+ quoted "int" +:+ ") to str"))
  | None, _ =>
      Raise (TypeError
        ("unsupported operand type(s) for +=: '" +:+ type_name v +:+
         "' and 'int'"))
  end.

End Py.
Export Py.

(* ===================================================================== *)
(** * Third-party routines *)
(* ===================================================================== *)

(** The routines of [cryptography], [base64], [hashlib], [json] and
    [datetime] the sources call.  Their code is not part of the
    repository; they are taken as an interface.  A [datetime] is the
    number of microseconds it lies after [datetime.min], the first
    instant of the year 1; all of them are naive (no time zone), as
    [datetime.now()] returns them. *)
Class Primitives := {
  (** [base64.b64encode(b).decode('utf-8')] *)
  b64encode : bytes → string;
  (** [base64.b64decode(s)]; [inl msg] is [binascii.Error(msg)] *)
  b64decode : string → string + bytes;
  (** [PBKDF2HMAC(hashes.SHA256(), length, salt, iterations).derive(pw)] *)
  PBKDF2HMAC_SHA256 : nat → bytes → Z → bytes → bytes;
  (** [AESGCM(key).encrypt(nonce, data, None)] *)
  AESGCM_encrypt : bytes → bytes → bytes → bytes;
  (** [AESGCM(key).decrypt(nonce, data, None)]; [inl msg] is an exception
      [e] with [str(e) = msg] ([InvalidTag] when the tag does not verify) *)
  AESGCM_decrypt : bytes → bytes → bytes → string + bytes;
  (** the SHA-256 digest of a byte string *)
  sha256 : bytes → bytes;
  (** [json.dumps(v, sort_keys=True)] *)
  json_dumps_sorted : json → string;
  (** [datetime.fromisoformat(s)]; [None] is [ValueError] *)
  fromisoformat : string → option Z;
  (** [d.isoformat()] *)
  isoformat : Z → string
}.

(** What the proofs use of these routines. *)
Class PrimitivesLaws `{Primitives} : Prop := {
  b64decode_b64encode : ∀ b, b64decode (b64encode b) = inr b;
  PBKDF2HMAC_length : ∀ n salt it pw,
    length (PBKDF2HMAC_SHA256 n salt it pw) = n;
  AESGCM_decrypt_encrypt : ∀ key nonce data,
    length key = 32%nat → length nonce = 12%nat →
    AESGCM_decrypt key nonce (AESGCM_encrypt key nonce data) = inr data;
  sha256_length : ∀ b, length (sha256 b) = 32%nat;
  fromisoformat_isoformat : ∀ t, fromisoformat (isoformat t) = Some t;
  fromisoformat_empty : fromisoformat "" = None
}.

(** [os.urandom]: the operating system's entropy is an unbounded sequence
    of bytes, consumed from the front. *)
Definition entropy := nat → Byte.byte.

Definition os_urandom (n : nat) (e : entropy) : bytes * entropy :=
  (map e (seq 0 n), λ i, e (n + i)%nat).

(** [s.encode('utf-8')]: a [string] is the UTF-8 encoding of the text. *)
Definition encode_utf8 (s : string) : bytes := String.list_byte_of_string s.

(** [b.hex()], as [hashlib]'s [hexdigest] prints a digest. *)
Definition hex_digit (n : N) : Ascii.ascii :=
  match n with
  | 0 => "0" | 1 => "1" | 2 => "2" | 3 => "3" | 4 => "4" | 5 => "5"
  | 6 => "6" | 7 => "7" | 8 => "8" | 9 => "9" | 10 => "a" | 11 => "b"
  | 12 => "c" | 13 => "d" | 14 => "e" | _ => "f"
  end%N%char.

Fixpoint hex (b : bytes) : string :=
  match b with
  | [] => ""
  | x :: b' =>
      String (hex_digit (Byte.to_N x / 16))
        (String (hex_digit (Byte.to_N x mod 16)) (hex b'))
  end.

(* ===================================================================== *)
(** * src/crypto/encryption.py *)
(* ===================================================================== *)

Module EncryptionManager.
Section WithPrimitives.
Context `{Primitives}.

Definition SALT_SIZE : nat := 32.
Definition KEY_SIZE : nat := 32.
Definition NONCE_SIZE : nat := 12.
Definition PBKDF2_ITERATIONS : Z := 100000.

Definition generate_salt (e : entropy) : bytes * entropy :=
  os_urandom SALT_SIZE e.

Definition generate_nonce (e : entropy) : bytes * entropy :=
  os_urandom NONCE_SIZE e.

Definition derive_key (password : string) (salt : bytes) : bytes :=
  PBKDF2HMAC_SHA256 KEY_SIZE salt PBKDF2_ITERATIONS (encode_utf8 password).

(** The dictionary [{'ciphertext': ..., 'nonce': ...}] of byte strings
    that [encrypt_data] builds and [decrypt_data] reads. *)
Record encrypted_data := {
  ed_ciphertext : bytes;
  ed_nonce : bytes
}.

(** [AESGCM(key)]: the constructor checks the key size. *)
Definition AESGCM (key : bytes) : result bytes :=
  if bool_decide (length key ∈ [16; 24; 32]%nat) then Ok key
  else Raise (ValueError "AESGCM key must be 128, 192, or 256 bits.").

Definition encrypt_data (data key : bytes) (e : entropy)
  : result encrypted_data * entropy :=
  let '(nonce, e) := generate_nonce e in
  (aesgcm ← AESGCM key;
   let ciphertext := AESGCM_encrypt aesgcm nonce data in
   mret {| ed_ciphertext := ciphertext; ed_nonce := nonce |},
   e).

Definition decrypt_data (d : encrypted_data) (key : bytes) : result bytes :=
  let ciphertext := ed_ciphertext d in
  let nonce := ed_nonce d in
  aesgcm ← AESGCM key;
  match AESGCM_decrypt aesgcm nonce ciphertext with
  | inr plaintext => Ok plaintext
  | inl e => Raise (ValueError ("Decryption failed: " +:+ e))
  end.

Definition encrypt_file_content (content : bytes) (password : string)
    (e : entropy) (now : Z) : result json * entropy :=
  let '(salt, e) := generate_salt e in
  let key := derive_key password salt in
  let '(r, e) := encrypt_data content key e in
  (d ← r;
   mret (JObj (list_to_map [
     ("ciphertext", JStr (b64encode (ed_ciphertext d)));
     ("nonce", JStr (b64encode (ed_nonce d)));
     ("salt", JStr (b64encode salt));
     ("encryption_time", JStr (isoformat now));
     ("encryption_method", JStr "AES-256-GCM");
     ("kdf_method", JStr "PBKDF2-HMAC-SHA256");
     ("kdf_iterations", JInt PBKDF2_ITERATIONS)])),
   e).

(** [base64.b64decode(v)] on a value read from a document. *)
Definition b64decode_value (v : json) : result bytes :=
  match v with
  | JStr s => match b64decode s with
              | inr b => Ok b
              | inl msg => Raise (ValueError msg)
              end
  | _ => Raise (TypeError
           ("argument should be a bytes-like object or ASCII string, not '"
            +:+ type_name v +:+ "'"))
  end.

Definition decrypt_file_content (encrypted_content : json)
    (password : string) : result bytes :=
  c ← getitem encrypted_content "ciphertext";
  ciphertext ← b64decode_value c;
  n ← getitem encrypted_content "nonce";
  nonce ← b64decode_value n;
  s ← getitem encrypted_content "salt";
  salt ← b64decode_value s;
  let key := derive_key password salt in
  decrypt_data {| ed_ciphertext := ciphertext; ed_nonce := nonce |} key.

(** [bytes_eq(a, b)] of [cryptography]'s [constant_time]: whether two
    byte strings are the same. *)
Fixpoint bytes_eq (a b : bytes) : bool :=
  match a, b with
  | [], [] => true
  | x :: a', y :: b' => Byte.eqb x y && bytes_eq a' b'
  | _, _ => false
  end.

(** [f"{password}:{hw_id}"] when binding, the password otherwise. *)
Definition combined_password (password : string) (bound : bool)
    (hw_id : string) : string :=
  if bound then password +:+ ":" +:+ hw_id else password.

(** [hashlib.sha256(hw_id.encode('utf-8')).hexdigest()] *)
Definition hardware_id_hash (hw_id : string) : string :=
  hex (sha256 (encode_utf8 hw_id)).

(** [hash_password]; [hw_id] is what
    [HardwareIdentifier().get_hardware_id()] returns on this machine. *)
Definition hash_password (password : string) (bind_to_hardware : bool)
    (hw_id : string) (e : entropy) : json * entropy :=
  let '(salt, e) := generate_salt e in
  let key :=
    derive_key (combined_password password bind_to_hardware hw_id) salt in
  let result : gmap string json := list_to_map [
    ("hash", JStr (b64encode key));
    ("salt", JStr (b64encode salt));
    ("method", JStr "PBKDF2-HMAC-SHA256");
    ("iterations", JInt PBKDF2_ITERATIONS);
    ("hardware_bound", JBool bind_to_hardware)] in
  (JObj (if bind_to_hardware
         then <["hardware_id_hash" := JStr (hardware_id_hash hw_id)]> result
         else result),
   e).

(** [s != v] for a string and a value read from a document. *)
Definition str_ne (s : string) (v : json) : bool :=
  match v with
  | JStr s' => negb (String.eqb s s')
  | _ => true
  end.

(** [verify_password]; [hw_id] as for [hash_password]. *)
Definition verify_password (password : string) (password_hash : json)
    (hw_id : string) : result bool :=
  s ← getitem password_hash "salt";
  salt ← b64decode_value s;
  h ← getitem password_hash "hash";
  stored_hash ← b64decode_value h;
  is_hardware_bound ← get password_hash "hardware_bound" (JBool false);
  if truthy is_hardware_bound then
    has ← contains password_hash "hardware_id_hash";
    mismatch ←
      (if (has : bool) then
         stored ← getitem password_hash "hardware_id_hash";
         mret (str_ne (hardware_id_hash hw_id) stored)
       else mret false);
    if (mismatch : bool) then mret false
    else
      mret (bytes_eq (derive_key (combined_password password true hw_id) salt)
              stored_hash)
  else
    mret (bytes_eq (derive_key password salt) stored_hash).

End WithPrimitives.
End EncryptionManager.

(* ===================================================================== *)
(** * src/security/secure_delete.py *)
(* ===================================================================== *)

Module SecureDelete.

(** The part of the file system [secure_delete_file] observes: what a
    path names, and whether the process may open the file for writing.
    Removing a directory entry is governed by the directory, not by the
    file, and succeeds here. *)
Inductive node :=
| File (data : bytes) (writable : bool)
| Directory.

Definition filesystem := gmap string node.

Definition DEFAULT_PASSES : Z := 3.

(** The 4 KiB block a pass writes. *)
Definition pattern (pass_num : nat) (e : entropy) : bytes * entropy :=
  match pass_num with
  | 0%nat => (replicate 4096 x00, e)
  | 1%nat => (replicate 4096 xff, e)
  | _ => os_urandom 4096 e
  end.

(** [while bytes_written < file_size: ...]: every turn writes at least
    one byte, so [file_size] turns are enough. *)
Fixpoint write_chunks (fuel : nat) (pat : bytes)
    (file_size bytes_written : nat) (written : bytes) : bytes :=
  match fuel with
  | O => written
  | S fuel' =>
      if (bytes_written <? file_size)%nat then
        let chunk_size := Nat.min 4096 (file_size - bytes_written) in
        write_chunks fuel' pat file_size (bytes_written + chunk_size)
          (written ++ take chunk_size pat)
      else written
  end.

(** [for pass_num in range(passes): ...]: the contents of the file after
    each pass has been flushed, oldest first. *)
Fixpoint overwrite_passes (todo pass_num file_size : nat) (e : entropy)
  : list bytes * entropy :=
  match todo with
  | O => ([], e)
  | S todo' =>
      let '(pat, e) := pattern pass_num e in
      let contents := write_chunks file_size pat file_size 0 [] in
      let '(later, e) := overwrite_passes todo' (S pass_num) file_size e in
      (contents :: later, e)
  end.

(** The outcome of a call: the return value, the file system and the
    entropy left, and the successive contents the file had on disk. *)
Record outcome := {
  returned : bool;
  fs_after : filesystem;
  entropy_after : entropy;
  on_disk : list bytes
}.

Definition secure_delete_file (fs : filesystem) (file_path : string)
    (passes : Z) (e : entropy) : outcome :=
  match fs !! file_path with
  | Some (File data writable) =>
      let file_size := length data in
      if writable then
        (* the overwrite passes, the truncation, then [os.remove] *)
        let '(trace, e') :=
          overwrite_passes (Z.to_nat passes) 0 file_size e in
        {| returned := true; fs_after := delete file_path fs;
           entropy_after := e'; on_disk := trace ++ [[]] |}
      else
        (* [open(file_path, "r+b")] raises; [except Exception] logs and
           returns False *)
        {| returned := false; fs_after := fs;
           entropy_after := e; on_disk := [] |}
  | _ =>
      (* [not path.exists() or not path.is_file()] *)
      {| returned := false; fs_after := fs;
         entropy_after := e; on_disk := [] |}
  end.

End SecureDelete.

(* ===================================================================== *)
(** * src/file_manager/file_scanner.py *)
(* ===================================================================== *)

Module FileScanner.
Section WithPrimitives.
Context `{Primitives}.

Definition BAR_FILE_EXTENSION : string := ".bar".
Definition BAR_FILE_SIGNATURE : string := "bar_portable_file".
Definition BAR_FILE_MIN_SIZE : Z := 50.

Definition is_digit (c : ascii) : bool :=
  let n := N_of_ascii c in ((48 <=? n) && (n <=? 57))%N.

(** Skips the longest run of digits at the front of [s] and tells
    whether it saw one. *)
Fixpoint skip_digits (seen : bool) (s : string) : bool * string :=
  match s with
  | String c s' => if is_digit c then skip_digits true s' else (seen, s)
  | EmptyString => (seen, s)
  end.

(** [re.match(BAR_FILE_VERSION_PATTERN, s)] for the pattern
    [^\d+\.\d+$] on ASCII digits; [$] also matches before a final
    newline. *)
Definition match_version (s : string) : bool :=
  match skip_digits false s with
  | (true, String "."%char rest) =>
      match skip_digits false rest with
      | (true, "") => true
      | (true, String "010"%char "") => true
      | _ => false
      end
  | _ => false
  end.

(** [version == "unknown"] *)
Definition is_unknown (version : json) : bool :=
  match version with
  | JStr s => String.eqb s "unknown"
  | _ => false
  end.

(** What reading a candidate file gives. *)
Inductive read_result :=
| ReadError                (* [IOError], [OSError], [UnicodeDecodeError] *)
| JSONDecodeError
| Parsed (data : json).

Record candidate := {
  c_path : string;          (* [str(file_path)] *)
  c_name : string;          (* [file_path.name] *)
  c_size : Z;               (* [file_path.stat().st_size] *)
  c_mtime : Z;              (* [datetime.fromtimestamp(st_mtime)] *)
  c_read : read_result
}.

(** The [expired]/[expiration_status] entries of the report. *)
Definition expiration_report (security : json) (now : Z)
    (metadata : gmap string json) : result (gmap string json) :=
  e ← get security "expiration_time" JNull;
  if is_not_None e then
    match e with
    | JStr s =>
        match fromisoformat s with
        | Some expiration_time =>
            let expired := (expiration_time <? now) in
            mret (<["expiration_status" :=
                      JStr (if expired then "Expired" else "Valid")]>
                  (<["expired" := JBool expired]> metadata))
        | None => mret (<["expiration_status" := JStr "Unknown"]> metadata)
        end
    | _ => mret (<["expiration_status" := JStr "Unknown"]> metadata)
    end
  else mret metadata.

(** The [security_info] entry and the expiration report. *)
Definition security_report (data : json) (now : Z)
    (metadata : gmap string json) : result (gmap string json) :=
  has ← contains data "security";
  if (has : bool) then
    security ← getitem data "security";
    e ← get security "expiration_time" JNull;
    m ← get security "max_access_count" JNull;
    d ← get security "deadman_switch" JNull;
    let info : gmap string json := list_to_map [
      ("has_expiration", JBool (is_not_None e));
      ("has_access_limit", JBool (is_not_None m));
      ("has_deadman_switch", JBool (is_not_None d))] in
    expiration_report security now
      (<["security_info" := JObj info]> metadata)
  else mret metadata.

(** [for field in optional_fields: if field not in data: score -= 10] *)
Fixpoint deduct_missing (data : json) (fields : list string)
    (integrity_score : Z) : result Z :=
  match fields with
  | [] => mret integrity_score
  | field :: fields' =>
      has ← contains data field;
      deduct_missing data fields'
        (if (has : bool) then integrity_score else integrity_score - 10)
  end.

(** [_validate_bar_file]; the state threaded through is
    [scan_progress["invalid_bar_files"]]. *)
Definition _validate_bar_file (invalid_bar_files : Z) (f : candidate)
    (now : Z) : result (option json) * Z :=
  let file_size := c_size f in
  if file_size <? BAR_FILE_MIN_SIZE then (Ok None, invalid_bar_files)
  else
    match c_read f with
    | ReadError => (Ok None, invalid_bar_files + 1)
    | JSONDecodeError => (Ok None, invalid_bar_files + 1)
    | Parsed data =>
        match get data BAR_FILE_SIGNATURE (JBool false) with
        | Raise e => (Raise e, invalid_bar_files)
        | Ok sig =>
        if negb (truthy sig) then (Ok None, invalid_bar_files + 1)
        else
        match get data "version" (JStr "unknown") with
        | Raise e => (Raise e, invalid_bar_files)
        | Ok version =>
        match
          (if is_unknown version then Ok true
           else match version with
                | JStr v => Ok (match_version v)
                | _ => Raise (TypeError "expected string or bytes-like object")
                end)
        with
        | Raise e => (Raise e, invalid_bar_files)
        | Ok false => (Ok None, invalid_bar_files + 1)
        | Ok true =>
        match
          (a ← contains data "filename";
           b ← contains data "encryption";
           mret (a && b))
        with
        | Raise e => (Raise e, invalid_bar_files)
        | Ok false => (Ok None, invalid_bar_files + 1)
        | Ok true =>
          (filename ← get data "filename" (JStr (c_name f));
           creation_time ← get data "creation_time" JNull;
           has_security ← contains data "security";
           content_hash ← get data "content_hash" JNull;
           let metadata : gmap string json := list_to_map [
             ("path", JStr (c_path f));
             ("filename", filename);
             ("creation_time", creation_time);
             ("version", version);
             ("has_security", JBool has_security);
             ("size", JInt file_size);
             ("last_modified", JStr (isoformat (c_mtime f)));
             ("content_hash", content_hash)] in
           metadata ← security_report data now metadata;
           integrity_score ←
             deduct_missing data ["creation_time"; "content_hash"; "security"]
               100;
           let integrity_score :=
             if is_unknown version then integrity_score - 10
             else integrity_score in
           mret (Some (JObj (<["integrity_score" :=
                                 JInt (Z.max 0 integrity_score)]> metadata))),
           invalid_bar_files)
        end
        end
        end
        end
    end.

End WithPrimitives.
End FileScanner.

(** Routines of the standard library whose result depends on the platform
    or on Unicode tables: [s.lower()], [os.path.splitext(p)] and [str(d)]
    for a [dict]. *)
Class OsRoutines := {
  str_lower : string → string;
  splitext : string → string * string;
  dict_str : gmap string json → string
}.

(** *** File names

    The managers keep one document per file, [<stem>.json], in
    directories of their own, and build the path of a file as
    [directory / f"{stem}.json"].  The embedding keeps a directory as the
    map from the stems of its files to their documents, which is what the
    directory is as long as the text put for the stem is the stem of a
    file name: it has no path separator in it (with one, the path leaves
    the directory or names a file of it in another way), and the name is
    not longer than the file system takes, 255 bytes on the file systems
    of Linux ([NAME_MAX]), with which [open] fails.  File names are
    compared byte by byte. *)
Definition NAME_MAX : nat := 255.

(** [<stem>.json] is not too long for a file name. *)
Definition fits (stem : string) : bool :=
  (String.length stem + 5 <=? NAME_MAX)%nat.

(** The separators of paths, [/] and the backslash, and the null byte. *)
Definition is_separator (c : ascii) : bool :=
  (Ascii.eqb c "/" || Ascii.eqb c "\" || Ascii.eqb c "000")%char.

Fixpoint has_separator (s : string) : bool :=
  match s with
  | EmptyString => false
  | String c s' => is_separator c || has_separator s'
  end.

(** The text is the stem of a file name. *)
Definition is_stem (s : string) : bool := negb (has_separator s) && fits s.

(** The text is ASCII.  A text is kept as the bytes of its UTF-8 form,
    so on ASCII text a byte is a character and the length of the text
    is the length of the file name made of it; a character outside
    ASCII takes several bytes, and a text with such characters is
    shorter, in characters, than its bytes. *)
Fixpoint ascii_text (s : string) : bool :=
  match s with
  | EmptyString => true
  | String c s' => (Ascii.N_of_ascii c <? 128)%N && ascii_text s'
  end.

(** Where a path given as a text leads, as the file system resolves it
    ([Path(p)], relative to the working directory of the process): to
    the file [<stem>.json] of the metadata directory of the vault, to the
    file [<stem>.json] of its blacklist directory, or to any other place
    (a file elsewhere, a directory, nothing). *)
Inductive place :=
| MetadataFile (stem : string)
| BlacklistFile (stem : string)
| Elsewhere.

Class FileSystem := {
  locate : string → place
}.

(* ===================================================================== *)
(** * src/file_manager/file_manager.py *)
(* ===================================================================== *)

Module FileManager.
Section WithPrimitives.
Context `{Primitives} `{FileSystem}.

Import EncryptionManager.

(** The directories the manager owns, as the documents their files
    hold: [metadata/<file_id>.json] and [blacklist/<safe_hash>.json],
    keyed by the stem of the file name.  [threads] lists the arguments
    of the [_secure_delete_file] threads that were started and have not
    run yet.  The files of these directories are regular files the
    process may write and remove (it created them); copies kept outside
    of them (exports, temporary and portable files, other volumes) are
    not part of the state.

    A method that is given an id looks the file [<file_id>.json] up in
    the metadata directory; the embedding looks the id up in the map,
    which is the same for an id that is the stem of a file name
    ([is_stem]).  An id with a path separator in it makes the method
    work on another file, an id too long makes [open] fail: the
    embedding does not follow the methods there, and what is stated of
    sequences of arbitrary calls ([step]) is stated of ids that are
    stems. *)
Record state := {
  metadata_directory : gmap string json;
  blacklist_directory : gmap string json;
  threads : list string
}.

Definition write_metadata (st : state) (file_id : string) (metadata : json)
  : state :=
  {| metadata_directory := <[file_id := metadata]> (metadata_directory st);
     blacklist_directory := blacklist_directory st;
     threads := threads st |}.

Definition remove_metadata (st : state) (file_id : string) : state :=
  {| metadata_directory := delete file_id (metadata_directory st);
     blacklist_directory := blacklist_directory st;
     threads := threads st |}.

Definition write_blacklist (st : state) (safe_hash : string) (entry : json)
  : state :=
  {| metadata_directory := metadata_directory st;
     blacklist_directory := <[safe_hash := entry]> (blacklist_directory st);
     threads := threads st |}.

Definition remove_blacklist (st : state) (safe_hash : string) : state :=
  {| metadata_directory := metadata_directory st;
     blacklist_directory := delete safe_hash (blacklist_directory st);
     threads := threads st |}.

Definition start_thread (st : state) (file_id : string) : state :=
  {| metadata_directory := metadata_directory st;
     blacklist_directory := blacklist_directory st;
     threads := threads st ++ [file_id] |}.

(** [d[k] = v] *)
Definition setitem (d : json) (k : string) (v : json) : result json :=
  match d with
  | JObj o => Ok (JObj (<[k := v]> o))
  | _ => Raise (TypeError
           ("'" +:+ type_name d +:+ "' object does not support item assignment"))
  end.

(** [str(v)] for a value that is neither a [dict] nor a [str]. *)
Definition py_str (v : json) : string :=
  match v with
  | JNull => "None"
  | JBool true => "True"
  | JBool false => "False"
  | JInt n => str_int n
  | JStr s => s
  | JObj _ => json_dumps_sorted v
  end.

(** [hashlib.sha256(s.encode('utf-8')).hexdigest()] *)
Definition sha256_hexdigest (s : string) : string :=
  hex (sha256 (encode_utf8 s)).

Definition _hash_content (content : bytes) : string :=
  b64encode (sha256 content).

(** [re.sub(r'[^a-zA-Z0-9_-]', '_', content_hash)] on ASCII text. *)
Definition safe_char (c : ascii) : ascii :=
  let n := N_of_ascii c in
  if ((97 <=? n) && (n <=? 122) || (65 <=? n) && (n <=? 90) ||
      (48 <=? n) && (n <=? 57) || (n =? 95) || (n =? 45))%N
  then c else "_"%char.

Fixpoint safe_hash (content_hash : string) : string :=
  match content_hash with
  | EmptyString => EmptyString
  | String c s => String (safe_char c) (safe_hash s)
  end.

(** [datetime.fromisoformat(v)] on a value read from a document. *)
Definition fromisoformat_value (v : json) : result Z :=
  match v with
  | JStr s =>
      match fromisoformat s with
      | Some t => Ok t
      | None => Raise (ValueError
                  ("Invalid isoformat string: '" +:+ s +:+ "'"))
      end
  | _ => Raise (TypeError "fromisoformat: argument must be str")
  end.

(** One day, in microseconds: [timedelta.days] is the floor of the
    difference divided by it. *)
Definition DAY : Z := 86400000000.

(** [_check_security_constraints]; [now] is what [datetime.now()]
    returns.  The log lines of the three refusals read
    [metadata['file_id']]. *)
Definition _check_security_constraints (metadata : json) (now : Z)
  : result bool :=
  let current_time := now in
  security ← getitem metadata "security";
  expiration ← getitem security "expiration_time";
  expired ←
    (if truthy expiration then
       expiration_time ← fromisoformat_value expiration;
       mret (expiration_time <? current_time)
     else mret false);
  if (expired : bool) then
    _ ← getitem metadata "file_id"; mret false
  else
  max_access_count ← getitem security "max_access_count";
  exhausted ←
    (if truthy max_access_count then
       access_count ← getitem metadata "access_count";
       ge access_count max_access_count
     else mret false);
  if (exhausted : bool) then
    _ ← getitem metadata "file_id"; mret false
  else
  deadman_switch ← getitem security "deadman_switch";
  triggered ←
    (if truthy deadman_switch then
       last ← getitem metadata "last_accessed";
       last_accessed ← fromisoformat_value last;
       let inactive_days := (current_time - last_accessed) / DAY in
       gt (JInt inactive_days) deadman_switch
     else mret false);
  if (triggered : bool) then
    _ ← getitem metadata "file_id"; mret false
  else mret true.

(** The hash [_add_to_blacklist] derives from the encryption data when
    the document has no content hash. *)
Definition encryption_hash (encryption_data : json) : string :=
  match encryption_data with
  | JObj _ => sha256_hexdigest (json_dumps_sorted encryption_data)
  | JStr s => sha256_hexdigest s
  | _ => sha256_hexdigest (py_str encryption_data)
  end.

Definition blacklist_hash (metadata : json) : result json :=
  content_hash ← get metadata "content_hash" JNull;
  has_encryption ← contains metadata "encryption";
  if negb (truthy content_hash) && has_encryption then
    encryption_data ← get metadata "encryption" (JObj ∅);
    mret (JStr (encryption_hash encryption_data))
  else mret content_hash.

(** [re.sub(pattern, '_', v)] *)
Definition safe_hash_value (v : json) : result string :=
  match v with
  | JStr s => Ok (safe_hash s)
  | _ => Raise (TypeError "expected string or bytes-like object")
  end.

(** [_add_to_blacklist]; every exception is caught and turned into
    [False], the [OSError] of [open] for a record whose file name would
    be too long included: in that case no record is written. *)
Definition _add_to_blacklist (st : state) (metadata : json) (now : Z)
  : bool * state :=
  match
    (content_hash ← blacklist_hash metadata;
     if negb (truthy content_hash) then mret None
     else
       filename ← get metadata "filename" (JStr "unknown");
       file_id ← get metadata "file_id" (JStr "unknown");
       creation_time ← get metadata "creation_time" JNull;
       let blacklist_entry : gmap string json := list_to_map [
         ("content_hash", content_hash);
         ("filename", filename);
         ("file_id", file_id);
         ("blacklisted_at", JStr (isoformat now));
         ("reason", JStr "security_violation");
         ("original_creation_time", creation_time)] in
       name ← safe_hash_value content_hash;
       mret (Some (name, JObj blacklist_entry)))
  with
  | Ok (Some (name, entry)) =>
      if fits name then (true, write_blacklist st name entry)
      else (false, st)
  | Ok None => (false, st)
  | Raise _ => (false, st)
  end.

(** [_is_blacklisted] *)
Definition _is_blacklisted (st : state) (content_hash : json) : bool :=
  match safe_hash_value content_hash with
  | Ok name => bool_decide (is_Some (blacklist_directory st !! name))
  | Raise _ => false
  end.

(** The branch [if "file_path" in metadata] of [_secure_delete_file]:
    the file the document names, if it is a regular file, is shredded and
    removed.  It can be a file of the vault itself.  A [file_path] that
    is not a [str] makes [Path] raise, which the branch catches. *)
Definition shred_file_path (st : state) (metadata : json) : state :=
  match metadata with
  | JObj o =>
      match o !! "file_path" with
      | Some (JStr file_path) =>
          match locate file_path with
          | MetadataFile stem => remove_metadata st stem
          | BlacklistFile stem => remove_blacklist st stem
          | Elsewhere => st
          end
      | _ => st
      end
  | _ => st
  end.

(** [_secure_delete_file(file_id)] with [blacklist=True].  A document
    that is not a [dict] makes [metadata.get] raise, which skips the
    blacklisting and the search for other files; the metadata file is
    shredded and removed in either case.  The other files the method
    looks for lie outside the two directories: the files named
    [*<file_id>*] in [exports], [temp] and [portable], and, in a thread
    of its own, the [*.bar] files of other volumes that carry the content
    hash. *)
Definition _secure_delete_file (st : state) (file_id : string) (now : Z)
  : bool * state :=
  if String.eqb file_id "" then (false, st)
  else
    match metadata_directory st !! file_id with
    | None => (false, st)
    | Some metadata =>
        let st :=
          match get metadata "filename" (JStr "unknown") with
          | Ok _ =>
              shred_file_path (snd (_add_to_blacklist st metadata now))
                metadata
          | Raise _ => st
          end in
        (true, remove_metadata st file_id)
    end.

(** The last step of [_secure_delete_file] as the file system sees it:
    [secure_delete.secure_delete_file(str(metadata_path))] inside a [try]
    whose handler falls back to [os.remove].  The callee catches what it
    raises and returns a boolean, which is dropped here; the handler is
    never entered. *)
Definition shred_metadata_file (fs : SecureDelete.filesystem)
    (metadata_path : string) (e : entropy) : SecureDelete.filesystem :=
  SecureDelete.fs_after
    (SecureDelete.secure_delete_file fs metadata_path
       SecureDelete.DEFAULT_PASSES e).

Definition max_failed_attempts : Z := 3.

(** The [except ValueError] branch of [access_file]. *)
Definition failed_attempt (st : state) (file_id : string) (metadata : json)
    (now : Z) : result (bytes * json) * state :=
  match
    (attempts ← getitem metadata "failed_password_attempts";
     attempts ← add1 attempts;
     metadata ← setitem metadata "failed_password_attempts" (JInt attempts);
     mret (attempts, metadata))
  with
  | Raise e => (Raise e, st)
  | Ok (attempts, metadata) =>
      let st := write_metadata st file_id metadata in
      if max_failed_attempts <=? attempts then
        (Raise (ValueError
           ("File has been permanently deleted after " +:+
            str_int max_failed_attempts +:+ " failed password attempts")),
         snd (_secure_delete_file st file_id now))
      else
        (Raise (ValueError
           ("Incorrect password. " +:+
            str_int (max_failed_attempts - attempts) +:+
            " attempts remaining before permanent deletion")),
         st)
  end.

(** The part of [access_file] after a successful decryption; the last
    log line reads [metadata['filename']]. *)
Definition successful_access (st : state) (file_id : string)
    (metadata : json) (file_content : bytes) (now : Z)
  : result (bytes * json) * state :=
  match
    (metadata ← setitem metadata "failed_password_attempts" (JInt 0);
     metadata ← setitem metadata "last_accessed" (JStr (isoformat now));
     count ← getitem metadata "access_count";
     count ← add1 count;
     setitem metadata "access_count" (JInt count))
  with
  | Raise e => (Raise e, st)
  | Ok metadata =>
      let st := write_metadata st file_id metadata in
      match
        (security ← getitem metadata "security";
         max_access_count ← getitem security "max_access_count";
         if truthy max_access_count then
           count ← getitem metadata "access_count";
           ge count max_access_count
         else mret false)
      with
      | Raise e => (Raise e, st)
      | Ok reached =>
          let st := if (reached : bool) then start_thread st file_id else st in
          match getitem metadata "filename" with
          | Raise e => (Raise e, st)
          | Ok _ => (Ok (file_content, metadata), st)
          end
      end
  end.

(** [access_file] *)
Definition access_file (st : state) (file_id password : string) (now : Z)
  : result (bytes * json) * state :=
  match metadata_directory st !! file_id with
  | None =>
      (Raise (FileNotFoundError
                ("File with ID " +:+ file_id +:+ " not found")), st)
  | Some metadata =>
      match _check_security_constraints metadata now with
      | Raise e => (Raise e, st)
      | Ok false =>
          (Raise (ValueError
                    "File has expired or reached maximum access count"),
           snd (_secure_delete_file st file_id now))
      | Ok true =>
          match
            (has ← contains metadata "failed_password_attempts";
             if (has : bool) then mret metadata
             else setitem metadata "failed_password_attempts" (JInt 0))
          with
          | Raise e => (Raise e, st)
          | Ok metadata =>
              match
                (encryption ← getitem metadata "encryption";
                 decrypt_file_content encryption password)
              with
              | Ok file_content =>
                  successful_access st file_id metadata file_content now
              | Raise (ValueError _) =>
                  failed_attempt st file_id metadata now
              | Raise e => (Raise e, st)
              end
          end
      end
  end.

(** [encryption_data.copy()], [del copy["hardware_id_hash"]] and
    [copy["hardware_bound"] = False] *)
Definition strip_hardware_binding (encryption_data : json) : result json :=
  match encryption_data with
  | JObj o => Ok (JObj (<["hardware_bound" := JBool false]>
                          (delete "hardware_id_hash" o)))
  | _ => Raise (AttributeError
           ("'" +:+ type_name encryption_data +:+
            "' object has no attribute 'copy'"))
  end.

(** The decryption step of [import_portable_file]: the content and the
    document with the encryption data that will be stored. *)
Definition import_decrypt (portable_data encryption_data : json)
    (password : string) : result (bytes * json) :=
  hardware_bound ← contains encryption_data "hardware_id_hash";
  if (hardware_bound : bool) then
    original_hw_hash ← get encryption_data "hardware_id_hash" JNull;
    encryption_data_copy ← strip_hardware_binding encryption_data;
    match decrypt_file_content encryption_data_copy password with
    | Ok file_content =>
        portable_data ← setitem portable_data "encryption" encryption_data_copy;
        mret (file_content, portable_data)
    | Raise (ValueError _) =>
        match decrypt_file_content encryption_data password with
        | Ok file_content => mret (file_content, portable_data)
        | Raise (ValueError _) =>
            Raise (ValueError
                     "Incorrect password or incompatible hardware binding")
        | Raise e => Raise e
        end
    | Raise e => Raise e
    end
  else
    match decrypt_file_content encryption_data password with
    | Ok file_content => mret (file_content, portable_data)
    | Raise (ValueError _) => Raise (ValueError "Incorrect password")
    | Raise e => Raise e
    end.

(** The body of the [try] of [import_portable_file], up to the document
    that is written; [portable_data] is what [json.load] read from
    [import_path], [file_id] what [_generate_file_id] returns. *)
Definition import_body (st : state) (portable_data : json)
    (password file_id : string) (now : Z) : result json :=
  signature ← get portable_data "bar_portable_file" JNull;
  if negb (truthy signature) then
    Raise (ValueError "Not a valid BAR portable file")
  else
  content_hash ← get portable_data "content_hash" JNull;
  if truthy content_hash && _is_blacklisted st content_hash then
    Raise (ValueError "This file has been permanently deleted due to security violations and cannot be reimported")
  else
  encryption_data ← get portable_data "encryption" (JObj ∅);
  '(file_content, portable_data) ←
    import_decrypt portable_data encryption_data password;
  filename ← getitem portable_data "filename";
  creation_time ← getitem portable_data "creation_time";
  access_count ← get portable_data "access_count" (JInt 0);
  file_type ← get portable_data "file_type" (JStr "document");
  security ← getitem portable_data "security";
  encryption ← getitem portable_data "encryption";
  failed ← get portable_data "failed_password_attempts" (JInt 0);
  let metadata : gmap string json := list_to_map [
    ("file_id", JStr file_id);
    ("filename", filename);
    ("creation_time", creation_time);
    ("last_accessed", JStr (isoformat now));
    ("access_count", access_count);
    ("file_type", file_type);
    ("security", security);
    ("encryption", encryption);
    ("content_hash",
       if truthy content_hash then content_hash
       else JStr (_hash_content file_content));
    ("failed_password_attempts", failed)] in
  _ ← get security "disable_export" (JBool false);
  mret (JObj metadata).

(** [import_portable_file]: whatever is raised inside is raised again as
    a [ValueError]. *)
Definition import_portable_file (st : state) (portable_data : json)
    (password file_id : string) (now : Z) : result string * state :=
  match import_body st portable_data password file_id now with
  | Ok metadata => (Ok file_id, write_metadata st file_id metadata)
  | Raise e =>
      (Raise (ValueError ("Failed to import file: " +:+ str_exn e)), st)
  end.

(** One turn of the loop of [_monitor_files] over a file of the
    directory listing: the file is opened and checked; any exception is
    logged and the loop goes on. *)
Definition monitor_file (st : state) (name : string) (now : Z) : state :=
  match metadata_directory st !! name with
  | None => st
  | Some metadata =>
      match _check_security_constraints metadata now with
      | Ok false =>
          match getitem metadata "file_id" with
          | Ok (JStr file_id) => snd (_secure_delete_file st file_id now)
          | _ => st
          end
      | _ => st
      end
  end.

(** One sweep of [_monitor_files]: [listing] is what
    [metadata_directory.glob("*.json")] yields, in the order it yields
    it, with the time at which each file is checked. *)
Fixpoint monitor_sweep (st : state) (listing : list (string * Z)) : state :=
  match listing with
  | [] => st
  | (name, now) :: listing' => monitor_sweep (monitor_file st name now) listing'
  end.

(** A pending [_secure_delete_file] thread runs, at time [now]. *)
Definition run_thread (st : state) (i : nat) (now : Z) : state :=
  match threads st !! i with
  | None => st
  | Some file_id =>
      let st' := snd (_secure_delete_file st file_id now) in
      {| metadata_directory := metadata_directory st';
         blacklist_directory := blacklist_directory st';
         threads := delete i (threads st') |}
  end.

(** What can happen between two calls of the foreground: pending
    deletion threads run, and the monitor looks at files.  Each of these
    runs to its end before the next one starts. *)
Inductive background : state → state → Prop :=
| bg_idle st : background st st
| bg_thread st i now st' :
    background (run_thread st i now) st' → background st st'
| bg_monitor st name now st' :
    background (monitor_file st name now) st' → background st st'.

(** *** The rest of the manager *)

Context `{OsRoutines}.

(** [str(v)], as an f-string formats a value. *)
Definition format_value (v : json) : string :=
  match v with
  | JNull => "None"
  | JBool true => "True"
  | JBool false => "False"
  | JInt n => str_int n
  | JStr s => s
  | JObj o => dict_str o
  end.

(** [v == s] for a value read from a document and a string. *)
Definition is_str (s : string) (v : json) : bool :=
  match v with
  | JStr s' => String.eqb s' s
  | _ => false
  end.

(** [s.endswith(suffix)] *)
Definition str_ends_with (suffix s : string) : bool :=
  let n := String.length s in
  let m := String.length suffix in
  (m <=? n)%nat && String.eqb (String.substring (n - m) m s) suffix.

Definition media_extensions : list string := [
  ".jpg"; ".jpeg"; ".png"; ".gif"; ".bmp"; ".tiff"; ".webp"; ".svg";
  ".mp3"; ".wav"; ".ogg"; ".flac"; ".aac"; ".m4a";
  ".mp4"; ".avi"; ".mov"; ".wmv"; ".mkv"; ".webm"; ".flv";
  ".pdf"; ".psd"; ".ai"; ".eps"].

(** The magic bytes of JPEG, PNG, GIF87a, GIF89a, [%PDF], [ftyp] and
    [RIFF]. *)
Definition signatures : list bytes := [
  [xff; xd8; xff];
  [x89; x50; x4e; x47; x0d; x0a; x1a; x0a];
  [x47; x49; x46; x38; x37; x61];
  [x47; x49; x46; x38; x39; x61];
  [x25; x50; x44; x46];
  [x66; x74; x79; x70];
  [x52; x49; x46; x46]].

Fixpoint bytes_prefix (p s : bytes) : bool :=
  match p, s with
  | [], _ => true
  | x :: p', y :: s' => Byte.eqb x y && bytes_prefix p' s'
  | _ :: _, [] => false
  end.

(** [sub in s] for two byte strings. *)
Fixpoint bytes_contains (sub s : bytes) : bool :=
  bytes_prefix sub s ||
  match s with
  | [] => false
  | _ :: s' => bytes_contains sub s'
  end.

(** [_is_media_file] *)
Definition _is_media_file (filename : string) (content : bytes) : bool :=
  let ext := (splitext (str_lower filename)).2 in
  if bool_decide (ext ∈ media_extensions) then true
  else
    let header := take 20 content in
    existsb (λ sig, bytes_contains sig header) signatures.

(** What a call of [create_secure_file] leaves behind: the id or the
    exception, the store, the caller's [security_settings] dictionary
    (the call may add an entry to it) and the entropy. *)
Record creation := {
  created : result string;
  store_after : state;
  settings_after : gmap string json;
  entropy_left : entropy
}.

(** [d.get(k)] on a dictionary. *)
Definition dict_get (d : gmap string json) (k : string) (default : json)
  : json :=
  match d !! k with
  | Some v => v
  | None => default
  end.

(** [create_secure_file]; [file_id] is what [_generate_file_id]
    returns. *)
Definition create_secure_file (st : state) (content : bytes)
    (filename password : string) (security_settings : gmap string json)
    (file_id : string) (e : entropy) (now : Z) : creation :=
  let is_media := _is_media_file filename content in
  let security_settings :=
    if is_media &&
       negb (bool_decide (is_Some (security_settings !! "disable_export")))
    then <["disable_export" := JBool true]> security_settings
    else security_settings in
  let '(encrypted, e) := encrypt_file_content content password e now in
  match encrypted with
  | Raise ex =>
      {| created := Raise ex; store_after := st;
         settings_after := security_settings; entropy_left := e |}
  | Ok encrypted_content =>
      let security : gmap string json := list_to_map [
        ("expiration_time", dict_get security_settings "expiration_time" JNull);
        ("max_access_count",
           dict_get security_settings "max_access_count" JNull);
        ("deadman_switch", dict_get security_settings "deadman_switch" JNull);
        ("disable_export",
           dict_get security_settings "disable_export" (JBool false))] in
      let metadata : gmap string json := list_to_map [
        ("file_id", JStr file_id);
        ("filename", JStr filename);
        ("creation_time", JStr (isoformat now));
        ("last_accessed", JStr (isoformat now));
        ("access_count", JInt 0);
        ("file_type", JStr (if is_media then "media" else "document"));
        ("security", JObj security);
        ("encryption", encrypted_content)] in
      {| created := Ok file_id;
         store_after := write_metadata st file_id (JObj metadata);
         settings_after := security_settings; entropy_left := e |}
  end.

(** [_delete_file]: the metadata file is unlinked, nothing else. *)
Definition _delete_file (st : state) (file_id : string) : bool * state :=
  match metadata_directory st !! file_id with
  | None => (false, st)
  | Some _ => (true, remove_metadata st file_id)
  end.

Definition delete_file (st : state) (file_id : string) : bool * state :=
  _delete_file st file_id.

Definition view_only_message : string :=
  "This file has been marked as view-only and cannot be exported".

(** [export_file]: [None] when the call returns [False] (no such entry),
    otherwise the document copied to [export_path]; the copy itself is
    taken to succeed. *)
Definition export_file (st : state) (file_id : string) : result (option json) :=
  match metadata_directory st !! file_id with
  | None => Ok None
  | Some metadata =>
      security ← get metadata "security" (JObj ∅);
      disable_export ← get security "disable_export" (JBool false);
      if truthy disable_export then Raise (ValueError view_only_message)
      else Ok (Some metadata)
  end.

(** [export_portable_file]: the document written to [export_path]; the
    write itself is taken to succeed. *)
Definition export_portable_file (st : state) (file_id password : string)
  : result json :=
  match metadata_directory st !! file_id with
  | None =>
      Raise (FileNotFoundError ("File with ID " +:+ file_id +:+ " not found"))
  | Some metadata =>
      security ← getitem metadata "security";
      disable_export ← get security "disable_export" (JBool false);
      if truthy disable_export then Raise (ValueError view_only_message)
      else
        file_content ←
          match
            (encryption ← getitem metadata "encryption";
             decrypt_file_content encryption password)
          with
          | Raise (ValueError _) => Raise (ValueError "Incorrect password")
          | r => r
          end;
        filename ← getitem metadata "filename";
        creation_time ← getitem metadata "creation_time";
        file_type ← get metadata "file_type" (JStr "document");
        security ← getitem metadata "security";
        encryption ← getitem metadata "encryption";
        failed ← get metadata "failed_password_attempts" (JInt 0);
        access_count ← get metadata "access_count" (JInt 0);
        let portable_data : gmap string json := list_to_map [
          ("bar_portable_file", JBool true);
          ("version", JStr "1.0");
          ("filename", filename);
          ("creation_time", creation_time);
          ("file_type", file_type);
          ("security", security);
          ("encryption", encryption);
          ("content_hash", JStr (_hash_content file_content));
          ("failed_password_attempts", failed);
          ("access_count", access_count)] in
        mret (JObj portable_data)
  end.

(** The body of the [try] of [import_file]: the id returned, the name of
    the file written and the document written; [metadata] is what
    [json.load] read from [import_path]. *)
Definition import_file_body (st : state) (metadata : json) (fresh_id : string)
  : result (json * string * json) :=
  has_id ← contains metadata "file_id";
  has_encryption ←
    (if (has_id : bool) then contains metadata "encryption" else mret false);
  if negb (has_id && has_encryption) then
    Raise (ValueError "Not a valid BAR file")
  else
    file_id ← getitem metadata "file_id";
    match metadata_directory st !! format_value file_id with
    | Some _ =>
        metadata ← setitem metadata "file_id" (JStr fresh_id);
        mret (JStr fresh_id, fresh_id, metadata)
    | None => mret (file_id, format_value file_id, metadata)
    end.

(** [import_file] *)
Definition import_file (st : state) (metadata : json) (fresh_id : string)
  : result json * state :=
  match import_file_body st metadata fresh_id with
  | Ok (file_id, name, metadata) => (Ok file_id, write_metadata st name metadata)
  | Raise e =>
      (Raise (ValueError ("Failed to import file: " +:+ str_exn e)), st)
  end.

(** One turn of the loop of [update_security_settings]. *)
Definition update_setting (metadata : json) (setting : string * json)
  : result json :=
  security ← getitem metadata "security";
  recognized ← contains security setting.1;
  if (recognized : bool) then
    security ← setitem security setting.1 setting.2;
    setitem metadata "security" security
  else mret metadata.

Fixpoint update_settings (metadata : json) (settings : list (string * json))
  : result json :=
  match settings with
  | [] => mret metadata
  | setting :: settings' =>
      metadata ← update_setting metadata setting;
      update_settings metadata settings'
  end.

(** [update_security_settings]; the loop runs over the items of the
    dictionary. *)
Definition update_security_settings (st : state) (file_id : string)
    (security_settings : gmap string json) : result bool * state :=
  match metadata_directory st !! file_id with
  | None => (Ok false, st)
  | Some metadata =>
      match update_settings metadata (map_to_list security_settings) with
      | Ok metadata => (Ok true, write_metadata st file_id metadata)
      | Raise e => (Raise e, st)
      end
  end.

Definition image_extensions : list string :=
  [".jpg"; ".jpeg"; ".png"; ".gif"; ".bmp"; ".webp"; ".svg"].
Definition audio_extensions : list string :=
  [".mp3"; ".wav"; ".ogg"; ".flac"; ".aac"; ".m4a"].
Definition video_extensions : list string :=
  [".mp4"; ".avi"; ".mov"; ".wmv"; ".mkv"; ".webm"; ".flv"].

(** The display name [list_files] gives a media file. *)
Definition media_display (filename : string) : string :=
  if existsb (λ ext, str_ends_with ext filename) image_extensions then "Image"
  else if existsb (λ ext, str_ends_with ext filename) audio_extensions
  then "Audio"
  else if existsb (λ ext, str_ends_with ext filename) video_extensions
  then "Video"
  else if str_ends_with ".pdf" filename then "PDF Document"
  else "Media File".

(** What [list_files] makes of one metadata document: nothing when it has
    no encryption data, otherwise a copy without them, with the fields of
    the user interface. *)
Definition list_item (metadata : json) : result (option json) :=
  has ← contains metadata "encryption";
  if (has : bool) then
    match metadata with
    | JObj o =>
        let metadata_copy := delete "encryption" o in
        view ← get (dict_get metadata_copy "security" (JObj ∅))
                 "disable_export" (JBool false);
        let metadata_copy := <["is_view_only" := view]> metadata_copy in
        let file_type := dict_get metadata_copy "file_type" (JStr "document") in
        let metadata_copy := <["file_type" := file_type]> metadata_copy in
        display ←
          (if is_str "media" file_type then
             match dict_get metadata_copy "filename" (JStr "") with
             | JStr filename => mret (media_display (str_lower filename))
             | v => Raise (AttributeError
                      ("'" +:+ type_name v +:+
                       "' object has no attribute 'lower'"))
             end
           else mret "Document");
        mret (Some (JObj (<["file_type_display" := JStr display]>
                            metadata_copy)))
    | _ => Raise (AttributeError
             ("'" +:+ type_name metadata +:+
              "' object has no attribute 'copy'"))
    end
  else mret None.

(** [list_files]; [listing] is what [metadata_directory.glob("*.json")]
    yields. *)
Fixpoint list_files (st : state) (listing : list string)
  : result (list json) :=
  match listing with
  | [] => mret []
  | name :: listing' =>
      match metadata_directory st !! name with
      | None => Raise (FileNotFoundError name)
      | Some metadata =>
          item ← list_item metadata;
          files ← list_files st listing';
          mret (match item with
                | Some i => i :: files
                | None => files
                end)
      end
  end.

(** The [file_path] the document names, if it names one, is no file of
    the vault. *)
Definition file_path_elsewhere (metadata : gmap string json) : Prop :=
  ∀ file_path, metadata !! "file_path" = Some (JStr file_path) →
               locate file_path = Elsewhere.

(** A document that keeps to its own file: its [file_path] is no file of
    the vault, and the [file_id] it carries, which the monitor hands to
    [_secure_delete_file] and [import_file] makes the name of the file,
    is the stem of a file name. *)
Record safe_document (metadata : gmap string json) : Prop := {
  safe_file_path : file_path_elsewhere metadata;
  safe_file_id :
    ∀ file_id, metadata !! "file_id" = Some file_id →
               is_stem (format_value file_id) = true
}.

(** What a file holds keeps to its own file, if it is a document. *)
Definition safe_json (metadata : json) : Prop :=
  ∀ o, metadata = JObj o → safe_document o.

(** The calls that change the store, each from some store to the next.
    The ids are stems of file names, those a call is given as well as
    those [_generate_file_id] makes, and a document handed to
    [import_file] keeps to its own file; the other arguments can be
    anything. *)
Inductive step : state → state → Prop :=
| step_create st content filename password settings file_id e now :
    is_stem file_id = true →
    step st (store_after (create_secure_file st content filename password
                            settings file_id e now))
| step_access st file_id password now :
    is_stem file_id = true →
    step st (access_file st file_id password now).2
| step_delete st file_id :
    is_stem file_id = true →
    step st (delete_file st file_id).2
| step_secure_delete st file_id now :
    is_stem file_id = true →
    step st (_secure_delete_file st file_id now).2
| step_import_portable st portable_data password file_id now :
    is_stem file_id = true →
    step st (import_portable_file st portable_data password file_id now).2
| step_import st metadata fresh_id :
    safe_json metadata →
    is_stem fresh_id = true →
    step st (import_file st metadata fresh_id).2
| step_update st file_id settings :
    is_stem file_id = true →
    step st (update_security_settings st file_id settings).2
| step_monitor st name now :
    is_stem name = true →
    step st (monitor_file st name now)
| step_thread st i now :
    step st (run_thread st i now).

(** Any number of calls. *)
Inductive steps : state → state → Prop :=
| steps_refl st : steps st st
| steps_step st st' st'' : step st st' → steps st' st'' → steps st st''.

End WithPrimitives.
End FileManager.

(* ===================================================================== *)
(** * src/file_manager/file_scanner.py: the walk and the import *)
(* ===================================================================== *)

Module Scan.
Section WithPrimitives.
Context `{Primitives} `{OsRoutines}.

Import FileScanner.

(** What [directory.iterdir()] yields, item by item: a regular file with
    its suffix, a directory, or something that is neither.  The iteration
    ends normally or with a [PermissionError] or [OSError]. *)
Inductive item :=
| RegularFile (suffix : string) (f : candidate)
| Directory (d : listing)
| Other
with listing :=
| Done
| Unreadable
| Next (i : item) (rest : listing).

Scheme listing_item_ind := Induction for listing Sort Prop
  with item_listing_ind := Induction for item Sort Prop.

(** [scan_progress] *)
Record progress := {
  total_files : Z;
  processed_files : Z;
  found_bar_files : Z;
  invalid_bar_files : Z
}.

(** [_count_total_files]; the state threaded through is
    [scan_progress["total_files"]].  The handler of a directory logs the
    error and returns, so the directory above goes on with its next
    item. *)
Fixpoint _count_total_files (recursive : bool) (directory : listing)
    (total : Z) : Z :=
  match directory with
  | Done => total
  | Unreadable => total
  | Next i rest =>
      let total :=
        match i with
        | RegularFile _ _ => total + 1
        | Directory d =>
            if recursive then _count_total_files recursive d total else total
        | Other => total
        end in
      _count_total_files recursive rest total
  end.

(** [scan_progress] and [scan_results["files"]]. *)
Record scan_state := {
  scan_progress : progress;
  files : list json
}.

(** The turn of [_scan_directory] for a regular file, without a
    callback; [now] is the time at which the file is validated.  An
    exception of [_validate_bar_file] leaves the counters as they are at
    that point. *)
Definition scan_file (suffix : string) (f : candidate) (now : Z)
    (s : scan_state) : option exn * scan_state :=
  let p := scan_progress s in
  let processed := processed_files p + 1 in
  if String.eqb (str_lower suffix) BAR_FILE_EXTENSION then
    let '(bar_info, invalid) := _validate_bar_file (invalid_bar_files p) f now in
    let counted found :=
      {| total_files := total_files p; processed_files := processed;
         found_bar_files := found; invalid_bar_files := invalid |} in
    match bar_info with
    | Raise e =>
        (Some e, {| scan_progress := counted (found_bar_files p);
                    files := files s |})
    | Ok (Some info) =>
        if truthy info then
          (None, {| scan_progress := counted (found_bar_files p + 1);
                    files := files s ++ [info] |})
        else
          (None, {| scan_progress := counted (found_bar_files p);
                    files := files s |})
    | Ok None =>
        (None, {| scan_progress := counted (found_bar_files p);
                  files := files s |})
    end
  else
    (None, {| scan_progress :=
                {| total_files := total_files p; processed_files := processed;
                   found_bar_files := found_bar_files p;
                   invalid_bar_files := invalid_bar_files p |};
              files := files s |}).

(** [_scan_directory] without a callback.  [clock] gives the time at
    which the file that is processed as number [n] is validated.  Only
    [PermissionError] and [OSError] are caught, so what
    [_validate_bar_file] raises ends the whole walk. *)
Fixpoint _scan_directory (recursive : bool) (clock : Z → Z)
    (directory : listing) (s : scan_state) : option exn * scan_state :=
  match directory with
  | Done => (None, s)
  | Unreadable => (None, s)
  | Next i rest =>
      let r :=
        match i with
        | RegularFile suffix f =>
            scan_file suffix f
              (clock (processed_files (scan_progress s) + 1)) s
        | Directory d =>
            if recursive then _scan_directory recursive clock d s
            else (None, s)
        | Other => (None, s)
        end in
      match r with
      | (None, s) => _scan_directory recursive clock rest s
      | (Some e, s) => (Some e, s)
      end
  end.

(** What [import_found_file] returns: the [status] with the fields that
    go with it. *)
Inductive import_outcome :=
| ImportSuccess (file_id : string) (file_info : json)
| ImportError (message : string).

(** [import_found_file].  [f] is the file as [_validate_bar_file] reads
    it at [now]; [portable_data] is what [import_portable_file] then
    reads from the same path, at [now'], and [file_id] the id it
    generates.  The counter of invalid files is threaded through as in
    [_validate_bar_file]. *)
Definition import_found_file (st : FileManager.state) (invalid : Z)
    (f : candidate) (portable_data : json) (password file_id : string)
    (now now' : Z) : import_outcome * FileManager.state * Z :=
  let '(file_info, invalid) := _validate_bar_file invalid f now in
  match file_info with
  | Raise (ValueError m) => (ImportError m, st, invalid)
  | Raise e => (ImportError ("Import failed: " +:+ str_exn e), st, invalid)
  | Ok None => (ImportError "Invalid .bar file format", st, invalid)
  | Ok (Some file_info) =>
      if negb (truthy file_info) then
        (ImportError "Invalid .bar file format", st, invalid)
      else
        match get file_info "expired" (JBool false) with
        | Raise (ValueError m) => (ImportError m, st, invalid)
        | Raise e =>
            (ImportError ("Import failed: " +:+ str_exn e), st, invalid)
        | Ok expired =>
            if truthy expired then
              (ImportError
                 "This .bar file has expired and cannot be imported",
               st, invalid)
            else
              match FileManager.import_portable_file st portable_data
                      password file_id now' with
              | (Ok file_id, st) =>
                  (ImportSuccess file_id file_info, st, invalid)
              | (Raise (ValueError m), st) => (ImportError m, st, invalid)
              | (Raise e, st) =>
                  (ImportError ("Import failed: " +:+ str_exn e), st, invalid)
              end
        end
  end.

End WithPrimitives.
End Scan.

(* ===================================================================== *)
(** * src/security/session_manager.py *)
(* ===================================================================== *)

Module SessionManager.

(** The dictionary [create_session] stores for a session; the times are
    [datetime] values, in microseconds. *)
Record session := {
  username : string;
  created_at : Z;
  last_activity : Z;
  is_locked : bool;
  data : json
}.

(** The manager: [timeout_minutes] and the [sessions] dictionary.  The
    calls hold the manager's lock, so each runs to its end before the
    next one starts. *)
Record state := {
  timeout_minutes : Z;
  sessions : gmap string session
}.

Definition DEFAULT_TIMEOUT : Z := 15.

(** [timedelta(minutes=1)] *)
Definition MINUTE : Z := 60000000.

Definition __init__ (timeout_minutes : Z) : state :=
  {| timeout_minutes := timeout_minutes; sessions := ∅ |}.

Definition with_sessions (st : state) (sessions : gmap string session)
  : state :=
  {| timeout_minutes := timeout_minutes st; sessions := sessions |}.

(** [session["last_activity"] = datetime.now()] *)
Definition touch (s : session) (now : Z) : session :=
  {| username := username s; created_at := created_at s;
     last_activity := now; is_locked := is_locked s; data := data s |}.

(** [session["is_locked"] = b] *)
Definition set_locked (s : session) (b : bool) : session :=
  {| username := username s; created_at := created_at s;
     last_activity := last_activity s; is_locked := b; data := data s |}.

(** [create_session]; [session_id] is what [_generate_session_id]
    returns. *)
Definition create_session (st : state) (user : string)
    (additional_data : option json) (session_id : string) (now : Z)
  : string * state :=
  let session_data :=
    {| username := user; created_at := now; last_activity := now;
       is_locked := false;
       data := match additional_data with
               | Some d => if truthy d then d else JObj ∅
               | None => JObj ∅
               end |} in
  (session_id, with_sessions st (<[session_id := session_data]> (sessions st))).

(** [end_session] *)
Definition end_session (st : state) (session_id : string) : bool * state :=
  match sessions st !! session_id with
  | None => (false, st)
  | Some _ => (true, with_sessions st (delete session_id (sessions st)))
  end.

(** [datetime.now() - last_activity > timedelta(minutes=timeout_minutes)] *)
Definition timed_out (st : state) (s : session) (now : Z) : bool :=
  timeout_minutes st * MINUTE <? now - last_activity s.

(** [validate_session] *)
Definition validate_session (st : state) (session_id : string) (now : Z)
  : bool * state :=
  match sessions st !! session_id with
  | None => (false, st)
  | Some session =>
      if is_locked session then (false, st)
      else if timed_out st session now then
        (false, (end_session st session_id).2)
      else
        (true, with_sessions st
                 (<[session_id := touch session now]> (sessions st)))
  end.

(** [update_activity] *)
Definition update_activity (st : state) (session_id : string) (now : Z)
  : bool * state :=
  match sessions st !! session_id with
  | None => (false, st)
  | Some session =>
      (true, with_sessions st
               (<[session_id := touch session now]> (sessions st)))
  end.

(** [lock_session] *)
Definition lock_session (st : state) (session_id : string) : bool * state :=
  match sessions st !! session_id with
  | None => (false, st)
  | Some session =>
      (true, with_sessions st
               (<[session_id := set_locked session true]> (sessions st)))
  end.

(** [unlock_session] *)
Definition unlock_session (st : state) (session_id : string) (now : Z)
  : bool * state :=
  match sessions st !! session_id with
  | None => (false, st)
  | Some session =>
      (true, with_sessions st
               (<[session_id := touch (set_locked session false) now]>
                  (sessions st)))
  end.

(** [get_session_data] *)
Definition get_session_data (st : state) (session_id : string)
  : option session :=
  sessions st !! session_id.

(** [set_timeout] *)
Definition set_timeout (st : state) (minutes : Z) : state :=
  {| timeout_minutes := minutes; sessions := sessions st |}.

(** One turn of the loop of [_monitor_sessions], at [current_time]: the
    sessions idle for longer than the timeout are removed. *)
Definition monitor_sessions (st : state) (current_time : Z) : state :=
  with_sessions st
    (filter (λ kv, timed_out st kv.2 current_time = false) (sessions st)).

(** The calls, and a manager going through a list of them. *)
Inductive call :=
| CreateSession (user : string) (additional_data : option json)
    (session_id : string) (now : Z)
| ValidateSession (session_id : string) (now : Z)
| UpdateActivity (session_id : string) (now : Z)
| LockSession (session_id : string)
| UnlockSession (session_id : string) (now : Z)
| EndSession (session_id : string)
| SetTimeout (minutes : Z)
| MonitorSessions (current_time : Z).

Definition run (st : state) (c : call) : state :=
  match c with
  | CreateSession user additional_data session_id now =>
      (create_session st user additional_data session_id now).2
  | ValidateSession session_id now => (validate_session st session_id now).2
  | UpdateActivity session_id now => (update_activity st session_id now).2
  | LockSession session_id => (lock_session st session_id).2
  | UnlockSession session_id now => (unlock_session st session_id now).2
  | EndSession session_id => (end_session st session_id).2
  | SetTimeout minutes => set_timeout st minutes
  | MonitorSessions current_time => monitor_sessions st current_time
  end.

(** [validate_session] called at each of [times] in turn. *)
Fixpoint validations (st : state) (session_id : string) (times : list Z)
  : list bool * state :=
  match times with
  | [] => ([], st)
  | now :: times' =>
      let '(valid, st) := validate_session st session_id now in
      let '(rest, st) := validations st session_id times' in
      (valid :: rest, st)
  end.

End SessionManager.

(* ===================================================================== *)
(** * src/user_manager/user_manager.py *)
(* ===================================================================== *)

Module UserManager.
Section WithPrimitives.
Context `{Primitives}.

Import EncryptionManager.

Definition MAX_LOGIN_ATTEMPTS : Z := 5.
Definition LOCKOUT_DURATION_MINUTES : Z := 30.
Definition PASSWORD_MIN_LENGTH : nat := 8.
Definition ROLE_USER : string := "user".

(** The constants of [AuditLog] the manager uses. *)
Definition INFO : string := "INFO".
Definition WARNING : string := "WARNING".
Definition LOGIN_SUCCESS : string := "LOGIN_SUCCESS".
Definition LOGIN_FAILURE : string := "LOGIN_FAILURE".
Definition SECURITY_ALERT : string := "SECURITY_ALERT".

(** An entry of the audit log: the arguments of [log_event]. *)
Record event := {
  event_type : string;
  event_username : string;
  details : gmap string json;
  level : string
}.

(** The files of [users_directory], as the documents they hold, keyed by
    user name; the session manager; and the events logged, oldest
    first.  The files are regular files the process may read and
    write.  The file of a user is [<username>.json]: as for the vault,
    the map is the directory for user names that are stems of file names
    ([is_stem]); with another name the path leaves the directory or
    [open] fails, and the embedding does not follow the methods
    there. *)
Record state := {
  users_directory : gmap string json;
  session_manager : SessionManager.state;
  audit_log : list event
}.

Definition log_event (st : state) (event_type username : string)
    (details : gmap string json) (level : string) : state :=
  {| users_directory := users_directory st;
     session_manager := session_manager st;
     audit_log := audit_log st ++
       [{| event_type := event_type; event_username := username;
           details := details; level := level |}] |}.

Definition _get_user_data (st : state) (username : string) : option json :=
  users_directory st !! username.

Definition _save_user_data (st : state) (username : string)
    (user_data : json) : state :=
  {| users_directory := <[username := user_data]> (users_directory st);
     session_manager := session_manager st;
     audit_log := audit_log st |}.

Definition is_lower (c : ascii) : bool :=
  let n := N_of_ascii c in ((97 <=? n) && (n <=? 122))%N.

Definition is_upper (c : ascii) : bool :=
  let n := N_of_ascii c in ((65 <=? n) && (n <=? 90))%N.

(** [[@$!%*?&]] *)
Definition is_special (c : ascii) : bool :=
  existsb (Ascii.eqb c) ["@"; "$"; "!"; "%"; "*"; "?"; "&"]%char.

(** [[A-Za-z\d@$!%*?&]] *)
Definition is_allowed (c : ascii) : bool :=
  is_lower c || is_upper c || FileScanner.is_digit c || is_special c.

(** What [.*] can run over from the start: the text before the first
    newline. *)
Fixpoint first_line (s : string) : string :=
  match s with
  | EmptyString => EmptyString
  | String c s' =>
      if Ascii.eqb c "010"%char then EmptyString
      else String c (first_line s')
  end.

Fixpoint str_exists (p : ascii → bool) (s : string) : bool :=
  match s with
  | EmptyString => false
  | String c s' => p c || str_exists p s'
  end.

(** [_validate_password_complexity], on ASCII text: the pattern is four
    lookaheads [(?=.*[a-z])], [(?=.*[A-Z])], [(?=.*\d)], [(?=.*[@$!%*?&])]
    at the start, followed by one character of the class. *)
Definition _validate_password_complexity (password : string) : bool :=
  if (String.length password <? PASSWORD_MIN_LENGTH)%nat then false
  else
    let line := first_line password in
    str_exists is_lower line && str_exists is_upper line &&
    str_exists FileScanner.is_digit line && str_exists is_special line &&
    match password with
    | String c _ => is_allowed c
    | EmptyString => false
    end.

(** [value or default] for an optional string argument. *)
Definition or_default (value : option string) (default : string) : string :=
  match value with
  | Some v => if String.eqb v "" then default else v
  | None => default
  end.

(** [register_user], for a user name that is the stem of a file name. *)
Definition register_user (st : state) (username password : string)
    (display_name role : option string) (bind_to_hardware : bool)
    (hw_id : string) (e : entropy) (now : Z)
  : (bool * option string) * state * entropy :=
  if bool_decide (is_Some (users_directory st !! username)) then
    ((false, Some ("Registration failed: Username '" +:+ username +:+
                   "' already exists")), st, e)
  else if negb (_validate_password_complexity password) then
    ((false, Some "Password does not meet complexity requirements"), st, e)
  else
    let '(password_hash, e) :=
      hash_password password bind_to_hardware hw_id e in
    let default_security : gmap string json := list_to_map [
      ("expiration_time", JNull);
      ("max_access_count", JNull);
      ("deadman_switch", JNull)] in
    let settings : gmap string json := list_to_map [
      ("theme", JStr "default");
      ("default_security", JObj default_security)] in
    let user_data : gmap string json := list_to_map [
      ("username", JStr username);
      ("display_name", JStr (or_default display_name username));
      ("created_at", JStr (isoformat now));
      ("last_login", JNull);
      ("password", password_hash);
      ("role", JStr (or_default role ROLE_USER));
      ("account_status", JStr "active");
      ("failed_login_attempts", JInt 0);
      ("locked_until", JNull);
      ("two_factor_enabled", JBool false);
      ("two_factor_secret", JNull);
      ("hardware_bound", JBool bind_to_hardware);
      ("settings", JObj settings)] in
    let st := _save_user_data st username (JObj user_data) in
    let st := log_event st LOGIN_SUCCESS username
                (list_to_map [("action", JStr "user_registration");
                              ("role", JStr (or_default role ROLE_USER))])
                INFO in
    ((true, None), st, e).

(** [v == s] for a value read from a document and a string. *)
Definition str_eq (v : json) (s : string) : bool :=
  match v with
  | JStr s' => String.eqb s' s
  | _ => false
  end.

(** The [return] statements of [authenticate_user], with what each of
    them needs. *)
Inductive verdict :=
| UserNotFound
| AccountLocked (remaining_minutes : Z) (locked_until : json)
| WrongDevice
| LockedOut (user_data : json) (locked_until : Z)
| IncorrectPassword (user_data : json) (attempts_left : Z)
| TwoFactorRequired
| Authenticated (user_data : json).

(** The check of the lock at the start of [authenticate_user]: the
    refusal, or the user data to go on with.  The minutes that remain
    are [int((locked_until_dt - now).total_seconds() / 60)], computed in
    floating point; for a difference below [2 ^ 50] microseconds, some 35
    years, that is the quotient taken here. *)
Definition check_lock (user_data : json) (now : Z)
  : result (verdict + json) :=
  status ← get user_data "account_status" JNull;
  if str_eq status "locked" then
    locked_until ← get user_data "locked_until" JNull;
    if truthy locked_until then
      locked_until_dt ← FileManager.fromisoformat_value locked_until;
      if now <? locked_until_dt then
        mret (inl (AccountLocked
                     ((locked_until_dt - now) / SessionManager.MINUTE)
                     locked_until))
      else
        user_data ← FileManager.setitem user_data "account_status"
                      (JStr "active");
        user_data ← FileManager.setitem user_data "locked_until" JNull;
        user_data ← FileManager.setitem user_data "failed_login_attempts"
                      (JInt 0);
        mret (inr user_data)
    else mret (inr user_data)
  else mret (inr user_data).

(** The first check of the hardware binding: whether the call ends with
    the device error. *)
Definition check_device (user_data : json) (password hw_id : string)
  : result bool :=
  bound ← get user_data "hardware_bound" (JBool false);
  if truthy bound then
    password_hash ← get user_data "password" (JObj ∅);
    hash_bound ← get password_hash "hardware_bound" (JBool false);
    if truthy hash_bound then
      verified ← verify_password password password_hash hw_id;
      if negb verified then
        stored ← get password_hash "hardware_id_hash" JNull;
        mret (truthy stored && str_ne (hardware_id_hash hw_id) stored)
      else mret false
    else mret false
  else mret false.

(** [v + 1] *)
Definition plus1 (v : json) : result Z :=
  match as_int v, v with
  | Some n, _ => Ok (n + 1)
  | None, JStr _ =>
      Raise (TypeError
        ("can only concatenate str (not " +:+
         String (Ascii.ascii_of_nat 34) "int" +:+
         String (Ascii.ascii_of_nat 34) ") to str"))
  | None, _ =>
      Raise (TypeError
        ("unsupported operand type(s) for +: '" +:+ type_name v +:+
         "' and 'int'"))
  end.

(** The branch of a password that does not verify. *)
Definition count_failure (user_data : json) (now : Z) : result verdict :=
  attempts ← get user_data "failed_login_attempts" (JInt 0);
  attempts ← plus1 attempts;
  user_data ← FileManager.setitem user_data "failed_login_attempts"
                (JInt attempts);
  if MAX_LOGIN_ATTEMPTS <=? attempts then
    let locked_until :=
      now + LOCKOUT_DURATION_MINUTES * SessionManager.MINUTE in
    user_data ← FileManager.setitem user_data "account_status"
                  (JStr "locked");
    user_data ← FileManager.setitem user_data "locked_until"
                  (JStr (isoformat locked_until));
    mret (LockedOut user_data locked_until)
  else mret (IncorrectPassword user_data (MAX_LOGIN_ATTEMPTS - attempts)).

(** The part after the password has verified. *)
Definition after_password (user_data : json) (hw_id : string) (now : Z)
  : result verdict :=
  bound ← get user_data "hardware_bound" (JBool false);
  wrong_device ←
    (if truthy bound then
       password_hash ← get user_data "password" (JObj ∅);
       hash_bound ← get password_hash "hardware_bound" (JBool false);
       stored ← get password_hash "hardware_id_hash" JNull;
       mret (truthy hash_bound && truthy stored &&
             str_ne (hardware_id_hash hw_id) stored)
     else mret false);
  if (wrong_device : bool) then mret WrongDevice
  else
    enabled ← get user_data "two_factor_enabled" (JBool false);
    secret ← get user_data "two_factor_secret" JNull;
    if truthy enabled && truthy secret then mret TwoFactorRequired
    else
      user_data ← FileManager.setitem user_data "failed_login_attempts"
                    (JInt 0);
      user_data ← FileManager.setitem user_data "account_status"
                    (JStr "active");
      user_data ← FileManager.setitem user_data "locked_until" JNull;
      user_data ← FileManager.setitem user_data "last_login"
                    (JStr (isoformat now));
      mret (Authenticated user_data).

(** Which [return] of [authenticate_user] is reached, or the exception
    that ends the call; nothing is written before one of them. *)
Definition authenticate (st : state) (username password hw_id : string)
    (now : Z) : result verdict :=
  match _get_user_data st username with
  | None => mret UserNotFound
  | Some user_data =>
      if negb (truthy user_data) then mret UserNotFound
      else
        checked ← check_lock user_data now;
        match checked with
        | inl refusal => mret refusal
        | inr user_data =>
            wrong_device ← check_device user_data password hw_id;
            if (wrong_device : bool) then mret WrongDevice
            else
              password_hash ← getitem user_data "password";
              verified ← verify_password password password_hash hw_id;
              if negb verified then count_failure user_data now
              else after_password user_data hw_id now
        end
  end.

Definition device_message : string :=
  "Authentication failed: This account can only be accessed from the device it was created on.".

(** [authenticate_user]: the triple returned and what is written, for
    each [return]; [session_id] is what [create_session] returns. *)
Definition authenticate_user (st : state)
    (username password hw_id session_id : string) (now : Z)
  : result (bool * option string * option string) * state :=
  match authenticate st username password hw_id now with
  | Raise e => (Raise e, st)
  | Ok UserNotFound =>
      (Ok (false, Some "User not found", None),
       log_event st LOGIN_FAILURE username
         (list_to_map [("reason", JStr "user_not_found")]) WARNING)
  | Ok (AccountLocked remaining_minutes locked_until) =>
      (Ok (false,
           Some ("Account is locked. Try again in " +:+
                 str_int remaining_minutes +:+ " minutes."), None),
       log_event st LOGIN_FAILURE username
         (list_to_map [("reason", JStr "account_locked");
                       ("locked_until", locked_until)]) WARNING)
  | Ok WrongDevice =>
      (Ok (false, Some device_message, None),
       log_event st SECURITY_ALERT username
         (list_to_map [("reason", JStr "hardware_id_mismatch");
                       ("current_hw_hash", JStr (hardware_id_hash hw_id))])
         WARNING)
  | Ok (LockedOut user_data locked_until) =>
      (Ok (false,
           Some ("Account locked due to too many failed login attempts. Try again in "
                 +:+ str_int LOCKOUT_DURATION_MINUTES +:+ " minutes."), None),
       log_event (_save_user_data st username user_data) SECURITY_ALERT
         username
         (list_to_map [("action", JStr "account_locked");
                       ("reason", JStr "max_failed_attempts");
                       ("locked_until", JStr (isoformat locked_until))])
         WARNING)
  | Ok (IncorrectPassword user_data attempts_left) =>
      (Ok (false,
           Some ("Incorrect password. " +:+ str_int attempts_left +:+
                 " attempts remaining before account lockout."), None),
       log_event (_save_user_data st username user_data) LOGIN_FAILURE
         username
         (list_to_map [("reason", JStr "incorrect_password");
                       ("attempts_remaining", JInt attempts_left)]) WARNING)
  | Ok TwoFactorRequired => (Ok (false, Some "two_factor_required", None), st)
  | Ok (Authenticated user_data) =>
      match get user_data "role" (JStr ROLE_USER) with
      | Raise e => (Raise e, _save_user_data st username user_data)
      | Ok role =>
          let st := _save_user_data st username user_data in
          let '(session_id, sessions) :=
            SessionManager.create_session (session_manager st) username
              (Some (JObj {[ "role" := role ]})) session_id now in
          (Ok (true, None, Some session_id),
           log_event
             {| users_directory := users_directory st;
                session_manager := sessions;
                audit_log := audit_log st |}
             LOGIN_SUCCESS username
             (list_to_map [("session_id", JStr session_id)]) INFO)
      end
  end.

(** The first instant that is no [datetime] any more: the end of the
    year 9999. *)
Definition DATETIME_END : Z := 315537897600000000.

(** The most days a [timedelta] spans. *)
Definition MAX_DELTA_DAYS : Z := 999999999.

(** [datetime.now() + timedelta(minutes=m)] for an [int]: the
    [timedelta] is refused when its days do not fit a C [int] or exceed
    [MAX_DELTA_DAYS], the sum when it is no [datetime]. *)
Definition add_minutes (now m : Z) : result Z :=
  let days := m / 1440 in
  if (days <? -2147483648) || (2147483647 <? days) then
    Raise (OverflowError "Python int too large to convert to C int")
  else if MAX_DELTA_DAYS <? Z.abs days then
    Raise (OverflowError
             ("days=" +:+ str_int days +:+
              "; must have magnitude <= 999999999"))
  else
    let sum := now + m * SessionManager.MINUTE in
    if (0 <=? sum) && (sum <? DATETIME_END) then Ok sum
    else Raise (OverflowError "date value out of range").

(** [lock_account].  [SessionManager] has no method
    [end_all_user_sessions], so the call that follows the saving of the
    user data raises [AttributeError]; what comes after it is never
    reached. *)
Definition lock_account (st : state) (username : string)
    (duration_minutes : Z) (now : Z) : result bool * state :=
  match _get_user_data st username with
  | None => (Ok false, st)
  | Some user_data =>
      if negb (truthy user_data) then (Ok false, st)
      else
        match
          (locked_until ← add_minutes now duration_minutes;
           user_data ← FileManager.setitem user_data "account_status"
                         (JStr "locked");
           FileManager.setitem user_data "locked_until"
             (JStr (isoformat locked_until)))
        with
        | Raise e => (Raise e, st)
        | Ok user_data =>
            (Raise (AttributeError
               "'SessionManager' object has no attribute 'end_all_user_sessions'"),
             _save_user_data st username user_data)
        end
  end.

(** [bool(admin_username)] and [admin_username or "system"] *)
Definition by_admin (admin_username : option string) : bool :=
  match admin_username with
  | Some a => negb (String.eqb a "")
  | None => false
  end.

(** [unlock_account] *)
Definition unlock_account (st : state) (username : string)
    (admin_username : option string) : result bool * state :=
  match _get_user_data st username with
  | None => (Ok false, st)
  | Some user_data =>
      if negb (truthy user_data) then (Ok false, st)
      else
        match
          (status ← get user_data "account_status" JNull;
           if negb (str_eq status "locked") then mret None
           else
             user_data ← FileManager.setitem user_data "account_status"
                           (JStr "active");
             user_data ← FileManager.setitem user_data "locked_until" JNull;
             user_data ← FileManager.setitem user_data
                           "failed_login_attempts" (JInt 0);
             mret (Some user_data))
        with
        | Raise e => (Raise e, st)
        | Ok None => (Ok false, st)
        | Ok (Some user_data) =>
            (Ok true,
             log_event (_save_user_data st username user_data) SECURITY_ALERT
               (or_default admin_username "system")
               (list_to_map [("action", JStr "account_unlocked");
                             ("target_user", JStr username);
                             ("by_admin", JBool (by_admin admin_username))])
               INFO)
        end
  end.

End WithPrimitives.
End UserManager.

(* ===================================================================== *)
(** * The entry as the specification describes it *)
(* ===================================================================== *)

Module Spec.
Section WithPrimitives.
Context `{Primitives} `{FileSystem} `{OsRoutines}.

(** The three destruction triggers of a security policy; an absent
    field means that the constraint does not apply. *)
Record SecurityPolicy := {
  expiration_time : option Z;
  max_access_count : option Z;
  deadman_switch_days : option Z
}.

(** A limit that is set is not zero (the data model has it positive). *)
Definition limits_nonzero (p : SecurityPolicy) : Prop :=
  max_access_count p ≠ Some 0 ∧ deadman_switch_days p ≠ Some 0.

Definition expired (p : SecurityPolicy) (now : Z) : bool :=
  match expiration_time p with
  | Some t => t <? now
  | None => false
  end.

Definition exhausted (p : SecurityPolicy) (access_count : Z) : bool :=
  match max_access_count p with
  | Some m => m <=? access_count
  | None => false
  end.

Definition deadman_triggered (p : SecurityPolicy) (now last_accessed : Z)
  : bool :=
  match deadman_switch_days p with
  | Some d => d <? (now - last_accessed) / FileManager.DAY
  | None => false
  end.

(** Constraint evaluation in the words of the specification. *)
Definition must_destroy (p : SecurityPolicy)
    (now last_accessed access_count : Z) : bool :=
  expired p now || exhausted p access_count ||
  deadman_triggered p now last_accessed.

(** How a stored document carries these values. *)
Definition is_time (t : Z) (v : json) : Prop :=
  ∃ s, v = JStr s ∧ fromisoformat s = Some t.

Definition is_int (n : Z) (v : json) : Prop := v = JInt n.

Definition is_optional {A} (P : A → json → Prop) (x : option A) (v : json)
  : Prop :=
  match x with
  | Some a => P a v
  | None => v = JNull
  end.

Record describes (metadata : gmap string json) (p : SecurityPolicy)
    (last_accessed access_count : Z) : Prop := {
  d_file_id : is_Some (metadata !! "file_id");
  d_security : ∃ security ve vm vd,
    metadata !! "security" = Some (JObj security) ∧
    security !! "expiration_time" = Some ve ∧
    is_optional is_time (expiration_time p) ve ∧
    security !! "max_access_count" = Some vm ∧
    is_optional is_int (max_access_count p) vm ∧
    security !! "deadman_switch" = Some vd ∧
    is_optional is_int (deadman_switch_days p) vd;
  d_last_accessed : ∃ v,
    metadata !! "last_accessed" = Some v ∧ is_time last_accessed v;
  d_access_count : metadata !! "access_count" = Some (JInt access_count)
}.

(** The content hash of a document, when it has one, is a string. *)
Definition content_hash_typed (metadata : gmap string json) : Prop :=
  metadata !! "content_hash" = None ∨
  metadata !! "content_hash" = Some JNull ∨
  ∃ h, metadata !! "content_hash" = Some (JStr h).

(** The hash a destroyed entry is filed under in the blacklist: the
    content hash it carries or, for an entry that carries none (as one
    made by [create_secure_file]), the SHA-256 of the JSON text of its
    encryption data, keys sorted, in hexadecimal digits. *)
Definition filing_hash (metadata : gmap string json) (encryption : json)
  : string :=
  let digest := hex (sha256 (encode_utf8 (json_dumps_sorted encryption))) in
  match metadata !! "content_hash" with
  | Some (JStr c) => if String.eqb c "" then digest else c
  | _ => digest
  end.

(** The failed attempts an entry has on record: [n], or none when the
    counter is absent. *)
Definition attempts_on_record (metadata : gmap string json) (n : Z) : Prop :=
  metadata !! "failed_password_attempts" = Some (JInt n) ∨
  (metadata !! "failed_password_attempts" = None ∧ n = 0).

(** The code raises [ValueError] throughout; the errors of the
    specification are told apart by their messages. *)
Definition PolicyError : exn :=
  ValueError "File has expired or reached maximum access count".

Definition AuthenticationError (remaining : Z) : exn :=
  ValueError ("Incorrect password. " +:+ str_int remaining +:+
              " attempts remaining before permanent deletion").

Definition PermanentlyDeletedError : exn :=
  ValueError
    "File has been permanently deleted after 3 failed password attempts".

Definition ImportAuthenticationError : exn :=
  ValueError "Failed to import file: Incorrect password or incompatible hardware binding".

Definition BlacklistedError : exn :=
  ValueError "Failed to import file: This file has been permanently deleted due to security violations and cannot be reimported".

(** The ten points a missing field costs in the integrity score. *)
Definition deduction (data : gmap string json) (field : string) : Z :=
  match data !! field with
  | Some _ => 0
  | None => 10
  end.

(** The version entry is absent, or has the shape [\d+\.\d+]. *)
Definition version_valid (data : gmap string json) : Prop :=
  data !! "version" = None ∨
  ∃ v, data !! "version" = Some (JStr v) ∧
       FileScanner.match_version v = true.

(** The record validates: minimum size, signature marker, version
    shape, required fields, and a policy that is an object. *)
Record validates (f : FileScanner.candidate) (data : gmap string json)
  : Prop := {
  v_parsed : FileScanner.c_read f = FileScanner.Parsed (JObj data);
  v_size : FileScanner.BAR_FILE_MIN_SIZE ≤ FileScanner.c_size f;
  v_signature : ∃ marker,
    data !! FileScanner.BAR_FILE_SIGNATURE = Some marker ∧
    truthy marker = true;
  v_version : version_valid data;
  v_filename : is_Some (data !! "filename");
  v_encryption : is_Some (data !! "encryption");
  v_security :
    data !! "security" = None ∨ ∃ sec, data !! "security" = Some (JObj sec)
}.

(** The expiration entry of a policy is there and can be read. *)
Definition expiration_readable (security : gmap string json) : Prop :=
  ∃ ve, security !! "expiration_time" = Some ve ∧
        (truthy ve = true →
         ∃ t, FileManager.fromisoformat_value ve = Ok t).

(** [portable_data.get("content_hash")] *)
Definition content_hash_of (portable_data : gmap string json) : json :=
  match portable_data !! "content_hash" with
  | Some v => v
  | None => JNull
  end.

(** A portable record: the signature marker, and the entries an import
    copies into the new entry. *)
Record portable_record (portable_data : gmap string json) : Prop := {
  pr_signature : ∃ marker,
    portable_data !! "bar_portable_file" = Some marker ∧
    truthy marker = true;
  pr_filename : is_Some (portable_data !! "filename");
  pr_creation_time : is_Some (portable_data !! "creation_time");
  pr_security : ∃ security,
    portable_data !! "security" = Some (JObj security)
}.

(** The blacklist does not stop the import of the record. *)
Definition passes_blacklist (st : FileManager.state)
    (portable_data : gmap string json) : Prop :=
  truthy (content_hash_of portable_data) &&
  FileManager._is_blacklisted st (content_hash_of portable_data) = false.

(** The record has no content hash, or an empty one: what
    [portable_data.get("content_hash")] returns is false in a test. *)
Definition without_content_hash (portable_data : gmap string json) : Prop :=
  truthy (content_hash_of portable_data) = false.

(** The envelope an import stores for a hardware-bound one. *)
Definition unbound (encryption : gmap string json) : gmap string json :=
  <["hardware_bound" := JBool false]> (delete "hardware_id_hash" encryption).

(** A password the authenticated decryption rejects. *)
Definition wrong_password (encryption : json) (password : string) : Prop :=
  ∃ msg, EncryptionManager.decrypt_file_content encryption password
         = Raise (ValueError msg).

(** The caller's [security_settings] carry the policy [p]: an entry that
    is absent or [None] leaves the constraint unset. *)
Definition settings_describe (settings : gmap string json)
    (p : SecurityPolicy) : Prop :=
  is_optional is_time (expiration_time p)
    (FileManager.dict_get settings "expiration_time" JNull) ∧
  is_optional is_int (max_access_count p)
    (FileManager.dict_get settings "max_access_count" JNull) ∧
  is_optional is_int (deadman_switch_days p)
    (FileManager.dict_get settings "deadman_switch" JNull).

(** The entry after a successful access at [now]. *)
Definition accessed (metadata : gmap string json) (now access_count : Z)
  : gmap string json :=
  <["access_count" := JInt (access_count + 1)]>
    (<["last_accessed" := JStr (isoformat now)]>
       (<["failed_password_attempts" := JInt 0]> metadata)).

(** How a call may change the blacklist directory: not at all, or by
    one record written under the safe form of its own content hash,
    which is not empty and not too long for a file name. *)
Definition grows (blacklist blacklist' : gmap string json) : Prop :=
  blacklist' = blacklist ∨
  ∃ h (entry : gmap string json),
    h ≠ "" ∧ fits h = true ∧ entry !! "content_hash" = Some (JStr h) ∧
    blacklist' = <[FileManager.safe_hash h := JObj entry]> blacklist.

(** The record a report of [_validate_bar_file] starts from. *)
Definition report_base (f : FileScanner.candidate) (data : gmap string json)
  : gmap string json := list_to_map [
  ("path", JStr (FileScanner.c_path f));
  ("filename", FileManager.dict_get data "filename" (JStr (FileScanner.c_name f)));
  ("creation_time", FileManager.dict_get data "creation_time" JNull);
  ("version", FileManager.dict_get data "version" (JStr "unknown"));
  ("has_security", JBool (bool_decide (is_Some (data !! "security"))));
  ("size", JInt (FileScanner.c_size f));
  ("last_modified", JStr (isoformat (FileScanner.c_mtime f)));
  ("content_hash", FileManager.dict_get data "content_hash" JNull)].

(** The score before it is clipped at 0. *)
Definition raw_score (data : gmap string json) : Z :=
  100 - deduction data "creation_time" - deduction data "content_hash"
      - deduction data "security"
      - (if FileScanner.is_unknown (FileManager.dict_get data "version" (JStr "unknown"))
         then 10 else 0).

(** A user document in good standing: it holds the password record
    [record], [attempts] failed logins, the status ["active"], and
    two-factor authentication is not in force. *)
Record account (user_data record : gmap string json) (attempts : Z)
  : Prop := {
  acc_password : user_data !! "password" = Some (JObj record);
  acc_attempts :
    user_data !! "failed_login_attempts" = Some (JInt attempts);
  acc_status : user_data !! "account_status" = Some (JStr "active");
  acc_two_factor :
    truthy (FileManager.dict_get user_data "two_factor_enabled" (JBool false))
    && truthy (FileManager.dict_get user_data "two_factor_secret" JNull)
    = false
}.

(** The machine [hw_id] is the one the record is bound to, if it is bound
    to one. *)
Definition own_device (record : gmap string json) (hw_id : string) : Prop :=
  truthy (FileManager.dict_get record "hardware_id_hash" JNull) &&
  EncryptionManager.str_ne (EncryptionManager.hardware_id_hash hw_id)
    (FileManager.dict_get record "hardware_id_hash" JNull) = false.

(** A user document that is locked until [locked_until]. *)
Record locked (user_data record : gmap string json) (locked_until : Z)
  : Prop := {
  lk_password : user_data !! "password" = Some (JObj record);
  lk_status : user_data !! "account_status" = Some (JStr "locked");
  lk_until :
    user_data !! "locked_until" = Some (JStr (isoformat locked_until));
  lk_two_factor :
    truthy (FileManager.dict_get user_data "two_factor_enabled" (JBool false))
    && truthy (FileManager.dict_get user_data "two_factor_secret" JNull)
    = false
}.

(** The messages of [authenticate_user]. *)
Definition incorrect_password (attempts_left : Z) : string :=
  "Incorrect password. " +:+ str_int attempts_left +:+
  " attempts remaining before account lockout.".

Definition locked_out : string :=
  "Account locked due to too many failed login attempts. Try again in 30 minutes.".

Definition still_locked (remaining_minutes : Z) : string :=
  "Account is locked. Try again in " +:+ str_int remaining_minutes +:+
  " minutes.".

(** Each of [times] comes at most [gap] after the one before it, the
    first at most [gap] after [previous]. *)
Fixpoint spaced (gap previous : Z) (times : list Z) : Prop :=
  match times with
  | [] => True
  | now :: times' => now - previous ≤ gap ∧ spaced gap now times'
  end.

(** The call creates the session [session_id]. *)
Definition creates (session_id : string) (c : SessionManager.call) : Prop :=
  match c with
  | SessionManager.CreateSession _ _ id _ => id = session_id
  | _ => False
  end.

(** A report of the scanner: an object without encryption data whose
    integrity score lies between 60 and 100. *)
Definition sound_report (report : json) : Prop :=
  ∃ (shown : gmap string json) score,
    report = JObj shown ∧ shown !! "encryption" = None ∧
    shown !! "integrity_score" = Some (JInt score) ∧ 60 ≤ score ≤ 100.

(** The books a walk over at most [n] files keeps, from the state [s] to
    the outcome [r]: the total is left alone, the reports found are
    appended and counted, no counter goes down, every file found or
    invalid was processed, at most [n] files were processed, and all [n]
    when the walk was not cut short by an exception. *)
Record accounted (n : Z) (s : Scan.scan_state)
    (r : option exn * Scan.scan_state) : Prop := {
  a_total :
    Scan.total_files (Scan.scan_progress r.2) =
    Scan.total_files (Scan.scan_progress s);
  a_files : ∃ new,
    Scan.files r.2 = (Scan.files s ++ new)%list ∧
    Scan.found_bar_files (Scan.scan_progress r.2) =
      Scan.found_bar_files (Scan.scan_progress s) + Z.of_nat (length new) ∧
    Forall sound_report new;
  a_invalid :
    Scan.invalid_bar_files (Scan.scan_progress s) ≤
    Scan.invalid_bar_files (Scan.scan_progress r.2);
  a_processed :
    (Scan.found_bar_files (Scan.scan_progress r.2) -
     Scan.found_bar_files (Scan.scan_progress s)) +
    (Scan.invalid_bar_files (Scan.scan_progress r.2) -
     Scan.invalid_bar_files (Scan.scan_progress s)) ≤
    Scan.processed_files (Scan.scan_progress r.2) -
    Scan.processed_files (Scan.scan_progress s);
  a_bound :
    Scan.processed_files (Scan.scan_progress s) ≤
    Scan.processed_files (Scan.scan_progress r.2) ≤
    Scan.processed_files (Scan.scan_progress s) + n;
  a_complete :
    r.1 = None →
    Scan.processed_files (Scan.scan_progress r.2) =
    Scan.processed_files (Scan.scan_progress s) + n
}.

(** A store in good order: the files of the metadata directory have
    stems for names, their documents keep to their own files, and the
    deletion threads that wait were started with stems. *)
Record tidy (st : FileManager.state) : Prop := {
  tidy_names :
    ∀ name, is_Some (FileManager.metadata_directory st !! name) →
            is_stem name = true;
  tidy_documents :
    ∀ name metadata,
      FileManager.metadata_directory st !! name = Some metadata →
      FileManager.safe_json metadata;
  tidy_threads :
    Forall (λ file_id, is_stem file_id = true) (FileManager.threads st)
}.

(** Every record of the blacklist directory is filed under the safe form
    of the content hash it carries, which is not empty, in a file whose
    name is not too long. *)
Definition blacklist_filed (st : FileManager.state) : Prop :=
  ∀ name record,
    FileManager.blacklist_directory st !! name = Some record →
    ∃ h (entry : gmap string json),
      record = JObj entry ∧ entry !! "content_hash" = Some (JStr h) ∧
      h ≠ "" ∧ fits name = true ∧ name = FileManager.safe_hash h.

End WithPrimitives.
End Spec.

(* ===================================================================== *)
(** * A model of the third-party routines *)
(* ===================================================================== *)

(** Simple stand-ins that meet the contracts of [PrimitivesLaws]; they
    serve to evaluate the functions above on concrete inputs. *)
Module Reference.

#[global] Instance byte_eq_dec : EqDecision Byte.byte := Byte.byte_eq_dec.

Definition pad (n : nat) (b : bytes) : bytes :=
  take n (b ++ replicate n x00)%list.

Definition seal (key nonce data : bytes) : bytes :=
  (key ++ nonce ++ data)%list.

Definition unseal (key nonce sealed : bytes) : string + bytes :=
  let n := (length key + length nonce)%nat in
  if bool_decide (take n sealed = (key ++ nonce)%list) then inr (drop n sealed)
  else inl "".

Definition parse_time (s : string) : option Z :=
  Z.of_int <$> NilZero.int_of_string s.

#[global] Instance primitives : Primitives := {|
  b64encode := String.string_of_list_byte;
  b64decode s := inr (String.list_byte_of_string s);
  PBKDF2HMAC_SHA256 n salt _ pw := pad n (pw ++ salt)%list;
  AESGCM_encrypt := seal;
  AESGCM_decrypt := unseal;
  sha256 := pad 32;
  json_dumps_sorted := type_name;
  fromisoformat := parse_time;
  isoformat := str_int
|}.

(** *** Sample data *)

Definition content : bytes := [x68; x65; x6c; x6c; x6f].

(** An envelope of [content] under the password ["pw"]. *)
Definition envelope : gmap string json :=
  match (EncryptionManager.encrypt_file_content content "pw" (λ _, x2a) 0).1
  with
  | Ok (JObj e) => e
  | _ => ∅
  end.

(** The same envelope, marked as bound on another machine. *)
Definition bound_envelope : gmap string json :=
  <["hardware_id_hash" := JStr "5f2a"]> envelope.

Definition policy : Spec.SecurityPolicy :=
  {| Spec.expiration_time := Some 5000;
     Spec.max_access_count := Some 1;
     Spec.deadman_switch_days := None |}.

Definition security : gmap string json := list_to_map [
  ("expiration_time", JStr "5000");
  ("max_access_count", JInt 1);
  ("deadman_switch", JNull);
  ("disable_export", JBool false)].

(** An entry as [create_secure_file] writes it. *)
Definition entry : gmap string json := list_to_map [
  ("file_id", JStr "7c9e");
  ("filename", JStr "notes.txt");
  ("creation_time", JStr "1000");
  ("last_accessed", JStr "1000");
  ("access_count", JInt 0);
  ("file_type", JStr "document");
  ("security", JObj security);
  ("encryption", JObj envelope)].

Definition store : FileManager.state :=
  {| FileManager.metadata_directory := {[ "7c9e" := JObj entry ]};
     FileManager.blacklist_directory := ∅;
     FileManager.threads := [] |}.

(** A portable record of [content], hardware-bound, with its hash. *)
Definition portable : gmap string json := list_to_map [
  ("bar_portable_file", JBool true);
  ("version", JStr "1.0");
  ("filename", JStr "notes.txt");
  ("creation_time", JStr "1000");
  ("file_type", JStr "document");
  ("security", JObj security);
  ("encryption", JObj bound_envelope);
  ("content_hash", JStr (FileManager._hash_content content));
  ("failed_password_attempts", JInt 0);
  ("access_count", JInt 0)].

(** The same record without its content hash. *)
Definition rewrapped : gmap string json := delete "content_hash" portable.

(** A text of 251 characters, and the record with it for a content
    hash. *)
Definition long_hash : string :=
  String.string_of_list_ascii (replicate 251 "a"%char).

Definition long_portable : gmap string json :=
  <["content_hash" := JStr long_hash]> portable.

(** A store whose blacklist holds the hash of [content]. *)
Definition store_with_blacklist : FileManager.state :=
  {| FileManager.metadata_directory := ∅;
     FileManager.blacklist_directory :=
       {[ FileManager.safe_hash (FileManager._hash_content content) :=
            JObj {[ "content_hash" :=
                      JStr (FileManager._hash_content content) ]} ]};
     FileManager.threads := [] |}.

(** A minimal portable file, as the scanner finds it. *)
Definition minimal_record : gmap string json := list_to_map [
  ("bar_portable_file", JBool true);
  ("version", JStr "1.0");
  ("filename", JStr "notes.txt");
  ("encryption", JObj envelope)].

Definition minimal_file : FileScanner.candidate :=
  {| FileScanner.c_path := "/media/usb/notes.bar";
     FileScanner.c_name := "notes.bar";
     FileScanner.c_size := 420;
     FileScanner.c_mtime := 2000;
     FileScanner.c_read := FileScanner.Parsed (JObj minimal_record) |}.

(** *** Stand-ins for the platform routines *)

Definition lower_char (c : ascii) : ascii :=
  let n := N_of_ascii c in
  if ((65 <=? n) && (n <=? 90))%N then ascii_of_N (n + 32) else c.

Fixpoint ascii_lower (s : string) : string :=
  match s with
  | EmptyString => EmptyString
  | String c s' => String (lower_char c) (ascii_lower s')
  end.

(** The text before the last [c] and the text from it on. *)
Fixpoint split_last (c : ascii) (s : string) : option (string * string) :=
  match s with
  | EmptyString => None
  | String x s' =>
      match split_last c s' with
      | Some (a, b) => Some (String x a, b)
      | None => if Ascii.eqb x c then Some (EmptyString, s) else None
      end
  end.

(** The dots a text starts with, and what follows them. *)
Fixpoint leading_dots (s : string) : string * string :=
  match s with
  | String "." s' => let '(dots, rest) := leading_dots s' in (String "." dots, rest)
  | _ => (EmptyString, s)
  end.

(** [os.path.splitext] of [posixpath]: the extension starts at the last
    dot of the last component of the path, the dots the component starts
    with not counted. *)
Definition split_extension (s : string) : string * string :=
  let '(directory, base) :=
    match split_last "/" s with
    | Some (a, String _ b) => (a +:+ "/", b)
    | _ => (EmptyString, s)
    end in
  let '(dots, rest) := leading_dots base in
  match split_last "." rest with
  | Some (a, ext) => (directory +:+ dots +:+ a, ext)
  | None => (s, "")
  end.

#[global] Instance os_routines : OsRoutines := {|
  str_lower := ascii_lower;
  splitext := split_extension;
  dict_str := λ _, "{}"
|}.

(** [s] without the text [p] at its start. *)
Fixpoint strip_prefix (p s : string) : option string :=
  match p, s with
  | EmptyString, _ => Some s
  | String a p', String b s' =>
      if Ascii.eqb a b then strip_prefix p' s' else None
  | String _ _, EmptyString => None
  end.

(** [s] without the text [suffix] at its end. *)
Definition strip_suffix (suffix s : string) : option string :=
  let n := String.length s in
  let m := String.length suffix in
  if (m <=? n)%nat && String.eqb (String.substring (n - m) m s) suffix
  then Some (String.substring 0 (n - m) s)
  else None.

(** The stem of a path that reads [<directory><stem>.json]. *)
Definition file_of (directory path : string) : option string :=
  match strip_prefix directory path with
  | Some name =>
      match strip_suffix ".json" name with
      | Some stem => if is_stem stem then Some stem else None
      | None => None
      end
  | None => None
  end.

(** A file system on which the vault lies in [/vault] and paths are
    given in full. *)
Definition file_system : FileSystem := {|
  locate path :=
    match file_of "/vault/metadata/" path with
    | Some stem => MetadataFile stem
    | None =>
        match file_of "/vault/blacklist/" path with
        | Some stem => BlacklistFile stem
        | None => Elsewhere
        end
    end
|}.

(** A caller's settings: one access allowed, expiry at 5000. *)
Definition settings : gmap string json := list_to_map [
  ("expiration_time", JStr "5000");
  ("max_access_count", JInt 3)].

Definition policy3 : Spec.SecurityPolicy :=
  {| Spec.expiration_time := Some 5000;
     Spec.max_access_count := Some 3;
     Spec.deadman_switch_days := None |}.

Definition empty_store : FileManager.state :=
  {| FileManager.metadata_directory := ∅;
     FileManager.blacklist_directory := ∅;
     FileManager.threads := [] |}.

(** A JPEG header followed by data. *)
Definition jpeg : bytes := [xff; xd8; xff; xe0; x00; x10; x4a; x46].

(** The store after [content] was filed under [settings] at 1000. *)
Definition created_store : FileManager.state :=
  FileManager.store_after
    (FileManager.create_secure_file empty_store content "notes.txt" "pw"
       settings "7c9e" (λ _, x2a) 1000).

Definition created_entry : gmap string json :=
  match FileManager.metadata_directory created_store !! "7c9e" with
  | Some (JObj o) => o
  | _ => ∅
  end.

Definition created_envelope : json :=
  FileManager.dict_get created_entry "encryption" JNull.

(** The store after [portable] was imported at 1500. *)
Definition imported_store : FileManager.state :=
  (FileManager.import_portable_file empty_store (JObj portable) "pw" "a1b2"
     1500).2.

Definition imported_entry : gmap string json :=
  match FileManager.metadata_directory imported_store !! "a1b2" with
  | Some (JObj o) => o
  | _ => ∅
  end.

(** The imported entry again, as a document that names the blacklist
    record of its own content hash as [file_path]. *)
Definition pointing_entry : gmap string json :=
  <["file_path" :=
      JStr ("/vault/blacklist/" +:+
            FileManager.safe_hash (FileManager._hash_content content) +:+
            ".json")]> imported_entry.

(** New settings: one key the policy has, one it does not have. *)
Definition new_settings : gmap string json :=
  {[ "max_access_count" := JInt 5; "colour" := JStr "red" ]}.

(** What [list_files] shows of [store]. *)
Definition listed : list json :=
  match FileManager.list_files store ["7c9e"] with
  | Ok files => files
  | Raise _ => []
  end.

Definition listed_item : json :=
  match listed with
  | item :: _ => item
  | [] => JNull
  end.

(** The portable record as a file found on a removable volume. *)
Definition found_file : FileScanner.candidate :=
  {| FileScanner.c_path := "/media/usb/shared.bar";
     FileScanner.c_name := "shared.bar";
     FileScanner.c_size := 900;
     FileScanner.c_mtime := 2000;
     FileScanner.c_read := FileScanner.Parsed (JObj portable) |}.

(** The report of the scanner on [minimal_file]. *)
Definition minimal_report : json :=
  match (FileScanner._validate_bar_file 0 minimal_file 3000).1 with
  | Ok (Some report) => report
  | _ => JNull
  end.

(** A file system with one file the process may write. *)
Definition scratch : SecureDelete.filesystem :=
  {[ "/tmp/notes.json" := SecureDelete.File content true ]}.

(** A session of ["alice"], opened at 1000 under the default timeout. *)
Definition session1 : SessionManager.session :=
  {| SessionManager.username := "alice";
     SessionManager.created_at := 1000;
     SessionManager.last_activity := 1000;
     SessionManager.is_locked := false;
     SessionManager.data := JObj ∅ |}.

Definition sessions1 : SessionManager.state :=
  (SessionManager.create_session
     (SessionManager.__init__ SessionManager.DEFAULT_TIMEOUT)
     "alice" None "s1" 1000).2.

(** A user manager with no user, and the one after ["alice"] registered,
    bound to the machine ["host-a"]. *)
Definition no_users : UserManager.state :=
  {| UserManager.users_directory := ∅;
     UserManager.session_manager :=
       SessionManager.__init__ SessionManager.DEFAULT_TIMEOUT;
     UserManager.audit_log := [] |}.

Definition registered : UserManager.state :=
  (UserManager.register_user no_users "alice" "Abcdef1!" None None true
     "host-a" (λ _, x2a) 1000).1.2.

Definition alice : gmap string json :=
  match UserManager.users_directory registered !! "alice" with
  | Some (JObj o) => o
  | _ => ∅
  end.

Definition alice_record : gmap string json :=
  match alice !! "password" with
  | Some (JObj o) => o
  | _ => ∅
  end.

End Reference.

(* ===================================================================== *)
(** * Theorems *)
(* ===================================================================== *)

(** ** The model of the third-party routines meets the contracts *)

Lemma pad_length n b : length (Reference.pad n b) = n.
Proof.
  unfold Reference.pad.
  rewrite length_take, length_app, length_replicate. lia.
Qed.

Lemma unseal_seal key nonce data :
  Reference.unseal key nonce (Reference.seal key nonce data) = inr data.
Proof.
  unfold Reference.unseal, Reference.seal.
  rewrite (app_assoc key nonce data), <- length_app.
  rewrite take_app_length, drop_app_length.
  by rewrite bool_decide_eq_true_2.
Qed.

Lemma parse_time_str_int t : Reference.parse_time (str_int t) = Some t.
Proof.
  unfold Reference.parse_time, str_int.
  rewrite NilZero.isi.
  - simpl. by rewrite DecimalZ.of_to.
  - destruct t; simpl; try discriminate.
    intros [= E]. by apply DecimalPos.Unsigned.to_uint_nonnil in E.
  - destruct t; simpl; try discriminate.
    intros [= E]. by apply DecimalPos.Unsigned.to_uint_nonnil in E.
Qed.

#[global] Instance reference_laws : PrimitivesLaws.
Proof.
  split.
  - intros b. simpl. by rewrite String.list_byte_of_string_of_list_byte.
  - intros. apply pad_length.
  - intros. apply unseal_seal.
  - intros. apply pad_length.
  - apply parse_time_str_int.
  - reflexivity.
Qed.

(** ** Python values *)

(** Runs the sequencing of [result] as far as the values are known. *)
Ltac py_run := unfold mret, result_ret; cbn [mbind result_bind].

Lemma contains_obj (o : gmap string json) k :
  contains (JObj o) k = Ok (bool_decide (is_Some (o !! k))).
Proof. reflexivity. Qed.

Lemma getitem_obj (o : gmap string json) k v :
  o !! k = Some v → getitem (JObj o) k = Ok v.
Proof. intros E. simpl. by rewrite E. Qed.

Lemma get_obj_some (o : gmap string json) k d v :
  o !! k = Some v → get (JObj o) k d = Ok v.
Proof. intros E. simpl. by rewrite E. Qed.

Lemma get_obj_none (o : gmap string json) k d :
  o !! k = None → get (JObj o) k d = Ok d.
Proof. intros E. simpl. by rewrite E. Qed.

Lemma os_urandom_length n e : length (os_urandom n e).1 = n.
Proof. simpl. by rewrite length_map, length_seq. Qed.

(** ** Encryption *)

Section EncryptionTheorems.
Context `{PrimitivesLaws}.
Import EncryptionManager.

Lemma derive_key_length password salt :
  length (derive_key password salt) = KEY_SIZE.
Proof. apply PBKDF2HMAC_length. Qed.

Lemma AESGCM_derived password salt :
  AESGCM (derive_key password salt) = Ok (derive_key password salt).
Proof.
  unfold AESGCM. rewrite derive_key_length.
  by rewrite bool_decide_eq_true_2 by (unfold KEY_SIZE; set_solver).
Qed.

Lemma b64decode_value_b64encode b :
  b64decode_value (JStr (b64encode b)) = Ok b.
Proof. simpl. by rewrite b64decode_b64encode. Qed.

(** C1.  Sealing a byte string with [encrypt_file_content] and unsealing
    the envelope with [decrypt_file_content] and the same password gives
    the byte string back, whatever its length, the password, the random
    salt and nonce drawn and the time of the call. *)
Theorem encrypt_then_decrypt (content : bytes) (password : string)
    (e : entropy) (now : Z) :
  ∃ envelope e',
    encrypt_file_content content password e now = (Ok envelope, e') ∧
    decrypt_file_content envelope password = Ok content.
Proof.
  unfold encrypt_file_content, encrypt_data, generate_salt, generate_nonce.
  destruct (os_urandom SALT_SIZE e) as [salt e1] eqn:Es.
  destruct (os_urandom NONCE_SIZE e1) as [nonce e2] eqn:En.
  rewrite AESGCM_derived. simpl.
  eexists _, _. split; [reflexivity|].
  unfold decrypt_file_content.
  rewrite (getitem_obj _ "ciphertext" (JStr (b64encode
    (AESGCM_encrypt (derive_key password salt) nonce content)))) by done.
  rewrite (getitem_obj _ "nonce" (JStr (b64encode nonce))) by done.
  rewrite (getitem_obj _ "salt" (JStr (b64encode salt))) by done.
  py_run. rewrite !b64decode_value_b64encode. py_run.
  unfold decrypt_data. cbn [ed_ciphertext ed_nonce].
  rewrite AESGCM_derived. py_run.
  rewrite AESGCM_decrypt_encrypt; [done|apply derive_key_length|].
  replace nonce with (os_urandom NONCE_SIZE e1).1 by by rewrite En.
  apply os_urandom_length.
Qed.

End EncryptionTheorems.

Lemma encrypt_then_decrypt_witness :
  ∃ envelope e',
    EncryptionManager.encrypt_file_content [x68; x69] "pw" (λ _, x2a) 0
      = (Ok envelope, e') ∧
    EncryptionManager.decrypt_file_content envelope "pw" = Ok [x68; x69].
Proof.
  exact (@encrypt_then_decrypt Reference.primitives reference_laws
           [x68; x69] "pw" (λ _, x2a) 0).
Defined.

Section EnvelopeTheorems.
Context `{Primitives} `{FileSystem}.
Import EncryptionManager FileManager.

Lemma decrypt_file_content_obj (o : gmap string json) password :
  decrypt_file_content (JObj o) password =
    c ← getitem (JObj o) "ciphertext";
    ciphertext ← b64decode_value c;
    n ← getitem (JObj o) "nonce";
    nonce ← b64decode_value n;
    s ← getitem (JObj o) "salt";
    salt ← b64decode_value s;
    decrypt_data {| ed_ciphertext := ciphertext; ed_nonce := nonce |}
      (derive_key password salt).
Proof. reflexivity. Qed.

Lemma decrypt_agree (o1 o2 : gmap string json) password :
  o1 !! "ciphertext" = o2 !! "ciphertext" →
  o1 !! "nonce" = o2 !! "nonce" →
  o1 !! "salt" = o2 !! "salt" →
  decrypt_file_content (JObj o1) password =
  decrypt_file_content (JObj o2) password.
Proof.
  intros Ec En Es. rewrite !decrypt_file_content_obj.
  unfold getitem. by rewrite Ec, En, Es.
Qed.

Lemma strip_hardware_binding_obj (o : gmap string json) :
  strip_hardware_binding (JObj o) =
    Ok (JObj (<["hardware_bound" := JBool false]>
                (delete "hardware_id_hash" o))).
Proof. reflexivity. Qed.

Lemma decrypt_stripped (o : gmap string json) password :
  decrypt_file_content
    (JObj (<["hardware_bound" := JBool false]> (delete "hardware_id_hash" o)))
    password
  = decrypt_file_content (JObj o) password.
Proof.
  apply decrypt_agree;
    by rewrite lookup_insert_ne, lookup_delete_ne by done.
Qed.

(** C10.  [decrypt_file_content] reads the envelope only through its
    [ciphertext], [nonce] and [salt] entries: two envelopes that agree
    on them give the same result with the same password, be it the
    plaintext or the exception.  In particular the copy that
    [import_portable_file] makes of a hardware-bound envelope (without
    [hardware_id_hash], with [hardware_bound] false) decrypts exactly as
    the envelope itself, so the two attempts of the import are the same
    computation. *)
Theorem decrypt_reads_three_fields (password : string) :
  (∀ o1 o2 : gmap string json,
     o1 !! "ciphertext" = o2 !! "ciphertext" →
     o1 !! "nonce" = o2 !! "nonce" →
     o1 !! "salt" = o2 !! "salt" →
     decrypt_file_content (JObj o1) password =
     decrypt_file_content (JObj o2) password) ∧
  (∀ (o : gmap string json) (h : json),
     decrypt_file_content (JObj (<["hardware_id_hash" := h]> o)) password =
     decrypt_file_content (JObj (delete "hardware_id_hash" o)) password) ∧
  (∀ (o : gmap string json) copy,
     strip_hardware_binding (JObj o) = Ok copy →
     decrypt_file_content copy password =
     decrypt_file_content (JObj o) password).
Proof.
  split; [|split].
  - intros. by apply decrypt_agree.
  - intros. apply decrypt_agree;
      by rewrite lookup_insert_ne, lookup_delete_ne by done.
  - intros o copy [= <-]. apply decrypt_stripped.
Qed.

End EnvelopeTheorems.

(** ** Secure deletion *)

Section SecureDeleteTheorems.
Import SecureDelete.

Lemma secure_delete_file_writable (fs : filesystem) path data passes e :
  fs !! path = Some (File data true) →
  returned (secure_delete_file fs path passes e) = true ∧
  fs_after (secure_delete_file fs path passes e) !! path = None.
Proof.
  intros E. unfold secure_delete_file. rewrite E.
  destruct (overwrite_passes _ _ _ _) as [trace e'].
  split; [done|]. simpl. apply lookup_delete_eq.
Qed.

Lemma secure_delete_file_read_only (fs : filesystem) path data passes e :
  fs !! path = Some (File data false) →
  returned (secure_delete_file fs path passes e) = false ∧
  fs_after (secure_delete_file fs path passes e) = fs.
Proof. intros E. unfold secure_delete_file. by rewrite E. Qed.

Lemma write_chunks_length pat fuel file_size bytes_written written :
  length pat = 4096%nat →
  length written = bytes_written →
  (bytes_written ≤ file_size)%nat →
  (file_size - bytes_written ≤ fuel)%nat →
  length (write_chunks fuel pat file_size bytes_written written) = file_size.
Proof.
  intros Lp. revert bytes_written written.
  induction fuel as [|fuel IH]; intros bytes_written written Lw Le Lf.
  - simpl. lia.
  - cbn [write_chunks]. destruct (Nat.ltb_spec bytes_written file_size).
    + apply IH.
      * rewrite length_app, length_take, Lp, Lw. lia.
      * lia.
      * lia.
    + lia.
Qed.

Lemma write_chunks_replicate b fuel file_size bytes_written :
  (bytes_written ≤ file_size)%nat →
  (file_size - bytes_written ≤ fuel)%nat →
  write_chunks fuel (replicate 4096 b) file_size bytes_written
    (replicate bytes_written b)
  = replicate file_size b.
Proof.
  revert bytes_written.
  induction fuel as [|fuel IH]; intros bytes_written Le Lf.
  - simpl. f_equal. lia.
  - cbn [write_chunks]. destruct (Nat.ltb_spec bytes_written file_size).
    + rewrite take_replicate, <- replicate_add.
      replace (Nat.min (Nat.min 4096 (file_size - bytes_written)) 4096)
        with (Nat.min 4096 (file_size - bytes_written)) by lia.
      apply IH; lia.
    + f_equal. lia.
Qed.

(** The three default passes leave the file all zeros, then all ones, then
    filled with as many random bytes; the file is then truncated and
    removed. *)
Lemma secure_delete_file_passes (fs : filesystem) path data e :
  fs !! path = Some (File data true) →
  ∃ random,
    on_disk (secure_delete_file fs path DEFAULT_PASSES e) =
      [replicate (length data) x00; replicate (length data) xff; random; []] ∧
    length random = length data.
Proof.
  intros E. unfold secure_delete_file. rewrite E.
  change (Z.to_nat DEFAULT_PASSES) with 3%nat.
  cbn [overwrite_passes pattern].
  destruct (os_urandom 4096 e) as [pat e'] eqn:Er.
  cbn [on_disk].
  rewrite !(write_chunks_replicate _ _ _ 0) by lia.
  eexists. split; [reflexivity|].
  apply write_chunks_length; [|done|lia|lia].
  replace pat with (os_urandom 4096 e).1 by by rewrite Er.
  apply os_urandom_length.
Qed.

(** The caller in [FileManager] does not remove such a file either. *)
Lemma shred_metadata_file_read_only (fs : filesystem) path data e :
  fs !! path = Some (File data false) →
  FileManager.shred_metadata_file fs path e !! path = Some (File data false).
Proof.
  intros E. unfold FileManager.shred_metadata_file.
  by destruct (secure_delete_file_read_only fs path data DEFAULT_PASSES e E)
    as [_ ->].
Qed.

(** C7, evaluated where it fails.  A regular file that exists but cannot
    be opened for writing: [secure_delete_file] returns [False] and the
    file is still there; no unlink was attempted. *)
Theorem secure_delete_file_leaves_read_only_file (e : entropy) :
  let path := "/vault/metadata/entry.json" in
  let fs : filesystem := {[ path := File [x7b; x7d] false ]} in
  returned (secure_delete_file fs path DEFAULT_PASSES e) = false ∧
  fs_after (secure_delete_file fs path DEFAULT_PASSES e) !! path
    = Some (File [x7b; x7d] false).
Proof.
  intros path fs.
  destruct (secure_delete_file_read_only fs path [x7b; x7d] DEFAULT_PASSES e)
    as [-> ->]; [apply lookup_singleton_eq|].
  split; [done|apply lookup_singleton_eq].
Qed.

End SecureDeleteTheorems.

(** ** The scanner *)

Section ScannerTheorems.
Context `{Primitives}.
Import FileScanner Spec.

Lemma deduct_missing_obj (data : gmap string json) fields score :
  deduct_missing (JObj data) fields score =
    Ok (foldl (λ s field, s - deduction data field) score fields).
Proof.
  revert score. induction fields as [|field fields IH]; intros score.
  - reflexivity.
  - cbn [deduct_missing foldl]. rewrite contains_obj. py_run.
    rewrite IH. unfold deduction.
    destruct (data !! field); simpl; do 2 f_equal; lia.
Qed.

Lemma expiration_report_ok (security : gmap string json) now metadata :
  ∃ metadata', expiration_report (JObj security) now metadata = Ok metadata'.
Proof.
  unfold expiration_report. cbn [get]. py_run.
  destruct (security !! "expiration_time") as [[| | |s|]|]; simpl; eauto.
  destruct (fromisoformat s); eauto.
Qed.

Lemma security_report_ok (data : gmap string json) now metadata :
  (data !! "security" = None ∨ ∃ sec, data !! "security" = Some (JObj sec)) →
  ∃ metadata', security_report (JObj data) now metadata = Ok metadata'.
Proof.
  intros [E|[sec E]]; unfold security_report; rewrite contains_obj, E.
  - rewrite bool_decide_eq_false_2 by by intros [? ?]. py_run. eauto.
  - rewrite bool_decide_eq_true_2 by eauto. py_run.
    rewrite (getitem_obj _ _ _ E). py_run. cbn [get]. py_run.
    apply expiration_report_ok.
Qed.

Lemma match_version_not_unknown v :
  match_version v = true → String.eqb v "unknown" = false.
Proof.
  intros E. destruct (String.eqb_spec v "unknown") as [->|]; [|done].
  discriminate.
Qed.

Lemma validate_score invalid f now (data : gmap string json) :
  validates f data →
  ∃ metadata,
    _validate_bar_file invalid f now = (Ok (Some (JObj metadata)), invalid) ∧
    metadata !! "integrity_score" =
      Some (JInt (100 - deduction data "creation_time"
                      - deduction data "content_hash"
                      - deduction data "security"
                      - deduction data "version")).
Proof.
  intros [Hp Hs (marker & Hm & Ht) Hv [fn Hf] [en He] Hsec].
  unfold _validate_bar_file. rewrite Hp.
  rewrite (proj2 (Z.ltb_ge _ _)) by done.
  rewrite (get_obj_some _ _ _ _ Hm), Ht. cbn [negb].
  assert (∃ version, get (JObj data) "version" (JStr "unknown") = Ok version ∧
            (if is_unknown version then Ok true
             else match version with
                  | JStr v => Ok (match_version v)
                  | _ => Raise (TypeError "expected string or bytes-like object")
                  end) = Ok true ∧
            (if is_unknown version then 10 else 0) = deduction data "version")
    as (version & -> & -> & Hd).
  { unfold deduction. destruct Hv as [E|(v & E & M)]; rewrite E.
    - eexists. split; [by apply get_obj_none|done].
    - eexists. split; [by apply get_obj_some|].
      cbn [is_unknown]. rewrite (match_version_not_unknown _ M).
      by rewrite M. }
  rewrite !contains_obj, Hf, He.
  rewrite !bool_decide_eq_true_2 by eauto. py_run. cbn [andb].
  cbn [get]. py_run.
  destruct (security_report_ok data now
    (list_to_map
       [("path", JStr (c_path f));
        ("filename", match data !! "filename" with
                     | Some x => x | None => JStr (c_name f) end);
        ("creation_time", match data !! "creation_time" with
                          | Some x => x | None => JNull end);
        ("version", version);
        ("has_security", JBool (bool_decide (is_Some (data !! "security"))));
        ("size", JInt (c_size f));
        ("last_modified", JStr (isoformat (c_mtime f)));
        ("content_hash", match data !! "content_hash" with
                         | Some x => x | None => JNull end)]) Hsec)
    as [metadata' ->].
  py_run. rewrite deduct_missing_obj. py_run. cbn [foldl].
  eexists. split; [reflexivity|].
  rewrite lookup_insert_eq. do 2 f_equal.
  rewrite <- Hd. unfold deduction.
  destruct (data !! "creation_time"), (data !! "content_hash"),
    (data !! "security"), (is_unknown version); lia.
Qed.

(** C8.  A parsed record that validates (size, signature marker,
    required fields, version of the right shape when there is one) gets
    the integrity score 100, less 10 for each of [creation_time],
    [content_hash] and [security] that is absent, less 10 when the
    version is absent.  A record with a version and none of the three
    optional fields scores 70; a record with a version and all three
    scores 100. *)
Theorem integrity_score_of_valid_record invalid f now
    (data : gmap string json) :
  validates f data →
  ∃ metadata,
    _validate_bar_file invalid f now = (Ok (Some (JObj metadata)), invalid) ∧
    metadata !! "integrity_score" =
      Some (JInt (100 - deduction data "creation_time"
                      - deduction data "content_hash"
                      - deduction data "security"
                      - deduction data "version")) ∧
    (is_Some (data !! "version") →
     data !! "creation_time" = None →
     data !! "content_hash" = None →
     data !! "security" = None →
     metadata !! "integrity_score" = Some (JInt 70)) ∧
    (is_Some (data !! "version") →
     is_Some (data !! "creation_time") →
     is_Some (data !! "content_hash") →
     is_Some (data !! "security") →
     metadata !! "integrity_score" = Some (JInt 100)).
Proof.
  intros V. destruct (validate_score invalid f now data V)
    as (metadata & E & S).
  exists metadata. split; [done|]. split; [done|].
  rewrite S. unfold deduction. split.
  - intros [? ->] -> -> ->. done.
  - intros [? ->] [? ->] [? ->] [? ->]. done.
Qed.

End ScannerTheorems.

(** ** Constraint evaluation *)

Section ConstraintTheorems.
Context `{PrimitivesLaws} `{FileSystem}.
Import FileManager Spec.

Lemma is_time_truthy t v : is_time t v → truthy v = true.
Proof.
  intros (s & -> & E). simpl.
  destruct (String.eqb_spec s "") as [->|]; [|done].
  by rewrite fromisoformat_empty in E.
Qed.

Lemma is_time_value t v : is_time t v → fromisoformat_value v = Ok t.
Proof. intros (s & -> & E). simpl. by rewrite E. Qed.

Lemma check_security_constraints_describes
    (metadata : gmap string json) p last_accessed access_count now :
  describes metadata p last_accessed access_count →
  limits_nonzero p →
  _check_security_constraints (JObj metadata) now =
    Ok (negb (must_destroy p now last_accessed access_count)).
Proof.
  intros [[fid Hfid] (sec & ve & vm & vd & Hsec & Hve & He & Hvm & Hm & Hvd & Hd)
            (vl & Hvl & Hl) Hc] [Nm Nd].
  unfold _check_security_constraints, must_destroy,
    expired, exhausted, deadman_triggered.
  rewrite (getitem_obj _ _ _ Hsec). py_run.
  rewrite (getitem_obj _ _ _ Hve). py_run.
  rewrite (getitem_obj _ _ _ Hfid). py_run.
  rewrite (getitem_obj _ _ _ Hvm). py_run.
  rewrite (getitem_obj _ _ _ Hvd). py_run.
  rewrite (getitem_obj _ _ _ Hc). py_run.
  rewrite (getitem_obj _ _ _ Hvl). py_run.
  rewrite (is_time_value _ _ Hl). py_run.
  assert ((if truthy ve
           then fromisoformat_value ve ≫= λ t, Ok (t <? now)
           else Ok false) =
          Ok match expiration_time p with
             | Some t => t <? now | None => false end) as ->.
  { destruct (expiration_time p) as [t|]; simpl in He.
    - by rewrite (is_time_truthy _ _ He), (is_time_value _ _ He).
    - by subst ve. }
  py_run.
  destruct (match expiration_time p with
            | Some t => t <? now | None => false end); [done|].
  assert ((if truthy vm then ge (JInt access_count) vm else Ok false) =
          Ok match max_access_count p with
             | Some m => m <=? access_count | None => false end) as ->.
  { destruct (max_access_count p) as [m|]; simpl in Hm.
    - unfold is_int in Hm. subst vm. simpl.
      destruct (Z.eqb_spec m 0) as [->|]; [done|]. done.
    - by subst vm. }
  py_run.
  destruct (match max_access_count p with
            | Some m => m <=? access_count | None => false end); [done|].
  assert ((if truthy vd
           then gt (JInt ((now - last_accessed) / DAY)) vd else Ok false) =
          Ok match deadman_switch_days p with
             | Some d => d <? (now - last_accessed) / DAY
             | None => false end) as ->.
  { destruct (deadman_switch_days p) as [d|]; simpl in Hd.
    - unfold is_int in Hd. subst vd. simpl.
      destruct (Z.eqb_spec d 0) as [->|]; [done|]. done.
    - by subst vd. }
  py_run.
  by destruct (match deadman_switch_days p with
               | Some d => d <? (now - last_accessed) / DAY
               | None => false end).
Qed.

(** C5.  On a stored entry, whose limits are not zero when they are set,
    [_check_security_constraints] is determined by the policy, the
    current time, [last_accessed] and [access_count]: it answers
    [False] (the entry is to be destroyed) exactly when the expiration
    time is set and lies before now, or the access limit is set and
    reached, or the dead-man period is set and the whole days elapsed
    since the last access exceed it; otherwise it answers [True]. *)
Theorem constraint_evaluation
    (metadata : gmap string json) p last_accessed access_count now :
  describes metadata p last_accessed access_count →
  limits_nonzero p →
  _check_security_constraints (JObj metadata) now =
    Ok (negb (must_destroy p now last_accessed access_count)) ∧
  (must_destroy p now last_accessed access_count = true ↔
     (∃ t, expiration_time p = Some t ∧ now > t) ∨
     (∃ m, max_access_count p = Some m ∧ access_count >= m) ∨
     (∃ d, deadman_switch_days p = Some d ∧
           (now - last_accessed) / DAY > d)).
Proof.
  intros D N. split; [by apply check_security_constraints_describes|].
  unfold must_destroy, expired, exhausted, deadman_triggered.
  rewrite !orb_true_iff.
  destruct (expiration_time p) as [t|], (max_access_count p) as [m|],
    (deadman_switch_days p) as [d|];
    rewrite ?Z.ltb_lt, ?Z.leb_le; split;
    try (intros [[?|?]|?]); try (intros [(? & [= <-] & ?)|[(? & [= <-] & ?)|(? & [= <-] & ?)]]);
    try discriminate; eauto 6 with lia.
Qed.

End ConstraintTheorems.

(** ** Access, failed attempts and destruction *)

Section AccessTheorems.
Context `{PrimitivesLaws} `{FileSystem}.
Import EncryptionManager FileManager Spec.

(** [_check_security_constraints] reads four entries of the document. *)
Lemma check_security_constraints_agree (o1 o2 : gmap string json) now :
  o1 !! "security" = o2 !! "security" →
  o1 !! "file_id" = o2 !! "file_id" →
  o1 !! "access_count" = o2 !! "access_count" →
  o1 !! "last_accessed" = o2 !! "last_accessed" →
  _check_security_constraints (JObj o1) now =
  _check_security_constraints (JObj o2) now.
Proof.
  intros Es Ef Ec El. unfold _check_security_constraints.
  cbn [getitem]. by rewrite Es, Ef, Ec, El.
Qed.

Lemma check_security_constraints_failed (o : gmap string json) v now :
  _check_security_constraints
    (JObj (<["failed_password_attempts" := v]> o)) now =
  _check_security_constraints (JObj o) now.
Proof.
  apply check_security_constraints_agree; by rewrite lookup_insert_ne.
Qed.

Lemma hex_nonempty b : b ≠ [] → hex b ≠ "".
Proof. by destruct b. Qed.

Lemma sha256_hexdigest_nonempty s : sha256_hexdigest s ≠ "".
Proof.
  unfold sha256_hexdigest. apply hex_nonempty.
  intros E. pose proof (sha256_length (encode_utf8 s)) as L.
  by rewrite E in L.
Qed.

Lemma encryption_hash_nonempty v : encryption_hash v ≠ "".
Proof. destruct v; apply sha256_hexdigest_nonempty. Qed.

Lemma truthy_str s : s ≠ "" → truthy (JStr s) = true.
Proof. intros N. simpl. by destruct (String.eqb_spec s ""). Qed.

Lemma safe_hash_length h : String.length (safe_hash h) = String.length h.
Proof. induction h as [|c h IH]; [done|]. cbn. by rewrite IH. Qed.

Lemma fits_safe_hash h : fits (safe_hash h) = fits h.
Proof. unfold fits. by rewrite safe_hash_length. Qed.

(** [_add_to_blacklist] writes a record when its file name fits. *)
Lemma add_to_blacklist_typed st (o : gmap string json) now h :
  blacklist_hash (JObj o) = Ok (JStr h) → h ≠ "" → fits h = true →
  ∃ entry,
    _add_to_blacklist st (JObj o) now =
      (true, write_blacklist st (safe_hash h) (JObj entry)) ∧
    entry !! "content_hash" = Some (JStr h).
Proof.
  intros E N F. unfold _add_to_blacklist. rewrite E. py_run.
  rewrite (truthy_str _ N). cbn [negb get safe_hash_value]. py_run.
  rewrite fits_safe_hash, F.
  eexists. split; [reflexivity|]. done.
Qed.

(** [_add_to_blacklist] writes no record when its file name does not fit. *)
Lemma add_to_blacklist_long st (o : gmap string json) now h :
  blacklist_hash (JObj o) = Ok (JStr h) → fits h = false →
  _add_to_blacklist st (JObj o) now = (false, st).
Proof.
  intros E F. unfold _add_to_blacklist. rewrite E. py_run.
  destruct (truthy (JStr h)); cbn [negb get safe_hash_value]; py_run;
    [|done].
  by rewrite fits_safe_hash, F.
Qed.

Lemma shred_file_path_elsewhere st (o : gmap string json) :
  file_path_elsewhere o → shred_file_path st (JObj o) = st.
Proof.
  intros E. unfold shred_file_path.
  destruct (o !! "file_path") as [[| | |file_path|]|] eqn:Ep; try done.
  by rewrite (E file_path Ep).
Qed.

Lemma secure_delete_file_obj st file_id (o : gmap string json) now :
  file_id ≠ "" →
  metadata_directory st !! file_id = Some (JObj o) →
  file_path_elsewhere o →
  _secure_delete_file st file_id now =
    (true, remove_metadata (_add_to_blacklist st (JObj o) now).2 file_id).
Proof.
  intros N E P. unfold _secure_delete_file.
  destruct (String.eqb_spec file_id "") as [->|_]; [done|].
  rewrite E. cbn [get]. by rewrite shred_file_path_elsewhere.
Qed.

(** Whatever the document holds, its own file is gone afterwards. *)
Lemma secure_delete_file_gone st file_id now :
  file_id ≠ "" →
  metadata_directory (_secure_delete_file st file_id now).2 !! file_id = None.
Proof.
  intros N. unfold _secure_delete_file.
  destruct (String.eqb_spec file_id "") as [->|_]; [done|].
  destruct (metadata_directory st !! file_id) eqn:E; [|done].
  apply lookup_delete_eq.
Qed.

Lemma add_to_blacklist_metadata st metadata now :
  metadata_directory (_add_to_blacklist st metadata now).2 =
  metadata_directory st.
Proof.
  unfold _add_to_blacklist.
  destruct (_ ≫= _) as [[[name ?]|]|]; try done.
  by destruct (fits name).
Qed.

Lemma add_to_blacklist_threads st metadata now :
  threads (_add_to_blacklist st metadata now).2 = threads st.
Proof.
  unfold _add_to_blacklist.
  destruct (_ ≫= _) as [[[name ?]|]|]; try done.
  by destruct (fits name).
Qed.

Lemma shred_file_path_lookup st metadata k :
  metadata_directory (shred_file_path st metadata) !! k = None ∨
  metadata_directory (shred_file_path st metadata) !! k =
    metadata_directory st !! k.
Proof.
  unfold shred_file_path.
  destruct metadata as [| | | |o]; try by right.
  destruct (o !! "file_path") as [[| | |file_path|]|]; try by right.
  destruct (locate file_path) as [stem|stem|]; try by right.
  cbn. destruct (decide (stem = k)) as [->|N].
  - left. apply lookup_delete_eq.
  - right. by apply lookup_delete_ne.
Qed.

Lemma shred_file_path_threads st metadata :
  threads (shred_file_path st metadata) = threads st.
Proof.
  unfold shred_file_path.
  destruct metadata as [| | | |o]; try done.
  destruct (o !! "file_path") as [[| | |file_path|]|]; try done.
  by destruct (locate file_path).
Qed.

(** One call of [access_file] with a password that does not decrypt,
    on an entry that has [n] failed attempts on record. *)
Lemma access_file_wrong_password st file_id (o : gmap string json)
    encryption password now n :
  metadata_directory st !! file_id = Some (JObj o) →
  _check_security_constraints (JObj o) now = Ok true →
  o !! "encryption" = Some encryption →
  wrong_password encryption password →
  attempts_on_record o n →
  let o' := <["failed_password_attempts" := JInt (n + 1)]> o in
  let st' := write_metadata st file_id (JObj o') in
  access_file st file_id password now =
    if max_failed_attempts <=? n + 1 then
      (Raise (ValueError
         "File has been permanently deleted after 3 failed password attempts"),
       (_secure_delete_file st' file_id now).2)
    else
      (Raise (ValueError
         ("Incorrect password. " +:+ str_int (max_failed_attempts - (n + 1))
          +:+ " attempts remaining before permanent deletion")),
       st').
Proof.
  intros Est Ec Ee [msg Ew] Ha o' st'. unfold access_file.
  rewrite Est, Ec, contains_obj.
  assert (∃ o0 : gmap string json,
    (if bool_decide (is_Some (o !! "failed_password_attempts"))
     then Ok (JObj o)
     else setitem (JObj o) "failed_password_attempts" (JInt 0)) = Ok (JObj o0) ∧
    o0 !! "failed_password_attempts" = Some (JInt n) ∧
    o0 !! "encryption" = Some encryption ∧
    <["failed_password_attempts" := JInt (n + 1)]> o0 = o')
    as (o0 & E0 & Ef & Ee0 & Eo).
  { destruct Ha as [Ha|[Ha ->]].
    - exists o. rewrite bool_decide_eq_true_2 by (rewrite Ha; eauto). done.
    - exists (<["failed_password_attempts" := JInt 0]> o).
      rewrite bool_decide_eq_false_2 by (rewrite Ha; by intros [??]).
      split; [done|]. rewrite lookup_insert_eq, lookup_insert_ne by done.
      split; [done|]. split; [done|]. apply insert_insert_eq. }
  py_run. rewrite E0.
  rewrite (getitem_obj _ _ _ Ee0). py_run. rewrite Ew.
  unfold failed_attempt.
  rewrite (getitem_obj _ _ _ Ef). py_run. cbn [add1 as_int setitem]. py_run.
  rewrite Eo. fold o'. fold st'. done.
Qed.

Lemma wrong_password_obj encryption password :
  wrong_password encryption password →
  ∃ envelope : gmap string json, encryption = JObj envelope.
Proof.
  intros [msg E]. destruct encryption as [| | | |envelope]; try done.
  by exists envelope.
Qed.

(** What [_add_to_blacklist] files a document under, in the words of
    [filing_hash]. *)
Lemma blacklist_hash_filing (o envelope : gmap string json) :
  content_hash_typed o → o !! "encryption" = Some (JObj envelope) →
  blacklist_hash (JObj o) = Ok (JStr (filing_hash o (JObj envelope))) ∧
  filing_hash o (JObj envelope) ≠ "".
Proof.
  intros T E. unfold blacklist_hash, filing_hash. cbn [get]. py_run.
  rewrite contains_obj, E, bool_decide_eq_true_2 by eauto. py_run.
  fold (sha256_hexdigest (json_dumps_sorted (JObj envelope))).
  destruct T as [T|[T|[c T]]]; rewrite T; cbn [truthy negb andb];
    try (split; [done|apply sha256_hexdigest_nonempty]).
  destruct (String.eqb_spec c "") as [->|N]; cbn [negb andb];
    [split; [done|apply sha256_hexdigest_nonempty]|done].
Qed.

Lemma file_path_elsewhere_insert (o : gmap string json) k v :
  k ≠ "file_path" →
  file_path_elsewhere o → file_path_elsewhere (<[k := v]> o).
Proof.
  intros N P file_path. rewrite lookup_insert_ne by done. apply P.
Qed.

Lemma filing_hash_insert (o : gmap string json) k v encryption :
  k ≠ "content_hash" →
  filing_hash (<[k := v]> o) encryption = filing_hash o encryption.
Proof. intros N. unfold filing_hash. by rewrite lookup_insert_ne. Qed.

(** C2.  Three calls of [access_file] in a row, each with a password
    that does not decrypt, on an entry without failed attempts on record
    whose constraints hold at the three times: the first two fail with
    the wrong-password error (2, then 1 attempts remaining), the third
    with the permanent-deletion error, which is not a wrong-password
    error; afterwards the metadata file is gone.  For an entry whose
    document names no file of the vault as its [file_path], the
    blacklist then has one new record, which files the entry under its
    content hash (under the SHA-256 of its encryption data when it
    carries none), provided the file name made of the hash fits; with a
    hash of ASCII text too long for a file name no record is written and
    the blacklist is what it was. *)
Theorem three_wrong_passwords st file_id (o : gmap string json)
    encryption pw1 pw2 pw3 t1 t2 t3 :
  file_id ≠ "" →
  metadata_directory st !! file_id = Some (JObj o) →
  o !! "encryption" = Some encryption →
  attempts_on_record o 0 →
  content_hash_typed o →
  file_path_elsewhere o →
  _check_security_constraints (JObj o) t1 = Ok true →
  _check_security_constraints (JObj o) t2 = Ok true →
  _check_security_constraints (JObj o) t3 = Ok true →
  wrong_password encryption pw1 →
  wrong_password encryption pw2 →
  wrong_password encryption pw3 →
  let r1 := access_file st file_id pw1 t1 in
  let r2 := access_file r1.2 file_id pw2 t2 in
  let r3 := access_file r2.2 file_id pw3 t3 in
  let h := filing_hash o encryption in
  r1.1 = Raise (AuthenticationError 2) ∧
  r2.1 = Raise (AuthenticationError 1) ∧
  r3.1 = Raise PermanentlyDeletedError ∧
  (∀ n, PermanentlyDeletedError ≠ AuthenticationError n) ∧
  metadata_directory r3.2 !! file_id = None ∧
  (fits h = true →
     _is_blacklisted r3.2 (JStr h) = true ∧
     ∃ record : gmap string json,
       record !! "content_hash" = Some (JStr h) ∧
       blacklist_directory r3.2 =
         <[safe_hash h := JObj record]> (blacklist_directory st)) ∧
  (ascii_text h = true → fits h = false →
     blacklist_directory r3.2 = blacklist_directory st).
Proof.
  intros N Est Ee Ha T P C1 C2 C3 W1 W2 W3.
  set (o1 := <["failed_password_attempts" := JInt 1]> o).
  set (o2 := <["failed_password_attempts" := JInt 2]> o1).
  set (o3 := <["failed_password_attempts" := JInt 3]> o2).
  set (st1 := write_metadata st file_id (JObj o1)).
  set (st2 := write_metadata st1 file_id (JObj o2)).
  set (st3 := write_metadata st2 file_id (JObj o3)).
  assert (access_file st file_id pw1 t1 =
            (Raise (AuthenticationError 2), st1)) as E1.
  { by rewrite (access_file_wrong_password st file_id o encryption pw1 t1 0). }
  assert (access_file st1 file_id pw2 t2 =
            (Raise (AuthenticationError 1), st2)) as E2.
  { rewrite (access_file_wrong_password st1 file_id o1 encryption pw2 t2 1);
      [done|apply lookup_insert_eq| |by unfold o1; rewrite lookup_insert_ne|done|].
    - unfold o1. by rewrite check_security_constraints_failed.
    - left. apply lookup_insert_eq. }
  assert (access_file st2 file_id pw3 t3 =
            (Raise PermanentlyDeletedError,
             (_secure_delete_file st3 file_id t3).2)) as E3.
  { rewrite (access_file_wrong_password st2 file_id o2 encryption pw3 t3 2);
      [done|apply lookup_insert_eq|
      |by unfold o2, o1; rewrite !lookup_insert_ne|done|].
    - unfold o2, o1. by rewrite !check_security_constraints_failed.
    - left. apply lookup_insert_eq. }
  intros r1 r2 r3 h. subst r1 r2 r3. rewrite E1. cbn [fst snd].
  rewrite E2. cbn [fst snd]. rewrite E3. cbn [fst snd].
  split; [done|]. split; [done|]. split; [done|].
  split; [by intros n|].
  split; [by apply secure_delete_file_gone|].
  destruct (wrong_password_obj _ _ W1) as [envelope ->].
  assert (content_hash_typed o3) as T3.
  { unfold content_hash_typed, o3, o2, o1.
    by rewrite !lookup_insert_ne. }
  assert (o3 !! "encryption" = Some (JObj envelope)) as Ee3.
  { unfold o3, o2, o1. by rewrite !lookup_insert_ne. }
  assert (file_path_elsewhere o3) as P3
    by by repeat apply file_path_elsewhere_insert.
  destruct (blacklist_hash_filing o3 envelope T3 Ee3) as [Eh Nh].
  assert (filing_hash o3 (JObj envelope) = h) as Efh.
  { unfold o3, o2, o1. by rewrite !filing_hash_insert. }
  rewrite Efh in Eh, Nh.
  rewrite (secure_delete_file_obj st3 file_id o3 t3) by
    (done || apply lookup_insert_eq).
  cbn [snd]. split; intros F.
  - destruct (add_to_blacklist_typed st3 o3 t3 h Eh Nh F) as (record & -> & Er).
    split.
    + unfold _is_blacklisted. cbn [safe_hash_value snd].
      apply bool_decide_eq_true_2. cbn. rewrite lookup_insert_eq. eauto.
    + by exists record.
  - intros F'. by rewrite (add_to_blacklist_long st3 o3 t3 h Eh F').
Qed.

(** *** Deletions in the background *)

Lemma secure_delete_file_lookup st file_id now k :
  metadata_directory (_secure_delete_file st file_id now).2 !! k = None ∨
  metadata_directory (_secure_delete_file st file_id now).2 !! k =
    metadata_directory st !! k.
Proof.
  unfold _secure_delete_file.
  destruct (String.eqb file_id ""); [by right|].
  destruct (metadata_directory st !! file_id) as [metadata|]; [|by right].
  cbn [snd remove_metadata metadata_directory].
  destruct (decide (file_id = k)) as [->|Nk].
  { left. apply lookup_delete_eq. }
  rewrite lookup_delete_ne by done.
  destruct (get _ _ _); [|by right].
  rewrite <- (add_to_blacklist_metadata st metadata now).
  apply shred_file_path_lookup.
Qed.

Lemma run_thread_lookup st i now k :
  metadata_directory (run_thread st i now) !! k = None ∨
  metadata_directory (run_thread st i now) !! k = metadata_directory st !! k.
Proof.
  unfold run_thread. destruct (threads st !! i); [|by right].
  apply secure_delete_file_lookup.
Qed.

Lemma monitor_file_lookup st name now k :
  metadata_directory (monitor_file st name now) !! k = None ∨
  metadata_directory (monitor_file st name now) !! k =
    metadata_directory st !! k.
Proof.
  unfold monitor_file.
  destruct (metadata_directory st !! name) as [metadata|]; [|by right].
  destruct (_check_security_constraints metadata now) as [[]|]; try by right.
  destruct (getitem metadata "file_id") as [[]|]; try by right.
  apply secure_delete_file_lookup.
Qed.

(** The background only ever removes entries. *)
Lemma background_lookup st st' k :
  background st st' →
  metadata_directory st' !! k = None ∨
  metadata_directory st' !! k = metadata_directory st !! k.
Proof.
  induction 1 as [st|st i now st' _ IH|st name now st' _ IH]; [by right| |].
  - destruct IH as [IH|IH]; [by left|]. rewrite IH. apply run_thread_lookup.
  - destruct IH as [IH|IH]; [by left|]. rewrite IH. apply monitor_file_lookup.
Qed.

Lemma monitor_sweep_lookup st listing k :
  metadata_directory (monitor_sweep st listing) !! k = None ∨
  metadata_directory (monitor_sweep st listing) !! k =
    metadata_directory st !! k.
Proof.
  revert st. induction listing as [|[name now] listing IH]; intros st.
  - by right.
  - cbn [monitor_sweep].
    destruct (IH (monitor_file st name now)) as [E|E]; [by left|].
    rewrite E. apply monitor_file_lookup.
Qed.

(** *** An entry whose access limit is reached *)

Lemma check_expiration_readable (o security : gmap string json) now b :
  o !! "security" = Some (JObj security) →
  _check_security_constraints (JObj o) now = Ok b →
  expiration_readable security.
Proof.
  intros Es. unfold _check_security_constraints, expiration_readable.
  rewrite (getitem_obj _ _ _ Es). py_run. cbn [getitem].
  destruct (security !! "expiration_time") as [ve|]; [|done]. py_run.
  intros E. exists ve. split; [done|]. intros T. rewrite T in E.
  destruct (fromisoformat_value ve); [eauto|done].
Qed.

Lemma check_limit_reached (o security : gmap string json) m c now :
  o !! "security" = Some (JObj security) →
  expiration_readable security →
  security !! "max_access_count" = Some (JInt m) → m ≠ 0 →
  o !! "access_count" = Some (JInt c) → m ≤ c →
  is_Some (o !! "file_id") →
  _check_security_constraints (JObj o) now = Ok false.
Proof.
  intros Es (ve & Ee & R) Em Nm Ec L [fid Ef].
  unfold _check_security_constraints.
  rewrite (getitem_obj _ _ _ Es). py_run.
  rewrite (getitem_obj _ _ _ Ee). py_run.
  rewrite (getitem_obj _ _ _ Ef). py_run.
  rewrite (getitem_obj _ _ _ Em). py_run.
  rewrite (getitem_obj _ _ _ Ec). py_run.
  assert (truthy (JInt m) = true) as ->.
  { simpl. by destruct (Z.eqb_spec m 0). }
  assert (ge (JInt c) (JInt m) = Ok true) as ->.
  { unfold ge. cbn [as_int]. by rewrite (proj2 (Z.leb_le _ _)). }
  py_run.
  destruct (truthy ve) eqn:T.
  - destruct (R eq_refl) as [t ->]. py_run. by destruct (t <? now).
  - done.
Qed.

(** A successful call of [access_file]. *)
Lemma access_file_correct_password st file_id
    (o security : gmap string json) encryption filename password content
    now m c :
  metadata_directory st !! file_id = Some (JObj o) →
  _check_security_constraints (JObj o) now = Ok true →
  o !! "encryption" = Some encryption →
  decrypt_file_content encryption password = Ok content →
  o !! "access_count" = Some (JInt c) →
  o !! "security" = Some (JObj security) →
  security !! "max_access_count" = Some (JInt m) →
  o !! "filename" = Some filename →
  let o' := <["access_count" := JInt (c + 1)]>
              (<["last_accessed" := JStr (isoformat now)]>
                 (<["failed_password_attempts" := JInt 0]> o)) in
  let st' := write_metadata st file_id (JObj o') in
  access_file st file_id password now =
    (Ok (content, JObj o'),
     if negb (m =? 0) && (m <=? c + 1) then start_thread st' file_id
     else st').
Proof.
  intros Est Ec Ee Ed Ea Es Em Ef o' st'. unfold access_file.
  rewrite Est, Ec, contains_obj.
  assert (∃ o0 : gmap string json,
    (if bool_decide (is_Some (o !! "failed_password_attempts"))
     then Ok (JObj o)
     else setitem (JObj o) "failed_password_attempts" (JInt 0)) = Ok (JObj o0) ∧
    o0 !! "encryption" = Some encryption ∧
    <["failed_password_attempts" := JInt 0]> o0 =
    <["failed_password_attempts" := JInt 0]> o)
    as (o0 & E0 & Ee0 & Eo).
  { case_bool_decide.
    - by exists o.
    - exists (<["failed_password_attempts" := JInt 0]> o).
      rewrite lookup_insert_ne by done.
      split; [done|]. split; [done|]. apply insert_insert_eq. }
  py_run. rewrite E0.
  rewrite (getitem_obj _ _ _ Ee0). py_run. rewrite Ed.
  unfold successful_access. cbn [setitem]. py_run. rewrite Eo.
  cbn [setitem]. py_run.
  rewrite (getitem_obj _ "access_count" (JInt c))
    by by rewrite !lookup_insert_ne.
  py_run. cbn [add1 as_int setitem]. py_run. fold o'. fold st'.
  rewrite (getitem_obj o' "security" (JObj security))
    by by unfold o'; rewrite !lookup_insert_ne.
  py_run. rewrite (getitem_obj _ _ _ Em). py_run.
  rewrite (getitem_obj o' "access_count" (JInt (c + 1)))
    by by unfold o'; rewrite lookup_insert_eq.
  rewrite (getitem_obj o' "filename" filename)
    by by unfold o'; rewrite !lookup_insert_ne.
  cbn [truthy].
  destruct (m =? 0); cbn [negb andb]; py_run; [done|].
  unfold ge. cbn [as_int]. by destruct (m <=? c + 1).
Qed.

(** An entry whose limit is reached does not survive a look at it. *)
Lemma access_file_limit_reached st file_id (o security : gmap string json)
    m c password now :
  file_id ≠ "" →
  metadata_directory st !! file_id = Some (JObj o) →
  o !! "security" = Some (JObj security) →
  expiration_readable security →
  security !! "max_access_count" = Some (JInt m) → m ≠ 0 →
  o !! "access_count" = Some (JInt c) → m ≤ c →
  is_Some (o !! "file_id") →
  (access_file st file_id password now).1 = Raise PolicyError ∧
  metadata_directory (access_file st file_id password now).2 !! file_id
    = None.
Proof.
  intros N Est Es R Em Nm Ec L If. unfold access_file. rewrite Est.
  rewrite (check_limit_reached o security m c now) by done.
  split; [done|]. cbn [snd]. by apply secure_delete_file_gone.
Qed.

Lemma monitor_file_limit_reached st file_id (o security : gmap string json)
    m c now :
  file_id ≠ "" →
  metadata_directory st !! file_id = Some (JObj o) →
  o !! "security" = Some (JObj security) →
  expiration_readable security →
  security !! "max_access_count" = Some (JInt m) → m ≠ 0 →
  o !! "access_count" = Some (JInt c) → m ≤ c →
  o !! "file_id" = Some (JStr file_id) →
  metadata_directory (monitor_file st file_id now) !! file_id = None.
Proof.
  intros N Est Es R Em Nm Ec L If. unfold monitor_file. rewrite Est.
  rewrite (check_limit_reached o security m c now) by eauto.
  rewrite (getitem_obj _ _ _ If). by apply secure_delete_file_gone.
Qed.

Lemma monitor_sweep_limit_reached st file_id (o security : gmap string json)
    m c listing t :
  file_id ≠ "" →
  metadata_directory st !! file_id = None ∨
  metadata_directory st !! file_id = Some (JObj o) →
  o !! "security" = Some (JObj security) →
  expiration_readable security →
  security !! "max_access_count" = Some (JInt m) → m ≠ 0 →
  o !! "access_count" = Some (JInt c) → m ≤ c →
  o !! "file_id" = Some (JStr file_id) →
  (file_id, t) ∈ listing →
  metadata_directory (monitor_sweep st listing) !! file_id = None.
Proof.
  intros N Est Es R Em Nm Ec L If. revert st Est.
  induction listing as [|[name now] listing IH]; intros st Est In.
  - by apply elem_of_nil in In.
  - cbn [monitor_sweep]. apply elem_of_cons in In as [[= <- <-]|In].
    + destruct (monitor_sweep_lookup (monitor_file st file_id t) listing
                  file_id) as [E|E]; [done|].
      rewrite E. destruct Est as [Est|Est].
      * destruct (monitor_file_lookup st file_id t file_id) as [E'|E'];
          [done|by rewrite E'].
      * by apply (monitor_file_limit_reached st file_id o security m c t).
    + apply IH; [|done].
      destruct (monitor_file_lookup st name now file_id) as [E|E];
        [by left|]. by rewrite E.
Qed.

Lemma secure_delete_file_threads st file_id now :
  threads (_secure_delete_file st file_id now).2 = threads st.
Proof.
  unfold _secure_delete_file.
  destruct (String.eqb file_id ""); [done|].
  destruct (metadata_directory st !! file_id) as [metadata|]; [|done].
  cbn [snd remove_metadata threads].
  destruct (get _ _ _); [|done].
  by rewrite shred_file_path_threads, add_to_blacklist_threads.
Qed.

Lemma decrypt_file_content_ok_obj encryption password content :
  decrypt_file_content encryption password = Ok content →
  ∃ envelope : gmap string json, encryption = JObj envelope.
Proof.
  intros E. destruct encryption as [| | | |envelope]; try done.
  by exists envelope.
Qed.

(** What [_secure_delete_file] does to a stored entry that names no file
    of the vault: the entry goes, and it is filed in the blacklist when
    the name of the record fits. *)
Lemma secure_delete_file_filed st file_id (o envelope : gmap string json)
    now :
  file_id ≠ "" →
  metadata_directory st !! file_id = Some (JObj o) →
  o !! "encryption" = Some (JObj envelope) →
  content_hash_typed o → file_path_elsewhere o →
  let h := filing_hash o (JObj envelope) in
  h ≠ "" ∧
  (fits h = true →
     ∃ record : gmap string json,
       record !! "content_hash" = Some (JStr h) ∧
       _secure_delete_file st file_id now =
         (true, remove_metadata
                  (write_blacklist st (safe_hash h) (JObj record)) file_id)) ∧
  (fits h = false →
     _secure_delete_file st file_id now = (true, remove_metadata st file_id)).
Proof.
  intros N Est Ee T P h.
  destruct (blacklist_hash_filing o envelope T Ee) as [Eh Nh]. fold h in Eh, Nh.
  split; [done|].
  rewrite (secure_delete_file_obj st file_id o now N Est P).
  split; intros F.
  - destruct (add_to_blacklist_typed st o now h Eh Nh F) as (record & -> & Er).
    by exists record.
  - by rewrite (add_to_blacklist_long st o now h Eh F).
Qed.

Lemma is_blacklisted_written st h record file_id :
  _is_blacklisted
    (remove_metadata (write_blacklist st (safe_hash h) record) file_id)
    (JStr h) = true.
Proof.
  unfold _is_blacklisted. cbn.
  apply bool_decide_eq_true_2. rewrite lookup_insert_eq. eauto.
Qed.

(** C6.  An entry with [max_access_count] 1 that has not been accessed
    and violates no constraint: [access_file] with the password that
    decrypts returns the content; the call does not destroy the entry
    itself, it stores the updated entry, leaves the blacklist alone and
    hands the destruction to a thread.  When that thread runs, the entry
    is gone: [access_file] no longer finds it, and it is filed in the
    blacklist (if the name of the record fits and the document names no
    file of the vault; with a hash of ASCII text too long for a file
    name the blacklist stays what it was).  Whatever the background does in the meantime,
    this thread or another or a look of the monitor, every later
    [access_file] fails and leaves the entry absent, and so does every
    sweep of the monitor that looks at it. *)
Theorem single_access_entry st file_id (o security : gmap string json)
    encryption filename password content now :
  file_id ≠ "" →
  metadata_directory st !! file_id = Some (JObj o) →
  o !! "file_id" = Some (JStr file_id) →
  o !! "filename" = Some filename →
  o !! "security" = Some (JObj security) →
  security !! "max_access_count" = Some (JInt 1) →
  o !! "access_count" = Some (JInt 0) →
  o !! "encryption" = Some encryption →
  decrypt_file_content encryption password = Ok content →
  _check_security_constraints (JObj o) now = Ok true →
  ∃ metadata st1,
    access_file st file_id password now = (Ok (content, metadata), st1) ∧
    metadata_directory st1 !! file_id = Some metadata ∧
    blacklist_directory st1 = blacklist_directory st ∧
    threads st1 = (threads st ++ [file_id])%list ∧
    (∀ t,
       let st2 := run_thread st1 (length (threads st)) t in
       let h := filing_hash o encryption in
       metadata_directory st2 !! file_id = None ∧
       threads st2 = threads st ∧
       (∀ password' now',
          access_file st2 file_id password' now' =
            (Raise (FileNotFoundError
                      ("File with ID " +:+ file_id +:+ " not found")), st2)) ∧
       (content_hash_typed o → file_path_elsewhere o →
        (fits h = true → _is_blacklisted st2 (JStr h) = true) ∧
        (ascii_text h = true → fits h = false →
         blacklist_directory st2 = blacklist_directory st))) ∧
    ∀ st2, background st1 st2 →
      (∀ password' now',
         ∃ e, (access_file st2 file_id password' now').1 = Raise e ∧
              metadata_directory (access_file st2 file_id password' now').2
                !! file_id = None) ∧
      (∀ listing t, (file_id, t) ∈ listing →
         metadata_directory (monitor_sweep st2 listing) !! file_id = None).
Proof.
  intros N Est Ei Ef Es Em Ea Ee Ed Ec.
  pose proof (access_file_correct_password st file_id o security encryption
                filename password content now 1 0 Est Ec Ee Ed Ea Es Em Ef)
    as E. cbn zeta in E.
  set (o' := <["access_count" := JInt (0 + 1)]>
               (<["last_accessed" := JStr (isoformat now)]>
                  (<["failed_password_attempts" := JInt 0]> o))) in *.
  set (st' := write_metadata st file_id (JObj o')) in *.
  change (negb (1 =? 0) && (1 <=? 0 + 1)) with true in E. cbn iota in E.
  exists (JObj o'), (start_thread st' file_id).
  split; [done|]. split; [apply lookup_insert_eq|].
  split; [done|]. split; [done|].
  assert (o' !! "security" = Some (JObj security)) as Es'
    by by unfold o'; rewrite !lookup_insert_ne.
  assert (o' !! "access_count" = Some (JInt 1)) as Ea'
    by by unfold o'; rewrite lookup_insert_eq.
  assert (o' !! "file_id" = Some (JStr file_id)) as Ei'
    by by unfold o'; rewrite !lookup_insert_ne.
  pose proof (check_expiration_readable o security now true Es Ec) as R.
  split.
  { intros t st2 h.
    assert (st2 =
      {| metadata_directory :=
           metadata_directory
             (_secure_delete_file (start_thread st' file_id) file_id t).2;
         blacklist_directory :=
           blacklist_directory
             (_secure_delete_file (start_thread st' file_id) file_id t).2;
         threads := threads st |}) as E2.
    { unfold st2, run_thread. cbn [start_thread threads st' write_metadata].
      rewrite list_lookup_middle by done.
      rewrite secure_delete_file_threads. cbn [start_thread threads].
      change (threads st') with (threads st).
      by rewrite (delete_middle (threads st) [] file_id), app_nil_r. }
    assert (metadata_directory st2 !! file_id = None) as Eg.
    { rewrite E2. cbn [metadata_directory].
      by apply secure_delete_file_gone. }
    split; [done|]. split; [by rewrite E2|].
    split.
    { intros password' now'. unfold access_file. by rewrite Eg. }
    intros T P.
    destruct (decrypt_file_content_ok_obj _ _ _ Ed) as [envelope ->].
    assert (filing_hash o' (JObj envelope) = h) as Eh
      by (unfold o'; by rewrite !filing_hash_insert).
    destruct (secure_delete_file_filed (start_thread st' file_id) file_id o'
                envelope t N) as (_ & Hfit & Hlong).
    { apply lookup_insert_eq. }
    { by unfold o'; rewrite !lookup_insert_ne. }
    { unfold content_hash_typed, o'. by rewrite !lookup_insert_ne. }
    { by repeat apply file_path_elsewhere_insert. }
    rewrite Eh in Hfit, Hlong. rewrite E2. split; intros F.
    - destruct (Hfit F) as (record & _ & ->).
      unfold _is_blacklisted. cbn.
      apply bool_decide_eq_true_2. rewrite lookup_insert_eq. eauto.
    - intros F'. by rewrite (Hlong F'). }
  intros st2 B.
  assert (metadata_directory st2 !! file_id = None ∨
          metadata_directory st2 !! file_id = Some (JObj o')) as Est2.
  { destruct (background_lookup _ _ file_id B) as [E2|E2]; [by left|].
    right. rewrite E2. apply lookup_insert_eq. }
  split.
  - intros password' now'. destruct Est2 as [Est2|Est2].
    + unfold access_file. rewrite Est2. eauto.
    + destruct (access_file_limit_reached st2 file_id o' security 1 1
                  password' now') as [E1 E2]; [done..|by eauto|].
      eauto.
  - intros listing t In.
    by apply (monitor_sweep_limit_reached st2 file_id o' security 1 1
                listing t).
Qed.

End AccessTheorems.

(** ** Import of portable records *)

Section ImportTheorems.
Context `{Primitives} `{FileSystem}.
Import EncryptionManager FileManager Spec.

Lemma import_decrypt_bound (o env : gmap string json) password :
  is_Some (env !! "hardware_id_hash") →
  import_decrypt (JObj o) (JObj env) password =
    match decrypt_file_content (JObj env) password with
    | Ok content => Ok (content, JObj (<["encryption" := JObj (unbound env)]> o))
    | Raise (ValueError _) =>
        Raise (ValueError "Incorrect password or incompatible hardware binding")
    | Raise e => Raise e
    end.
Proof.
  intros I. unfold import_decrypt.
  rewrite contains_obj, bool_decide_eq_true_2 by done. py_run.
  cbn [get strip_hardware_binding]. py_run.
  rewrite decrypt_stripped.
  by destruct (decrypt_file_content (JObj env) password) as [|[]].
Qed.

Lemma import_decrypt_unbound (o env : gmap string json) password :
  env !! "hardware_id_hash" = None →
  import_decrypt (JObj o) (JObj env) password =
    match decrypt_file_content (JObj env) password with
    | Ok content => Ok (content, JObj o)
    | Raise (ValueError _) => Raise (ValueError "Incorrect password")
    | Raise e => Raise e
    end.
Proof.
  intros I. unfold import_decrypt.
  rewrite contains_obj, bool_decide_eq_false_2
    by (rewrite I; by intros [??]).
  py_run. by destruct (decrypt_file_content (JObj env) password) as [|[]].
Qed.

(** The first steps of the import: the marker and the blacklist. *)
Lemma import_body_past_blacklist st (o : gmap string json) password file_id now :
  (∃ marker, o !! "bar_portable_file" = Some marker ∧ truthy marker = true) →
  passes_blacklist st o →
  import_body st (JObj o) password file_id now =
    encryption_data ← get (JObj o) "encryption" (JObj ∅);
    '(file_content, portable_data) ←
      import_decrypt (JObj o) encryption_data password;
    filename ← getitem portable_data "filename";
    creation_time ← getitem portable_data "creation_time";
    access_count ← get portable_data "access_count" (JInt 0);
    file_type ← get portable_data "file_type" (JStr "document");
    security ← getitem portable_data "security";
    encryption ← getitem portable_data "encryption";
    failed ← get portable_data "failed_password_attempts" (JInt 0);
    let metadata : gmap string json := list_to_map [
      ("file_id", JStr file_id);
      ("filename", filename);
      ("creation_time", creation_time);
      ("last_accessed", JStr (isoformat now));
      ("access_count", access_count);
      ("file_type", file_type);
      ("security", security);
      ("encryption", encryption);
      ("content_hash",
         if truthy (content_hash_of o) then content_hash_of o
         else JStr (_hash_content file_content));
      ("failed_password_attempts", failed)] in
    _ ← get security "disable_export" (JBool false);
    mret (JObj metadata).
Proof.
  intros (marker & Em & Tm) A. unfold import_body.
  rewrite (get_obj_some _ _ _ _ Em). py_run. rewrite Tm. cbn [negb].
  change (get (JObj o) "content_hash" JNull) with (Ok (content_hash_of o)).
  py_run. unfold passes_blacklist in A. by rewrite A.
Qed.

(** A record that passes the blacklist and whose envelope decrypts is
    imported. *)
Lemma import_portable_file_correct st (o env : gmap string json)
    password content file_id now :
  portable_record o → passes_blacklist st o →
  o !! "encryption" = Some (JObj env) →
  decrypt_file_content (JObj env) password = Ok content →
  ∃ metadata : gmap string json,
    import_portable_file st (JObj o) password file_id now =
      (Ok file_id, write_metadata st file_id (JObj metadata)) ∧
    metadata !! "file_id" = Some (JStr file_id) ∧
    metadata !! "encryption" =
      Some (JObj (if bool_decide (is_Some (env !! "hardware_id_hash"))
                  then unbound env else env)) ∧
    metadata !! "content_hash" =
      Some (if truthy (content_hash_of o) then content_hash_of o
            else JStr (_hash_content content)).
Proof.
  intros [Hm [fn Hf] [ct Hc] [sec Hs]] A Ee Ed.
  unfold import_portable_file.
  rewrite import_body_past_blacklist by done.
  rewrite (get_obj_some _ _ _ _ Ee). py_run.
  set (o' := if bool_decide (is_Some (env !! "hardware_id_hash"))
             then <["encryption" := JObj (unbound env)]> o else o).
  assert (import_decrypt (JObj o) (JObj env) password = Ok (content, JObj o'))
    as ->.
  { unfold o'. case_bool_decide as I.
    - by rewrite import_decrypt_bound, Ed.
    - rewrite import_decrypt_unbound, Ed; [done|].
      by apply eq_None_not_Some. }
  py_run.
  assert (o' !! "filename" = Some fn) as Hf'.
  { unfold o'. case_bool_decide; [by rewrite lookup_insert_ne|done]. }
  assert (o' !! "creation_time" = Some ct) as Hc'.
  { unfold o'. case_bool_decide; [by rewrite lookup_insert_ne|done]. }
  assert (o' !! "security" = Some (JObj sec)) as Hs'.
  { unfold o'. case_bool_decide; [by rewrite lookup_insert_ne|done]. }
  assert (o' !! "encryption" =
          Some (JObj (if bool_decide (is_Some (env !! "hardware_id_hash"))
                      then unbound env else env))) as He'.
  { unfold o'. case_bool_decide; [by rewrite lookup_insert_eq|done]. }
  rewrite (getitem_obj _ _ _ Hf'), (getitem_obj _ _ _ Hc'),
    (getitem_obj _ _ _ Hs'), (getitem_obj _ _ _ He').
  cbn [get]. py_run.
  eexists. split; [reflexivity|]. done.
Qed.

(** C3.  A portable record (signature marker, file name, creation time
    and policy present) that the blacklist does not stop and whose
    envelope carries a [hardware_id_hash], whatever hash of whatever
    machine: with a password that decrypts the
    envelope the import succeeds, returns the new id and stores the
    entry under it (with the envelope stripped of the binding); with a
    password that the authenticated decryption rejects it fails with the
    import's wrong-password error and stores nothing.  The host's own
    fingerprint is no input of the import. *)
Theorem import_hardware_bound st (o env : gmap string json) hw_hash
    password file_id now :
  portable_record o → passes_blacklist st o →
  o !! "encryption" = Some (JObj env) →
  env !! "hardware_id_hash" = Some hw_hash →
  (∀ content,
     decrypt_file_content (JObj env) password = Ok content →
     ∃ metadata : gmap string json,
       import_portable_file st (JObj o) password file_id now =
         (Ok file_id, write_metadata st file_id (JObj metadata)) ∧
       metadata !! "file_id" = Some (JStr file_id) ∧
       metadata !! "encryption" = Some (JObj (unbound env))) ∧
  (wrong_password (JObj env) password →
     import_portable_file st (JObj o) password file_id now =
       (Raise ImportAuthenticationError, st)).
Proof.
  intros P A Ee Eh. split.
  - intros content Ed.
    destruct (import_portable_file_correct st o env password content
                file_id now P A Ee Ed) as (metadata & E & Ei & Eenc & _).
    exists metadata. split; [done|]. split; [done|].
    by rewrite Eenc, bool_decide_eq_true_2 by eauto.
  - intros [msg Ew]. unfold import_portable_file.
    rewrite import_body_past_blacklist by (done || apply P).
    rewrite (get_obj_some _ _ _ _ Ee). py_run.
    by rewrite import_decrypt_bound, Ew by eauto.
Qed.

(** C4.  A record with the signature marker whose [content_hash] is on
    the blacklist: the import fails with the blacklist error for every
    password, the right one included, and the store is left as it
    was. *)
Theorem import_blacklisted st (o : gmap string json) marker h
    password file_id now :
  o !! "bar_portable_file" = Some marker → truthy marker = true →
  o !! "content_hash" = Some (JStr h) → h ≠ "" →
  _is_blacklisted st (JStr h) = true →
  import_portable_file st (JObj o) password file_id now =
    (Raise BlacklistedError, st).
Proof.
  intros Em Tm Eh Nh B. unfold import_portable_file, import_body.
  rewrite (get_obj_some _ _ _ _ Em). py_run. rewrite Tm. cbn [negb].
  rewrite (get_obj_some _ _ _ _ Eh). py_run.
  rewrite B. simpl. by destruct (String.eqb_spec h "").
Qed.

Lemma without_content_hash_passes st (o : gmap string json) :
  without_content_hash o → passes_blacklist st o.
Proof. unfold passes_blacklist, without_content_hash. by intros ->. Qed.

Lemma without_content_hash_cases (o : gmap string json) :
  o !! "content_hash" = None ∨
  o !! "content_hash" = Some JNull ∨
  o !! "content_hash" = Some (JStr "") →
  without_content_hash o.
Proof.
  unfold without_content_hash, content_hash_of. by intros [->|[->| ->]].
Qed.

(** C9.  A record with the signature marker and no [content_hash], or an
    empty one ([without_content_hash_cases]): the import does not look at
    the blacklist (its outcome is the same in any two stores), and with a
    password that decrypts the envelope it succeeds even when the hash of
    the very content it carries is on the blacklist. *)
Theorem import_without_content_hash (o env : gmap string json)
    password file_id now :
  (∃ marker, o !! "bar_portable_file" = Some marker ∧ truthy marker = true) →
  without_content_hash o →
  (∀ st st',
     import_body st (JObj o) password file_id now =
     import_body st' (JObj o) password file_id now) ∧
  (∀ st content,
     portable_record o →
     o !! "encryption" = Some (JObj env) →
     decrypt_file_content (JObj env) password = Ok content →
     _is_blacklisted st (JStr (_hash_content content)) = true →
     ∃ metadata : gmap string json,
       import_portable_file st (JObj o) password file_id now =
         (Ok file_id, write_metadata st file_id (JObj metadata)) ∧
       metadata !! "content_hash" = Some (JStr (_hash_content content))).
Proof.
  intros M W. split.
  - intros st st'.
    by rewrite !import_body_past_blacklist
      by (done || by apply without_content_hash_passes).
  - intros st content P Ee Ed _.
    destruct (import_portable_file_correct st o env password content
                file_id now P (without_content_hash_passes st o W) Ee Ed)
      as (metadata & E & _ & _ & Eh).
    exists metadata. split; [done|]. by rewrite Eh, W.
Qed.

End ImportTheorems.

(** ** The theorems on the sample data *)

Section Samples.
Import EncryptionManager FileManager FileScanner Spec Reference.
Existing Instance file_system.

Lemma sample_decrypts :
  decrypt_file_content (JObj envelope) "pw" = Ok content.
Proof. vm_compute. reflexivity. Qed.

Lemma sample_check now :
  now ∈ [2000; 3000; 4000] →
  _check_security_constraints (JObj entry) now = Ok true.
Proof.
  intros In.
  repeat (apply elem_of_cons in In as [->|In]; [vm_compute; reflexivity|]).
  by apply elem_of_nil in In.
Qed.

Lemma decrypt_reads_three_fields_witness :
  decrypt_file_content (JObj bound_envelope) "pw" =
  decrypt_file_content (JObj envelope) "pw".
Proof.
  apply (proj1 (decrypt_reads_three_fields "pw")); vm_compute; reflexivity.
Defined.

Lemma sample_imported_wrong_password pw :
  pw ∈ ["pw1"; "pw2"; "pw3"] →
  wrong_password (dict_get imported_entry "encryption" JNull) pw.
Proof.
  intros In. exists "Decryption failed: ".
  repeat (apply elem_of_cons in In as [->|In]; [vm_compute; reflexivity|]).
  by apply elem_of_nil in In.
Qed.

Lemma sample_imported_check now :
  now ∈ [2000; 3000; 4000] →
  _check_security_constraints (JObj imported_entry) now = Ok true.
Proof.
  intros In.
  repeat (apply elem_of_cons in In as [->|In]; [vm_compute; reflexivity|]).
  by apply elem_of_nil in In.
Qed.

Lemma three_wrong_passwords_witness :
  let r1 := access_file imported_store "a1b2" "pw1" 2000 in
  let r2 := access_file r1.2 "a1b2" "pw2" 3000 in
  let r3 := access_file r2.2 "a1b2" "pw3" 4000 in
  imported_entry !! "content_hash" = Some (JStr (_hash_content content)) ∧
  r1.1 = Raise (AuthenticationError 2) ∧
  r2.1 = Raise (AuthenticationError 1) ∧
  r3.1 = Raise PermanentlyDeletedError ∧
  metadata_directory r3.2 !! "a1b2" = None ∧
  _is_blacklisted r3.2 (JStr (_hash_content content)) = true.
Proof.
  destruct (three_wrong_passwords imported_store "a1b2" imported_entry
              (dict_get imported_entry "encryption" JNull)
              "pw1" "pw2" "pw3" 2000 3000 4000)
    as (E1 & E2 & E3 & _ & G & B & _).
  - discriminate.
  - vm_compute. reflexivity.
  - vm_compute. reflexivity.
  - left. vm_compute. reflexivity.
  - right. right. exists (_hash_content content). vm_compute. reflexivity.
  - intros file_path E. vm_compute in E. discriminate.
  - apply sample_imported_check. set_solver.
  - apply sample_imported_check. set_solver.
  - apply sample_imported_check. set_solver.
  - apply sample_imported_wrong_password. set_solver.
  - apply sample_imported_wrong_password. set_solver.
  - apply sample_imported_wrong_password. set_solver.
  - split; [vm_compute; reflexivity|].
    split; [exact E1|]. split; [exact E2|]. split; [exact E3|].
    split; [exact G|].
    assert (fits (filing_hash imported_entry
                    (dict_get imported_entry "encryption" JNull)) = true)
      as F by (vm_compute; reflexivity).
    exact (proj1 (B F)).
Defined.

(** C2, as the specification has it, fails on three entries.  A
    portable record with a content hash of 251 characters is imported,
    and three passwords are rejected: the entry is destroyed with the
    permanent-deletion error, and the blacklist holds no record, neither
    for this hash nor for any other.  A document that names the
    blacklist record of its own content hash as its [file_path] is
    imported, and three passwords are rejected: the record that was
    written is shredded with the entry, and the blacklist is empty
    again.  An entry made by [create_secure_file] is destroyed in the
    same way: the blacklist has a record, but for the digest of the
    encryption data, not for the hash of the content. *)
Lemma three_wrong_passwords_long_hash :
  (let st :=
     (import_portable_file empty_store (JObj long_portable) "pw" "a1b2"
        1500).2 in
   let r1 := access_file st "a1b2" "pw1" 2000 in
   let r2 := access_file r1.2 "a1b2" "pw2" 3000 in
   let r3 := access_file r2.2 "a1b2" "pw3" 4000 in
   (∃ entry : gmap string json,
      metadata_directory st !! "a1b2" = Some (JObj entry) ∧
      entry !! "content_hash" = Some (JStr long_hash)) ∧
   r1.1 = Raise (AuthenticationError 2) ∧
   r2.1 = Raise (AuthenticationError 1) ∧
   r3.1 = Raise PermanentlyDeletedError ∧
   metadata_directory r3.2 !! "a1b2" = None ∧
   _is_blacklisted r3.2 (JStr long_hash) = false ∧
   map_to_list (blacklist_directory r3.2) = []) ∧
  (let st := (import_file empty_store (JObj pointing_entry) "f0f0").2 in
   let r1 := access_file st "a1b2" "pw1" 2000 in
   let r2 := access_file r1.2 "a1b2" "pw2" 3000 in
   let r3 := access_file r2.2 "a1b2" "pw3" 4000 in
   metadata_directory st !! "a1b2" = Some (JObj pointing_entry) ∧
   pointing_entry !! "content_hash" = Some (JStr (_hash_content content)) ∧
   r3.1 = Raise PermanentlyDeletedError ∧
   metadata_directory r3.2 !! "a1b2" = None ∧
   _is_blacklisted r3.2 (JStr (_hash_content content)) = false ∧
   map_to_list (blacklist_directory r3.2) = []) ∧
  (let r1 := access_file created_store "7c9e" "pw1" 2000 in
   let r2 := access_file r1.2 "7c9e" "pw2" 2100 in
   let r3 := access_file r2.2 "7c9e" "pw3" 2200 in
   created_entry !! "content_hash" = None ∧
   r3.1 = Raise PermanentlyDeletedError ∧
   metadata_directory r3.2 !! "7c9e" = None ∧
   _is_blacklisted r3.2 (JStr (_hash_content content)) = false).
Proof.
  split; [|split].
  - split.
    { eexists. split; vm_compute; reflexivity. }
    repeat split; vm_compute; reflexivity.
  - repeat split; vm_compute; reflexivity.
  - repeat split; vm_compute; reflexivity.
Qed.

Lemma sample_portable_record : portable_record portable.
Proof.
  split.
  - exists (JBool true). split; vm_compute; reflexivity.
  - exists (JStr "notes.txt"). vm_compute. reflexivity.
  - exists (JStr "1000"). vm_compute. reflexivity.
  - exists security. vm_compute. reflexivity.
Qed.

Lemma sample_bound_decrypts :
  decrypt_file_content (JObj bound_envelope) "pw" = Ok content.
Proof. vm_compute. reflexivity. Qed.

Lemma sample_bound_wrong_password :
  wrong_password (JObj bound_envelope) "guess".
Proof. exists "Decryption failed: ". vm_compute. reflexivity. Qed.

Lemma import_hardware_bound_witness :
  (∃ metadata : gmap string json,
     import_portable_file store (JObj portable) "pw" "d41b" 3000 =
       (Ok "d41b", write_metadata store "d41b" (JObj metadata)) ∧
     metadata !! "file_id" = Some (JStr "d41b") ∧
     metadata !! "encryption" = Some (JObj (unbound bound_envelope))) ∧
  import_portable_file store (JObj portable) "guess" "d41b" 3000 =
    (Raise ImportAuthenticationError, store).
Proof.
  assert (passes_blacklist store portable) as A by (vm_compute; reflexivity).
  assert (portable !! "encryption" = Some (JObj bound_envelope)) as E
    by (vm_compute; reflexivity).
  assert (bound_envelope !! "hardware_id_hash" = Some (JStr "5f2a")) as Eh
    by (vm_compute; reflexivity).
  split.
  - apply (proj1 (import_hardware_bound store portable bound_envelope
                    (JStr "5f2a") "pw" "d41b" 3000
                    sample_portable_record A E Eh) content).
    apply sample_bound_decrypts.
  - apply (proj2 (import_hardware_bound store portable bound_envelope
                    (JStr "5f2a") "guess" "d41b" 3000
                    sample_portable_record A E Eh)).
    apply sample_bound_wrong_password.
Defined.

Lemma import_blacklisted_witness :
  import_portable_file store_with_blacklist (JObj portable) "pw" "d41b" 3000
    = (Raise BlacklistedError, store_with_blacklist).
Proof.
  apply (import_blacklisted store_with_blacklist portable (JBool true)
           (_hash_content content)).
  - vm_compute. reflexivity.
  - reflexivity.
  - vm_compute. reflexivity.
  - vm_compute. discriminate.
  - vm_compute. reflexivity.
Defined.

Lemma sample_describes : describes entry policy 1000 0.
Proof.
  split.
  - exists (JStr "7c9e"). vm_compute. reflexivity.
  - exists security, (JStr "5000"), (JInt 1), JNull.
    repeat split; try (vm_compute; reflexivity).
    exists "5000". split; vm_compute; reflexivity.
  - exists (JStr "1000"). split; [vm_compute; reflexivity|].
    exists "1000". split; vm_compute; reflexivity.
  - vm_compute. reflexivity.
Qed.

Lemma constraint_evaluation_witness :
  _check_security_constraints (JObj entry) 2000 =
    Ok (negb (must_destroy policy 2000 1000 0)) ∧
  (must_destroy policy 2000 1000 0 = true ↔
     (∃ t, expiration_time policy = Some t ∧ 2000 > t) ∨
     (∃ m, max_access_count policy = Some m ∧ 0 >= m) ∨
     (∃ d, deadman_switch_days policy = Some d ∧ (2000 - 1000) / DAY > d)).
Proof.
  apply (constraint_evaluation entry policy 1000 0 2000).
  - apply sample_describes.
  - split; discriminate.
Defined.

Lemma single_access_entry_witness :
  ∃ metadata st1,
    access_file store "7c9e" "pw" 2000 = (Ok (content, metadata), st1) ∧
    metadata_directory st1 !! "7c9e" = Some metadata ∧
    threads st1 = ["7c9e"] ∧
    (∀ t,
       let st2 := run_thread st1 0 t in
       metadata_directory st2 !! "7c9e" = None ∧
       threads st2 = [] ∧
       _is_blacklisted st2 (JStr (filing_hash entry (JObj envelope))) = true) ∧
    ∀ st2, background st1 st2 →
      (∀ password' now',
         ∃ e, (access_file st2 "7c9e" password' now').1 = Raise e ∧
              metadata_directory (access_file st2 "7c9e" password' now').2
                !! "7c9e" = None) ∧
      (∀ listing t, ("7c9e", t) ∈ listing →
         metadata_directory (monitor_sweep st2 listing) !! "7c9e" = None).
Proof.
  destruct (single_access_entry store "7c9e" entry security (JObj envelope)
              (JStr "notes.txt") "pw" content 2000)
    as (metadata & st1 & E & Em & _ & Et & Hrun & Hbg).
  - discriminate.
  - vm_compute. reflexivity.
  - vm_compute. reflexivity.
  - vm_compute. reflexivity.
  - vm_compute. reflexivity.
  - vm_compute. reflexivity.
  - vm_compute. reflexivity.
  - vm_compute. reflexivity.
  - apply sample_decrypts.
  - apply sample_check. set_solver.
  - exists metadata, st1. split; [exact E|]. split; [exact Em|].
    split; [exact Et|]. split; [|exact Hbg].
    intros t. destruct (Hrun t) as (G & T & _ & B).
    split; [exact G|]. split; [exact T|].
    destruct B as [B _].
    + left. vm_compute. reflexivity.
    + intros file_path Ep. vm_compute in Ep. discriminate.
    + apply B. vm_compute. reflexivity.
Defined.

Lemma sample_validates : validates minimal_file minimal_record.
Proof.
  split.
  - reflexivity.
  - vm_compute. discriminate.
  - exists (JBool true). split; vm_compute; reflexivity.
  - right. exists "1.0". split; vm_compute; reflexivity.
  - exists (JStr "notes.txt"). vm_compute. reflexivity.
  - exists (JObj envelope). vm_compute. reflexivity.
  - left. vm_compute. reflexivity.
Qed.

Lemma integrity_score_of_valid_record_witness :
  ∃ metadata,
    _validate_bar_file 0 minimal_file 3000
      = (Ok (Some (JObj metadata)), 0) ∧
    metadata !! "integrity_score" =
      Some (JInt (100 - deduction minimal_record "creation_time"
                      - deduction minimal_record "content_hash"
                      - deduction minimal_record "security"
                      - deduction minimal_record "version")) ∧
    (is_Some (minimal_record !! "version") →
     minimal_record !! "creation_time" = None →
     minimal_record !! "content_hash" = None →
     minimal_record !! "security" = None →
     metadata !! "integrity_score" = Some (JInt 70)) ∧
    (is_Some (minimal_record !! "version") →
     is_Some (minimal_record !! "creation_time") →
     is_Some (minimal_record !! "content_hash") →
     is_Some (minimal_record !! "security") →
     metadata !! "integrity_score" = Some (JInt 100)).
Proof.
  apply (integrity_score_of_valid_record 0 minimal_file 3000 minimal_record).
  apply sample_validates.
Defined.

Lemma sample_rewrapped_record : portable_record rewrapped.
Proof.
  split.
  - exists (JBool true). split; vm_compute; reflexivity.
  - exists (JStr "notes.txt"). vm_compute. reflexivity.
  - exists (JStr "1000"). vm_compute. reflexivity.
  - exists security. vm_compute. reflexivity.
Qed.

Lemma import_without_content_hash_witness :
  (∀ st st',
     import_body st (JObj rewrapped) "pw" "d41b" 3000 =
     import_body st' (JObj rewrapped) "pw" "d41b" 3000) ∧
  ∃ metadata : gmap string json,
    import_portable_file store_with_blacklist (JObj rewrapped) "pw" "d41b"
      3000 =
      (Ok "d41b", write_metadata store_with_blacklist "d41b" (JObj metadata)) ∧
    metadata !! "content_hash" = Some (JStr (_hash_content content)).
Proof.
  assert (∃ marker, rewrapped !! "bar_portable_file" = Some marker ∧
                    truthy marker = true) as M
    by (exists (JBool true); split; vm_compute; reflexivity).
  assert (without_content_hash rewrapped) as W
    by (apply without_content_hash_cases; left; vm_compute; reflexivity).
  split.
  - apply (proj1 (import_without_content_hash rewrapped bound_envelope
                    "pw" "d41b" 3000 M W)).
  - apply (proj2 (import_without_content_hash rewrapped bound_envelope
                    "pw" "d41b" 3000 M W) store_with_blacklist content).
    + apply sample_rewrapped_record.
    + vm_compute. reflexivity.
    + apply sample_bound_decrypts.
    + vm_compute. reflexivity.
Defined.

End Samples.


(** ** Password records *)

Section PasswordTheorems.
Context `{PrimitivesLaws}.
Import EncryptionManager.

Lemma bytes_eq_refl b : bytes_eq b b = true.
Proof.
  induction b as [|x b IH]; [done|]. cbn [bytes_eq].
  rewrite IH, andb_true_r. by destruct x.
Qed.

Lemma hash_password_obj password bound hw_id e :
  ∃ record : gmap string json,
    (hash_password password bound hw_id e).1 = JObj record ∧
    record !! "salt" = Some (JStr (b64encode (generate_salt e).1)) ∧
    record !! "hash" =
      Some (JStr (b64encode
        (derive_key (combined_password password bound hw_id)
           (generate_salt e).1))) ∧
    record !! "hardware_bound" = Some (JBool bound) ∧
    record !! "hardware_id_hash" =
      (if bound then Some (JStr (hardware_id_hash hw_id)) else None).
Proof.
  unfold hash_password. destruct (generate_salt e) as [salt e'].
  cbn [fst]. eexists. split; [reflexivity|].
  destruct bound; repeat split; done.
Qed.

(** X1.  A record made by [hash_password] verifies the same password: on
    the machine that made it when it is bound to the hardware, on any
    machine when it is not. *)
Theorem verify_hashed_password password hw_id e :
  verify_password password (hash_password password true hw_id e).1 hw_id
    = Ok true ∧
  ∀ other_hw_id,
    verify_password password (hash_password password false hw_id e).1
      other_hw_id = Ok true.
Proof.
  split; [|intros other_hw_id].
  - destruct (hash_password_obj password true hw_id e)
      as (record & -> & Es & Eh & Eb & Ei).
    unfold verify_password.
    rewrite (getitem_obj _ _ _ Es), (getitem_obj _ _ _ Eh),
      (getitem_obj _ _ _ Ei), (get_obj_some _ _ _ _ Eb), contains_obj, Ei.
    py_run. rewrite !b64decode_value_b64encode. py_run. cbn [truthy].
    rewrite bool_decide_eq_true_2 by eauto. py_run. cbn [str_ne].
    rewrite String.eqb_refl. cbn [negb]. by rewrite bytes_eq_refl.
  - destruct (hash_password_obj password false hw_id e)
      as (record & -> & Es & Eh & Eb & Ei).
    unfold verify_password.
    rewrite (getitem_obj _ _ _ Es), (getitem_obj _ _ _ Eh),
      (get_obj_some _ _ _ _ Eb).
    py_run. rewrite !b64decode_value_b64encode. py_run. cbn [truthy].
    by rewrite bytes_eq_refl.
Qed.

(** X2.  A record bound to the hardware is rejected on a machine whose
    identifier hashes differently, whatever the password, the right one
    included. *)
Theorem verify_password_other_hardware password guess hw_id other_hw_id e :
  hardware_id_hash other_hw_id ≠ hardware_id_hash hw_id →
  verify_password guess (hash_password password true hw_id e).1 other_hw_id
    = Ok false.
Proof.
  intros N.
  destruct (hash_password_obj password true hw_id e)
    as (record & -> & Es & Eh & Eb & Ei).
  unfold verify_password.
  rewrite (getitem_obj _ _ _ Es), (getitem_obj _ _ _ Eh),
    (getitem_obj _ _ _ Ei), (get_obj_some _ _ _ _ Eb), contains_obj, Ei.
  py_run. rewrite !b64decode_value_b64encode. py_run. cbn [truthy].
  rewrite bool_decide_eq_true_2 by eauto. py_run. cbn [str_ne].
  by destruct (String.eqb_spec (hardware_id_hash other_hw_id)
                 (hardware_id_hash hw_id)).
Qed.

End PasswordTheorems.

Lemma verify_hashed_password_witness :
  EncryptionManager.verify_password "pw"
    (EncryptionManager.hash_password "pw" true "host-a" (λ _, x2a)).1 "host-a"
    = Ok true ∧
  ∀ other_hw_id,
    EncryptionManager.verify_password "pw"
      (EncryptionManager.hash_password "pw" false "host-a" (λ _, x2a)).1
      other_hw_id = Ok true.
Proof.
  exact (@verify_hashed_password Reference.primitives reference_laws
           "pw" "host-a" (λ _, x2a)).
Defined.

Lemma verify_password_other_hardware_witness :
  EncryptionManager.verify_password "pw"
    (EncryptionManager.hash_password "pw" true "host-a" (λ _, x2a)).1 "host-b"
    = Ok false.
Proof.
  apply (@verify_password_other_hardware Reference.primitives reference_laws).
  vm_compute. discriminate.
Defined.

(** ** The life of an entry *)

Section LifecycleTheorems.
Context `{PrimitivesLaws} `{OsRoutines} `{FileSystem}.
Import EncryptionManager FileManager Spec.

(** What [encrypt_file_content] returns decrypts with the password. *)
Lemma encrypt_file_content_decrypts content password e now :
  ∃ envelope : gmap string json,
    (encrypt_file_content content password e now).1 = Ok (JObj envelope) ∧
    decrypt_file_content (JObj envelope) password = Ok content.
Proof.
  unfold encrypt_file_content, encrypt_data, generate_salt, generate_nonce.
  destruct (os_urandom SALT_SIZE e) as [salt e1] eqn:Es.
  destruct (os_urandom NONCE_SIZE e1) as [nonce e2] eqn:En.
  rewrite AESGCM_derived. py_run. cbn [fst].
  eexists. split; [reflexivity|].
  rewrite decrypt_file_content_obj.
  rewrite (getitem_obj _ "ciphertext" (JStr (b64encode
    (AESGCM_encrypt (derive_key password salt) nonce content)))) by done.
  rewrite (getitem_obj _ "nonce" (JStr (b64encode nonce))) by done.
  rewrite (getitem_obj _ "salt" (JStr (b64encode salt))) by done.
  py_run. rewrite !b64decode_value_b64encode. py_run.
  unfold decrypt_data. cbn [ed_ciphertext ed_nonce].
  rewrite AESGCM_derived. py_run.
  rewrite AESGCM_decrypt_encrypt; [done|apply derive_key_length|].
  replace nonce with (os_urandom NONCE_SIZE e1).1 by by rewrite En.
  apply os_urandom_length.
Qed.

(** The document [create_secure_file] stores. *)
Lemma create_secure_file_stores st content filename password
    (settings : gmap string json) file_id e now :
  let c := create_secure_file st content filename password settings file_id
             e now in
  let media := _is_media_file filename content in
  ∃ metadata security envelope : gmap string json,
    created c = Ok file_id ∧
    store_after c = write_metadata st file_id (JObj metadata) ∧
    decrypt_file_content (JObj envelope) password = Ok content ∧
    metadata !! "file_id" = Some (JStr file_id) ∧
    metadata !! "filename" = Some (JStr filename) ∧
    metadata !! "creation_time" = Some (JStr (isoformat now)) ∧
    metadata !! "last_accessed" = Some (JStr (isoformat now)) ∧
    metadata !! "access_count" = Some (JInt 0) ∧
    metadata !! "file_type" =
      Some (JStr (if media then "media" else "document")) ∧
    metadata !! "security" = Some (JObj security) ∧
    metadata !! "encryption" = Some (JObj envelope) ∧
    metadata !! "content_hash" = None ∧
    metadata !! "failed_password_attempts" = None ∧
    security !! "expiration_time" =
      Some (dict_get settings "expiration_time" JNull) ∧
    security !! "max_access_count" =
      Some (dict_get settings "max_access_count" JNull) ∧
    security !! "deadman_switch" =
      Some (dict_get settings "deadman_switch" JNull) ∧
    security !! "disable_export" =
      Some (match settings !! "disable_export" with
            | Some v => v
            | None => JBool media
            end).
Proof.
  intros c media. subst c. unfold create_secure_file. fold media.
  destruct (encrypt_file_content_decrypts content password e now)
    as (envelope & Ee & Ed).
  destruct (encrypt_file_content content password e now) as [r e'].
  cbn [fst] in Ee. subst r.
  set (settings' := if media && negb (bool_decide
                          (is_Some (settings !! "disable_export")))
                    then <["disable_export" := JBool true]> settings
                    else settings).
  assert (∀ k, k ≠ "disable_export" →
            dict_get settings k JNull = dict_get settings' k JNull) as Ek.
  { intros k Nk. unfold dict_get, settings'.
    destruct (media && _); [by rewrite lookup_insert_ne|done]. }
  assert (match settings !! "disable_export" with
          | Some v => v
          | None => JBool media
          end = dict_get settings' "disable_export" (JBool false)) as Ed'.
  { unfold dict_get, settings'.
    destruct (settings !! "disable_export") as [v|] eqn:Ev.
    - rewrite bool_decide_eq_true_2 by eauto. rewrite andb_false_r.
      by rewrite Ev.
    - rewrite bool_decide_eq_false_2 by by intros [??].
      rewrite andb_true_r. destruct media.
      + by rewrite lookup_insert_eq.
      + by rewrite Ev. }
  eexists _, _, envelope. cbn [created store_after].
  split; [done|]. split; [reflexivity|]. split; [done|].
  do 10 (split; [done|]).
  rewrite (Ek "expiration_time"), (Ek "max_access_count"),
    (Ek "deadman_switch"), Ed' by done.
  done.
Qed.

(** The document [create_secure_file] stores names no file. *)
Lemma create_secure_file_file_path st content filename password
    (settings : gmap string json) file_id e now (o : gmap string json) :
  store_after (create_secure_file st content filename password settings
                 file_id e now) = write_metadata st file_id (JObj o) →
  file_path_elsewhere o.
Proof.
  unfold create_secure_file.
  destruct (encrypt_file_content_decrypts content password e now)
    as (envelope & Ee & _).
  destruct (encrypt_file_content content password e now) as [r e'].
  cbn [fst] in Ee. subst r. cbn [store_after]. intros E.
  apply (f_equal (λ s, metadata_directory s !! file_id)) in E.
  cbn in E. rewrite !lookup_insert_eq in E. injection E as <-.
  by intros file_path.
Qed.

Lemma describes_accessed (o : gmap string json) p last_accessed c now :
  describes o p last_accessed c →
  describes (accessed o now c) p now (c + 1).
Proof.
  intros [Hf Hs Hl Hc]. unfold accessed. split.
  - by rewrite !lookup_insert_ne.
  - destruct Hs as (sec & ve & vm & vd & Hsec & R).
    exists sec, ve, vm, vd. by rewrite !lookup_insert_ne.
  - eexists. rewrite lookup_insert_ne, lookup_insert_eq by done.
    split; [done|]. eexists. split; [done|]. apply fromisoformat_isoformat.
  - by rewrite lookup_insert_eq.
Qed.

(** A successful call of [access_file] on a stored entry. *)
Lemma access_file_described st file_id (o : gmap string json) p last_accessed
    c encryption password content now :
  metadata_directory st !! file_id = Some (JObj o) →
  describes o p last_accessed c → limits_nonzero p →
  must_destroy p now last_accessed c = false →
  o !! "encryption" = Some encryption →
  decrypt_file_content encryption password = Ok content →
  is_Some (o !! "filename") →
  ∃ st',
    access_file st file_id password now =
      (Ok (content, JObj (accessed o now c)), st') ∧
    metadata_directory st' =
      <[file_id := JObj (accessed o now c)]> (metadata_directory st) ∧
    blacklist_directory st' = blacklist_directory st.
Proof.
  intros Est D N M Ee Ed [fn Ef].
  pose proof (check_security_constraints_describes o p last_accessed c now D N)
    as Ec. rewrite M in Ec. cbn [negb] in Ec.
  destruct D as [_ (sec & ve & vm & vd & Es & _ & _ & Em & Hm & _) _ Ea].
  unfold access_file. rewrite Est, Ec, contains_obj.
  assert (∃ o0 : gmap string json,
    (if bool_decide (is_Some (o !! "failed_password_attempts"))
     then Ok (JObj o)
     else setitem (JObj o) "failed_password_attempts" (JInt 0)) = Ok (JObj o0) ∧
    o0 !! "encryption" = Some encryption ∧
    <["failed_password_attempts" := JInt 0]> o0 =
    <["failed_password_attempts" := JInt 0]> o)
    as (o0 & E0 & Ee0 & Eo).
  { case_bool_decide.
    - by exists o.
    - exists (<["failed_password_attempts" := JInt 0]> o).
      rewrite lookup_insert_ne by done.
      split; [done|]. split; [done|]. apply insert_insert_eq. }
  py_run. rewrite E0.
  rewrite (getitem_obj _ _ _ Ee0). py_run. rewrite Ed.
  unfold successful_access. cbn [setitem]. py_run. rewrite Eo.
  cbn [setitem]. py_run.
  rewrite (getitem_obj _ "access_count" (JInt c))
    by by rewrite !lookup_insert_ne.
  py_run. cbn [add1 as_int setitem]. py_run. fold (accessed o now c).
  rewrite (getitem_obj (accessed o now c) "security" (JObj sec))
    by by unfold accessed; rewrite !lookup_insert_ne.
  py_run. rewrite (getitem_obj _ _ _ Em). py_run.
  rewrite (getitem_obj (accessed o now c) "access_count" (JInt (c + 1)))
    by by unfold accessed; rewrite lookup_insert_eq.
  rewrite (getitem_obj (accessed o now c) "filename" fn)
    by by unfold accessed; rewrite !lookup_insert_ne.
  assert (∃ reached,
    (if truthy vm then Ok (JInt (c + 1)) ≫= λ count, ge count vm
     else Ok false) = Ok reached) as [reached ->].
  { destruct (max_access_count p); simpl in Hm.
    - unfold is_int in Hm. subst vm. cbn [truthy]. destruct (negb _); eauto.
    - subst vm. eauto. }
  eexists. split; [reflexivity|]. by destruct reached.
Qed.

(** X3.  An entry made by [create_secure_file] can be read back: while no
    constraint of its policy is violated, [access_file] with the same
    password returns the content that was stored, and the entry then
    counts one access. *)
Theorem create_then_access st content filename password
    (settings : gmap string json) p file_id e now later :
  settings_describe settings p → limits_nonzero p →
  must_destroy p later now 0 = false →
  let c := create_secure_file st content filename password settings file_id
             e now in
  created c = Ok file_id ∧
  ∃ metadata st',
    access_file (store_after c) file_id password later =
      (Ok (content, JObj metadata), st') ∧
    metadata !! "filename" = Some (JStr filename) ∧
    metadata !! "access_count" = Some (JInt 1) ∧
    metadata_directory st' !! file_id = Some (JObj metadata).
Proof.
  intros (De & Dm & Dd) N M c.
  destruct (create_secure_file_stores st content filename password settings
              file_id e now)
    as (metadata & security & envelope & Ec & Est & Ed & Hid & Hfn & _ & Hla &
        Hac & _ & Hsec & Henc & _ & _ & He & Hm & Hd & _).
  fold c in Ec, Est. split; [done|].
  assert (describes metadata p now 0) as D.
  { split; [eauto| | |done].
    - exists security, (dict_get settings "expiration_time" JNull),
        (dict_get settings "max_access_count" JNull),
        (dict_get settings "deadman_switch" JNull). by repeat split.
    - eexists. split; [done|]. eexists. split; [done|].
      apply fromisoformat_isoformat. }
  assert (metadata_directory (store_after c) !! file_id = Some (JObj metadata))
    as Elook by (rewrite Est; apply lookup_insert_eq).
  assert (is_Some (metadata !! "filename")) as Ifn by eauto.
  destruct (access_file_described (store_after c) file_id metadata p now 0
              (JObj envelope) password content later Elook D N M Henc Ed Ifn)
    as (st' & Ea & Em & _).
  exists (accessed metadata later 0), st'. split; [done|].
  unfold accessed. rewrite !lookup_insert_ne, lookup_insert_eq by done.
  split; [done|]. split; [done|]. rewrite Em. apply lookup_insert_eq.
Qed.

End LifecycleTheorems.


(** ** The blacklist only grows *)

Section BlacklistTheorems.
Context `{Primitives} `{OsRoutines} `{FileSystem}.
Import EncryptionManager FileManager Spec.

Lemma grows_refl (b : gmap string json) : grows b b.
Proof. by left. Qed.

Lemma add_to_blacklist_grows st metadata now :
  grows (blacklist_directory st)
        (blacklist_directory (_add_to_blacklist st metadata now).2).
Proof.
  unfold _add_to_blacklist.
  destruct (blacklist_hash metadata) as [content_hash|]; py_run;
    [|apply grows_refl].
  destruct (truthy content_hash) eqn:T; cbn [negb]; [|apply grows_refl].
  destruct (get metadata "filename" (JStr "unknown")) as [filename|]; py_run;
    [|apply grows_refl].
  destruct (get metadata "file_id" (JStr "unknown")) as [file_id|]; py_run;
    [|apply grows_refl].
  destruct (get metadata "creation_time" JNull) as [creation_time|]; py_run;
    [|apply grows_refl].
  destruct content_hash as [| | |h|]; cbn [safe_hash_value]; py_run;
    try apply grows_refl.
  destruct (fits (safe_hash h)) eqn:F; [|apply grows_refl].
  rewrite fits_safe_hash in F.
  right. eexists h, _. split; [|split; [done|split; [|reflexivity]]].
  - intros ->. done.
  - done.
Qed.

(** *** Stores in good order *)

Lemma safe_json_setitem metadata k v metadata' :
  k ≠ "file_path" → k ≠ "file_id" →
  setitem metadata k v = Ok metadata' →
  safe_json metadata → safe_json metadata'.
Proof.
  intros N1 N2 E S. destruct metadata as [| | | |o]; try done.
  injection E as <-. intros o' [= <-].
  destruct (S o eq_refl) as [P I]. split.
  - intros file_path. rewrite lookup_insert_ne by done. apply P.
  - intros file_id. rewrite lookup_insert_ne by done. apply I.
Qed.

Lemma tidy_shrink st st' :
  (∀ k, metadata_directory st' !! k = None ∨
        metadata_directory st' !! k = metadata_directory st !! k) →
  threads st' = threads st →
  tidy st → tidy st'.
Proof.
  intros Hm Ht [Tn Td Tt]. split.
  - intros name [m E]. apply Tn.
    destruct (Hm name) as [E'|E']; rewrite E' in E; [done|eauto].
  - intros name m E. apply (Td name).
    by destruct (Hm name) as [E'|E']; rewrite E' in E.
  - by rewrite Ht.
Qed.

Lemma tidy_write st file_id metadata :
  is_stem file_id = true → safe_json metadata →
  tidy st → tidy (write_metadata st file_id metadata).
Proof.
  intros Si Sm [Tn Td Tt]. split; [| |done].
  - intros name. cbn. destruct (decide (file_id = name)) as [<-|N]; [done|].
    rewrite lookup_insert_ne by done. apply Tn.
  - intros name m. cbn. destruct (decide (file_id = name)) as [<-|N].
    + rewrite lookup_insert_eq. by intros [= <-].
    + rewrite lookup_insert_ne by done. apply Td.
Qed.

Lemma tidy_start st file_id :
  is_stem file_id = true → tidy st → tidy (start_thread st file_id).
Proof.
  intros Si [Tn Td Tt]. split; [done|done|].
  cbn. apply Forall_app. split; [done|]. by apply Forall_singleton.
Qed.

(** On a store in good order [_secure_delete_file] takes nothing off the
    blacklist and touches no other entry. *)
Lemma secure_delete_file_tidy st file_id now :
  tidy st →
  tidy (_secure_delete_file st file_id now).2 ∧
  grows (blacklist_directory st)
        (blacklist_directory (_secure_delete_file st file_id now).2) ∧
  ∀ k, k ≠ file_id →
    metadata_directory (_secure_delete_file st file_id now).2 !! k =
    metadata_directory st !! k.
Proof.
  intros T. split.
  { apply (tidy_shrink st); [|apply secure_delete_file_threads|done].
    intros k. apply secure_delete_file_lookup. }
  unfold _secure_delete_file.
  destruct (String.eqb file_id ""); [by split; [apply grows_refl|]|].
  destruct (metadata_directory st !! file_id) as [metadata|] eqn:E;
    [|by split; [apply grows_refl|]].
  cbn [snd remove_metadata blacklist_directory metadata_directory].
  destruct metadata as [| | | |o]; cbn [get];
    try (split; [apply grows_refl|intros k Nk; by apply lookup_delete_ne]).
  destruct (tidy_documents st T file_id _ E o eq_refl) as [P _].
  rewrite shred_file_path_elsewhere by done.
  split; [apply add_to_blacklist_grows|].
  intros k Nk. rewrite lookup_delete_ne by done.
  by rewrite add_to_blacklist_metadata.
Qed.

Lemma access_file_tidy st file_id password now :
  is_stem file_id = true → tidy st →
  tidy (access_file st file_id password now).2 ∧
  grows (blacklist_directory st)
        (blacklist_directory (access_file st file_id password now).2) ∧
  ∀ k, k ≠ file_id →
    metadata_directory (access_file st file_id password now).2 !! k =
    metadata_directory st !! k.
Proof.
  intros Si T. unfold access_file.
  assert (∀ metadata, safe_json metadata →
    let st' := write_metadata st file_id metadata in
    tidy st' ∧ grows (blacklist_directory st) (blacklist_directory st') ∧
    ∀ k, k ≠ file_id →
      metadata_directory st' !! k = metadata_directory st !! k) as Hw.
  { intros metadata S. split; [by apply tidy_write|].
    split; [apply grows_refl|]. intros k Nk. cbn. by rewrite lookup_insert_ne. }
  assert (tidy st ∧ grows (blacklist_directory st) (blacklist_directory st) ∧
          ∀ k, k ≠ file_id →
            metadata_directory st !! k = metadata_directory st !! k) as Hs
    by (split; [done|split; [apply grows_refl|done]]).
  destruct (metadata_directory st !! file_id) as [metadata|] eqn:E; [|done].
  pose proof (tidy_documents st T file_id _ E) as Sm.
  destruct (_check_security_constraints metadata now) as [[]|];
    [|by apply secure_delete_file_tidy|done].
  destruct (contains metadata "failed_password_attempts") as [has|]; py_run;
    [|done].
  assert (∀ metadata',
            (if has then Ok metadata
             else setitem metadata "failed_password_attempts" (JInt 0))
            = Ok metadata' → safe_json metadata') as S0.
  { intros metadata'. destruct has; [by intros [= <-]|].
    intros E0. by apply (safe_json_setitem metadata _ _ _) in E0. }
  destruct (if has then _ else _) as [metadata'|]; [|done].
  specialize (S0 metadata' eq_refl).
  destruct (_ ≫= _) as [file_content|[]]; try done.
  - unfold successful_access.
    destruct (setitem metadata' "failed_password_attempts" (JInt 0))
      as [m1|] eqn:E1; py_run; [|done].
    destruct (setitem m1 "last_accessed" (JStr (isoformat now)))
      as [m2|] eqn:E2; py_run; [|done].
    destruct (getitem m2 "access_count") as [count|]; py_run; [|done].
    destruct (add1 count) as [count'|]; py_run; [|done].
    destruct (setitem m2 "access_count" (JInt count')) as [m3|] eqn:E3;
      [|done].
    assert (safe_json m3) as S3.
    { apply (safe_json_setitem _ _ _ _) in E1; [|done..].
      apply (safe_json_setitem _ _ _ _) in E2; [|done..].
      by apply (safe_json_setitem _ _ _ _) in E3. }
    destruct (Hw m3 S3) as (T3 & G3 & F3).
    destruct (_ ≫= _) as [[]|];
      destruct (getitem m3 "filename"); cbn [snd]; try done;
      (split; [by apply tidy_start|done]).
  - unfold failed_attempt.
    destruct (getitem metadata' "failed_password_attempts") as [a|]; py_run;
      [|done].
    destruct (add1 a) as [attempts|]; py_run; [|done].
    destruct (setitem metadata' "failed_password_attempts" (JInt attempts))
      as [m1|] eqn:E1; py_run; [|done].
    apply (safe_json_setitem _ _ _ _) in E1; [|done..].
    destruct (Hw m1 E1) as (T1 & G1 & F1).
    destruct (max_failed_attempts <=? attempts); [|done].
    destruct (secure_delete_file_tidy (write_metadata st file_id m1) file_id
                now T1) as (Td & Gd & Fd).
    split; [done|]. split; [done|].
    intros k Nk. rewrite Fd by done. by apply F1.
Qed.

Lemma monitor_file_tidy st name now :
  tidy st →
  tidy (monitor_file st name now) ∧
  grows (blacklist_directory st)
        (blacklist_directory (monitor_file st name now)).
Proof.
  intros T. unfold monitor_file.
  destruct (metadata_directory st !! name) as [metadata|];
    [|by split; [|apply grows_refl]].
  destruct (_check_security_constraints metadata now) as [[]|];
    try by split; [|apply grows_refl].
  destruct (getitem metadata "file_id") as [[| | |file_id|]|];
    try by split; [|apply grows_refl].
  destruct (secure_delete_file_tidy st file_id now T) as (Td & Gd & _).
  by split.
Qed.

(** The document [create_secure_file] stores. *)
Lemma create_secure_file_safe st content filename password
    (settings : gmap string json) file_id e now :
  is_stem file_id = true → tidy st →
  tidy (store_after (create_secure_file st content filename password settings
                       file_id e now)).
Proof.
  intros Si T. unfold create_secure_file.
  destruct (encrypt_file_content content password e now) as [[envelope|] e'];
    [|done].
  cbn [store_after]. apply tidy_write; [done| |done].
  intros o [= <-]. split.
  - by intros file_path.
  - intros v. by intros [= <-].
Qed.

(** The document [import_portable_file] stores. *)
Lemma import_body_safe st portable_data password file_id now metadata :
  is_stem file_id = true →
  import_body st portable_data password file_id now = Ok metadata →
  safe_json metadata.
Proof.
  intros Si. unfold import_body.
  repeat (match goal with
          | |- (?m ≫= _) = Ok _ → _ =>
              destruct m as [?|]; [py_run|done]
          | |- (if ?b then _ else _) = Ok _ → _ => destruct b; [done|]
          | |- (let (_, _) := ?x in _) = Ok _ → _ => destruct x
          end).
  intros [= <-] o [= <-]. split.
  - by intros file_path.
  - intros v. by intros [= <-].
Qed.

(** The document [import_file] stores, and the name it stores it
    under. *)
Lemma import_file_tidy st metadata fresh_id :
  safe_json metadata → is_stem fresh_id = true → tidy st →
  tidy (import_file st metadata fresh_id).2.
Proof.
  intros Sm Sf T. unfold import_file, import_file_body.
  destruct (contains metadata "file_id") as [has_id|]; [|done]. py_run.
  destruct (if has_id then _ else _) as [has_encryption|]; [|done]. py_run.
  destruct (negb _); [done|].
  destruct (getitem metadata "file_id") as [file_id|] eqn:Ef; [|done]. py_run.
  destruct (metadata_directory st !! format_value file_id).
  - destruct (setitem metadata "file_id" (JStr fresh_id)) as [m1|] eqn:E1;
      [|done].
    cbn [snd]. apply tidy_write; [done| |done].
    destruct metadata as [| | | |o]; try done. injection E1 as <-.
    intros o' [= <-]. destruct (Sm o eq_refl) as [P _]. split.
    + intros file_path. rewrite lookup_insert_ne by done. apply P.
    + intros v. rewrite lookup_insert_eq. by intros [= <-].
  - cbn [snd]. apply tidy_write; [|done..].
    destruct metadata as [| | | |o]; try done.
    destruct (Sm o eq_refl) as [_ I]. apply I.
    cbn [getitem] in Ef. by destruct (o !! "file_id") as [v|]; simplify_eq.
Qed.

Lemma safe_json_update_setting metadata setting metadata' :
  update_setting metadata setting = Ok metadata' →
  safe_json metadata → safe_json metadata'.
Proof.
  unfold update_setting.
  destruct (getitem metadata "security") as [security|]; [|done]. py_run.
  destruct (contains security setting.1) as [[]|]; [|by intros [= <-]|done].
  py_run. destruct (setitem security setting.1 setting.2) as [security'|];
    [|done].
  py_run. intros E S.
  by apply (safe_json_setitem metadata "security" security' metadata').
Qed.

Lemma safe_json_update_settings settings :
  ∀ metadata metadata',
    update_settings metadata settings = Ok metadata' →
    safe_json metadata → safe_json metadata'.
Proof.
  induction settings as [|setting settings IH]; intros metadata metadata'.
  - by intros [= <-].
  - cbn [update_settings].
    destruct (update_setting metadata setting) as [m1|] eqn:E1; [|done].
    py_run. intros E S. apply (IH m1); [done|].
    by apply (safe_json_update_setting metadata setting).
Qed.

(** A call keeps a store in good order, and takes nothing off its
    blacklist. *)
Lemma step_tidy st st' :
  step st st' → tidy st →
  tidy st' ∧ grows (blacklist_directory st) (blacklist_directory st').
Proof.
  intros S T.
  destruct S as [st content filename password settings file_id e now Si
                |st file_id password now Si
                |st file_id Si
                |st file_id now Si
                |st portable_data password file_id now Si
                |st metadata fresh_id Sm Sf
                |st file_id settings Si
                |st name now Si
                |st i now].
  - split; [by apply create_secure_file_safe|].
    unfold create_secure_file.
    destruct (encrypt_file_content _ _ _ _) as [[]?]; apply grows_refl.
  - destruct (access_file_tidy st file_id password now Si T) as (Ta & Ga & _).
    by split.
  - unfold delete_file, _delete_file.
    destruct (metadata_directory st !! file_id);
      (split; [|apply grows_refl]); [|done].
    apply (tidy_shrink st); [|done..]. intros k. cbn.
    destruct (decide (file_id = k)) as [->|N].
    + left. apply lookup_delete_eq.
    + right. by apply lookup_delete_ne.
  - destruct (secure_delete_file_tidy st file_id now T) as (Td & Gd & _).
    by split.
  - unfold import_portable_file.
    destruct (import_body _ _ _ _ _) as [metadata|] eqn:E;
      (split; [|apply grows_refl]); [|done].
    apply tidy_write; [done| |done].
    by apply (import_body_safe st portable_data password file_id now).
  - split; [by apply import_file_tidy|].
    unfold import_file.
    destruct (import_file_body _ _ _) as [[[??]?]|]; apply grows_refl.
  - unfold update_security_settings.
    destruct (metadata_directory st !! file_id) as [metadata|] eqn:E;
      [|by split; [|apply grows_refl]].
    destruct (update_settings _ _) as [metadata'|] eqn:Eu;
      (split; [|apply grows_refl]); [|done].
    apply tidy_write; [done| |done].
    apply (safe_json_update_settings _ _ _ Eu).
    by apply (tidy_documents st T file_id).
  - by apply monitor_file_tidy.
  - unfold run_thread. destruct (threads st !! i) as [file_id|] eqn:Ei;
      [|by split; [|apply grows_refl]].
    destruct (secure_delete_file_tidy st file_id now T)
      as ([Tn Td Tt] & G & _).
    split; [|done]. split; [done|done|]. cbn.
    by apply Forall_delete.
Qed.

Lemma steps_tidy st st' : steps st st' → tidy st → tidy st'.
Proof.
  induction 1 as [st|st st' st'' S _ IH]; [done|].
  intros T. apply IH. by apply (step_tidy st).
Qed.

Lemma grows_kept (b b' : gmap string json) name :
  grows b b' → is_Some (b !! name) → is_Some (b' !! name).
Proof.
  intros [->|(h & entry & _ & _ & _ & ->)] I; [done|].
  destruct (decide (safe_hash h = name)) as [<-|N].
  - rewrite lookup_insert_eq. eauto.
  - by rewrite lookup_insert_ne.
Qed.

Lemma is_blacklisted_step st st' content_hash :
  step st st' → tidy st →
  _is_blacklisted st content_hash = true →
  _is_blacklisted st' content_hash = true.
Proof.
  intros S T. unfold _is_blacklisted.
  destruct (safe_hash_value content_hash) as [name|]; [|done].
  rewrite !bool_decide_eq_true.
  apply grows_kept. by apply step_tidy.
Qed.

Lemma is_blacklisted_steps st st' content_hash :
  steps st st' → tidy st →
  _is_blacklisted st content_hash = true →
  _is_blacklisted st' content_hash = true.
Proof.
  induction 1 as [st|st st' st'' S _ IH]; [done|].
  intros T B. apply IH.
  - by apply (step_tidy st).
  - by apply (is_blacklisted_step st).
Qed.

(** X4.  On a store in good order (the files of the metadata directory
    named by stems, no document naming a file of the vault as its
    [file_path]), no call takes a record off the blacklist: a content
    hash that is blacklisted stays blacklisted through any sequence of
    creations, accesses, deletions, imports, updates, looks of the
    monitor and deletion threads whose ids are stems of file names, and
    the store stays in good order. *)
Theorem blacklist_is_permanent st st' content_hash :
  tidy st →
  steps st st' →
  _is_blacklisted st content_hash = true →
  _is_blacklisted st' content_hash = true ∧ tidy st'.
Proof.
  intros T S. revert T.
  induction S as [st|st st' st'' S _ IH]; [done|].
  intros T B. destruct (step_tidy st st' S T) as [T' G].
  apply IH; [done|]. by apply (is_blacklisted_step st).
Qed.

Lemma safe_hash_nonempty h : h ≠ "" → safe_hash h ≠ "".
Proof. by destruct h. Qed.

(** X5.  The calls keep the blacklist directory well filed: if every
    record lies under the safe form of the content hash it carries, a
    hash that is not empty, in a file whose name is not too long, this
    is still so after any sequence of calls on a store in good order.
    So the empty hash is never blacklisted, and neither is a hash of
    more than 250 ASCII characters: content that carries one is never
    refused. *)
Theorem blacklist_stays_filed st st' :
  tidy st →
  steps st st' →
  blacklist_filed st →
  blacklist_filed st' ∧ _is_blacklisted st' (JStr "") = false ∧
  ∀ h, ascii_text h = true → fits h = false →
       _is_blacklisted st' (JStr h) = false.
Proof.
  intros T S F.
  assert (blacklist_filed st') as F'.
  { revert T F. induction S as [st|st st' st'' S _ IH]; [done|].
    intros T F. destruct (step_tidy st st' S T) as [T' G].
    apply IH; [done|].
    destruct G as [E|(h & entry & N & Fh & E & Eb)];
      intros name record; rewrite ?E, ?Eb; [apply F|].
    destruct (decide (safe_hash h = name)) as [<-|Nn].
    - rewrite lookup_insert_eq. intros [= <-].
      exists h, entry. by rewrite fits_safe_hash.
    - rewrite lookup_insert_ne by done. apply F. }
  split; [done|]. split.
  - unfold _is_blacklisted. cbn [safe_hash_value safe_hash].
    apply bool_decide_eq_false_2. intros [record E].
    destruct (F' _ _ E) as (h & entry & _ & _ & N & _ & Es).
    by apply (safe_hash_nonempty h).
  - intros h _ Fh. unfold _is_blacklisted. cbn [safe_hash_value].
    apply bool_decide_eq_false_2. intros [record E].
    destruct (F' _ _ E) as (h' & entry & _ & _ & _ & Fh' & _).
    rewrite fits_safe_hash in Fh'. congruence.
Qed.

End BlacklistTheorems.

(** ** Failed attempts, expiry and destruction *)

Section AttemptTheorems.
Context `{PrimitivesLaws} `{OsRoutines} `{FileSystem}.
Import EncryptionManager FileManager Spec.

Lemma describes_failed (o : gmap string json) v p last_accessed c :
  describes o p last_accessed c →
  describes (<["failed_password_attempts" := v]> o) p last_accessed c.
Proof.
  intros [Hf Hs Hl Hc]. split.
  - by rewrite lookup_insert_ne.
  - destruct Hs as (sec & ve & vm & vd & Hsec & R).
    exists sec, ve, vm, vd. by rewrite lookup_insert_ne.
  - by rewrite lookup_insert_ne.
  - by rewrite lookup_insert_ne.
Qed.

(** A rejected password below the threshold. *)
Lemma access_file_rejected st file_id (o : gmap string json) p last_accessed c
    encryption password now n :
  metadata_directory st !! file_id = Some (JObj o) →
  describes o p last_accessed c → limits_nonzero p →
  must_destroy p now last_accessed c = false →
  o !! "encryption" = Some encryption →
  wrong_password encryption password →
  attempts_on_record o n → n + 1 < max_failed_attempts →
  access_file st file_id password now =
    (Raise (AuthenticationError (max_failed_attempts - (n + 1))),
     write_metadata st file_id
       (JObj (<["failed_password_attempts" := JInt (n + 1)]> o))).
Proof.
  intros Est D N M Ee W A L.
  pose proof (check_security_constraints_describes o p last_accessed c now D N)
    as Ec. rewrite M in Ec.
  rewrite (access_file_wrong_password st file_id o encryption password now n)
    by done.
  by rewrite (proj2 (Z.leb_gt _ _)) by done.
Qed.

(** X6.  The failed attempts that count are the consecutive ones: two
    rejected passwords, then the right one, then two rejected passwords
    again leave the entry in place; the right password sets the counter
    back, so the fourth call reports two attempts remaining. *)
Theorem failed_attempts_are_consecutive st file_id (o : gmap string json) p
    last_accessed c encryption password guess content t1 t2 t3 t4 t5 :
  metadata_directory st !! file_id = Some (JObj o) →
  describes o p last_accessed c → limits_nonzero p →
  attempts_on_record o 0 →
  o !! "encryption" = Some encryption →
  is_Some (o !! "filename") →
  decrypt_file_content encryption password = Ok content →
  wrong_password encryption guess →
  must_destroy p t1 last_accessed c = false →
  must_destroy p t2 last_accessed c = false →
  must_destroy p t3 last_accessed c = false →
  must_destroy p t4 t3 (c + 1) = false →
  must_destroy p t5 t3 (c + 1) = false →
  let r1 := access_file st file_id guess t1 in
  let r2 := access_file r1.2 file_id guess t2 in
  let r3 := access_file r2.2 file_id password t3 in
  let r4 := access_file r3.2 file_id guess t4 in
  let r5 := access_file r4.2 file_id guess t5 in
  r1.1 = Raise (AuthenticationError 2) ∧
  r2.1 = Raise (AuthenticationError 1) ∧
  (∃ metadata, r3.1 = Ok (content, metadata)) ∧
  r4.1 = Raise (AuthenticationError 2) ∧
  r5.1 = Raise (AuthenticationError 1) ∧
  is_Some (metadata_directory r5.2 !! file_id) ∧
  blacklist_directory r5.2 = blacklist_directory st.
Proof.
  intros Est D N A Ee If Ed W M1 M2 M3 M4 M5.
  set (o1 := <["failed_password_attempts" := JInt 1]> o).
  set (o2 := <["failed_password_attempts" := JInt 2]> o1).
  set (o3 := accessed o2 t3 c).
  set (o4 := <["failed_password_attempts" := JInt 1]> o3).
  set (o5 := <["failed_password_attempts" := JInt 2]> o4).
  assert (access_file st file_id guess t1 =
            (Raise (AuthenticationError 2),
             write_metadata st file_id (JObj o1))) as E1.
  { by rewrite (access_file_rejected st file_id o p last_accessed c
                  encryption guess t1 0). }
  set (st1 := write_metadata st file_id (JObj o1)) in *.
  assert (describes o1 p last_accessed c) as D1 by by apply describes_failed.
  assert (access_file st1 file_id guess t2 =
            (Raise (AuthenticationError 1),
             write_metadata st1 file_id (JObj o2))) as E2.
  { rewrite (access_file_rejected st1 file_id o1 p last_accessed c
               encryption guess t2 1); try done.
    - apply lookup_insert_eq.
    - unfold o1. by rewrite lookup_insert_ne.
    - left. apply lookup_insert_eq. }
  set (st2 := write_metadata st1 file_id (JObj o2)) in *.
  assert (describes o2 p last_accessed c) as D2 by by apply describes_failed.
  destruct (access_file_described st2 file_id o2 p last_accessed c encryption
              password content t3) as (st3 & E3 & Em3 & Eb3); try done.
  { apply lookup_insert_eq. }
  { unfold o2, o1. by rewrite !lookup_insert_ne. }
  { unfold o2, o1. by rewrite !lookup_insert_ne. }
  fold o3 in E3, Em3.
  assert (describes o3 p t3 (c + 1)) as D3
    by apply (describes_accessed o2 p last_accessed c t3 D2).
  assert (o3 !! "encryption" = Some encryption) as Ee3.
  { unfold o3, accessed, o2, o1. by rewrite !lookup_insert_ne. }
  assert (access_file st3 file_id guess t4 =
            (Raise (AuthenticationError 2),
             write_metadata st3 file_id (JObj o4))) as E4.
  { rewrite (access_file_rejected st3 file_id o3 p t3 (c + 1)
               encryption guess t4 0); try done.
    - rewrite Em3. apply lookup_insert_eq.
    - left. unfold o3, accessed.
      rewrite !lookup_insert_ne by done. apply lookup_insert_eq. }
  set (st4 := write_metadata st3 file_id (JObj o4)) in *.
  assert (describes o4 p t3 (c + 1)) as D4 by by apply describes_failed.
  assert (access_file st4 file_id guess t5 =
            (Raise (AuthenticationError 1),
             write_metadata st4 file_id (JObj o5))) as E5.
  { rewrite (access_file_rejected st4 file_id o4 p t3 (c + 1)
               encryption guess t5 1); try done.
    - apply lookup_insert_eq.
    - unfold o4. by rewrite lookup_insert_ne.
    - left. apply lookup_insert_eq. }
  intros r1 r2 r3 r4 r5. subst r1 r2 r3 r4 r5.
  rewrite E1. cbn [fst snd]. rewrite E2. cbn [fst snd].
  rewrite E3. cbn [fst snd]. rewrite E4. cbn [fst snd].
  rewrite E5. cbn [fst snd].
  split; [done|]. split; [done|]. split; [eauto|].
  split; [done|]. split; [done|]. split.
  - cbn. rewrite lookup_insert_eq. eauto.
  - cbn. by rewrite Eb3.
Qed.

Lemma must_destroy_later p now later last_accessed c :
  now ≤ later →
  must_destroy p now last_accessed c = true →
  must_destroy p later last_accessed c = true.
Proof.
  intros L. unfold must_destroy, expired, exhausted, deadman_triggered.
  rewrite !orb_true_iff. intros [[E|E]|E]; [left; left|left; by right|right].
  - destruct (expiration_time p); [|done]. apply Z.ltb_lt in E.
    apply Z.ltb_lt. lia.
  - destruct (deadman_switch_days p); [|done]. apply Z.ltb_lt in E.
    apply Z.ltb_lt.
    assert ((now - last_accessed) / DAY ≤ (later - last_accessed) / DAY)
      by (apply Z.div_le_mono; [done|lia]).
    lia.
Qed.

(** X7.  An entry that is due (expired, access limit reached, or
    dead-man period exceeded) stays due at every later time, and the
    first call that touches it destroys it: [access_file] refuses with
    the policy error for every password, the right one included, and a
    turn of the monitor does the same; either leaves the entry gone, and
    filed in the blacklist when the name of the record fits.  With a
    hash of ASCII text too long for a file name the entry goes all the
    same and the blacklist is left as it was. *)
Theorem due_entry_is_destroyed st file_id (o envelope : gmap string json) p
    last_accessed c now later :
  file_id ≠ "" →
  metadata_directory st !! file_id = Some (JObj o) →
  o !! "file_id" = Some (JStr file_id) →
  describes o p last_accessed c → limits_nonzero p →
  content_hash_typed o → o !! "encryption" = Some (JObj envelope) →
  file_path_elsewhere o →
  must_destroy p now last_accessed c = true →
  now ≤ later →
  let h := filing_hash o (JObj envelope) in
  must_destroy p later last_accessed c = true ∧
  ∃ st',
    (∀ password,
       access_file st file_id password later = (Raise PolicyError, st')) ∧
    monitor_file st file_id later = st' ∧
    metadata_directory st' !! file_id = None ∧
    (fits h = true → _is_blacklisted st' (JStr h) = true) ∧
    (ascii_text h = true → fits h = false →
     blacklist_directory st' = blacklist_directory st).
Proof.
  intros N Est Eid D Nz T Ee P M L h.
  pose proof (must_destroy_later p now later last_accessed c L M) as M'.
  split; [done|].
  pose proof (check_security_constraints_describes o p last_accessed c later
                D Nz) as Ec.
  rewrite M' in Ec. cbn [negb] in Ec.
  destruct (secure_delete_file_filed st file_id o envelope later N Est Ee T P)
    as (_ & Hfit & Hlong). fold h in Hfit, Hlong.
  exists (_secure_delete_file st file_id later).2.
  split; [|split; [|split; [|split]]].
  - intros password. unfold access_file. by rewrite Est, Ec.
  - unfold monitor_file. by rewrite Est, Ec, (getitem_obj _ _ _ Eid).
  - by apply secure_delete_file_gone.
  - intros F. destruct (Hfit F) as (record & _ & ->).
    apply is_blacklisted_written.
  - intros _ F. by rewrite (Hlong F).
Qed.

Lemma blacklist_hash_content (o : gmap string json) h :
  o !! "content_hash" = Some (JStr h) → h ≠ "" →
  blacklist_hash (JObj o) = Ok (JStr h).
Proof.
  intros E N. unfold blacklist_hash. rewrite (get_obj_some _ _ _ _ E).
  py_run. rewrite contains_obj. py_run. by rewrite (truthy_str _ N).
Qed.

(** X8.  What an import brought in and a violation destroyed cannot be
    imported again: once an entry with a content hash that fits a file
    name is destroyed, [import_portable_file] refuses every portable
    record that carries this hash, for every password, after any
    sequence of further calls on the store, and stores nothing.  The
    store is in good order when the entry is destroyed. *)
Theorem destroyed_content_stays_out st file_id (o : gmap string json) h now
    st' (portable_data : gmap string json) marker password new_id later :
  tidy st →
  file_id ≠ "" →
  metadata_directory st !! file_id = Some (JObj o) →
  o !! "content_hash" = Some (JStr h) → h ≠ "" → fits h = true →
  steps (_secure_delete_file st file_id now).2 st' →
  portable_data !! "bar_portable_file" = Some marker →
  truthy marker = true →
  portable_data !! "content_hash" = Some (JStr h) →
  import_portable_file st' (JObj portable_data) password new_id later =
    (Raise BlacklistedError, st').
Proof.
  intros T N Est Eh Nh F S Em Tm Ep.
  destruct (tidy_documents st T file_id _ Est o eq_refl) as [P _].
  assert (_is_blacklisted (_secure_delete_file st file_id now).2 (JStr h)
          = true) as B.
  { destruct (add_to_blacklist_typed st o now h
                (blacklist_hash_content o h Eh Nh) Nh F) as (entry & Ea & _).
    rewrite (secure_delete_file_obj st file_id o now N Est P), Ea.
    apply is_blacklisted_written. }
  assert (_is_blacklisted st' (JStr h) = true) as B'.
  { apply (is_blacklisted_steps _ _ _ S); [|done].
    by apply secure_delete_file_tidy. }
  unfold import_portable_file, import_body.
  rewrite (get_obj_some _ _ _ _ Em). py_run. rewrite Tm. cbn [negb].
  rewrite (get_obj_some _ _ _ _ Ep). py_run.
  by rewrite B', (truthy_str _ Nh).
Qed.

(** X29.  The file a document names as its [file_path] goes with the
    entry, a file of the vault included.  When [_secure_delete_file]
    destroys an entry whose [file_path] leads to the metadata file of
    another entry, that entry is gone as well; when it leads to a record
    of the blacklist, that record is gone, the one just written for the
    entry itself included, and the hash it stood for is not blacklisted
    any more; when it leads elsewhere, the two directories are left as
    the blacklisting and the removal of the entry make them. *)
Theorem file_path_reaches_the_vault st file_id (o : gmap string json)
    file_path now :
  file_id ≠ "" →
  metadata_directory st !! file_id = Some (JObj o) →
  o !! "file_path" = Some (JStr file_path) →
  let st' := (_secure_delete_file st file_id now).2 in
  metadata_directory st' !! file_id = None ∧
  (∀ k, locate file_path = MetadataFile k →
     metadata_directory st' !! k = None) ∧
  (∀ name, locate file_path = BlacklistFile name →
     blacklist_directory st' !! name = None ∧
     ∀ h, safe_hash h = name → _is_blacklisted st' (JStr h) = false) ∧
  (locate file_path = Elsewhere →
     st' = remove_metadata (_add_to_blacklist st (JObj o) now).2 file_id).
Proof.
  intros N Est Ep st'.
  split; [by apply secure_delete_file_gone|].
  unfold st', _secure_delete_file.
  destruct (String.eqb_spec file_id "") as [->|_]; [done|].
  rewrite Est. cbn [get snd]. unfold shred_file_path. rewrite Ep.
  split; [|split].
  - intros k ->. cbn. destruct (decide (file_id = k)) as [->|Nk].
    + apply lookup_delete_eq.
    + rewrite lookup_delete_ne by done. apply lookup_delete_eq.
  - intros name ->. cbn. split; [apply lookup_delete_eq|].
    intros h <-. unfold _is_blacklisted. cbn.
    apply bool_decide_eq_false_2. rewrite lookup_delete_eq. by intros [??].
  - by intros ->.
Qed.

End AttemptTheorems.

(** ** Portable records: export, then import *)

Section PortableTheorems.
Context `{PrimitivesLaws} `{OsRoutines} `{FileSystem}.
Import EncryptionManager FileManager Spec.

(** The entry [import_portable_file] stores for a record that passes the
    blacklist and whose envelope decrypts. *)
Lemma import_portable_file_stores st (o env : gmap string json)
    password content file_id now :
  portable_record o → passes_blacklist st o →
  o !! "encryption" = Some (JObj env) →
  decrypt_file_content (JObj env) password = Ok content →
  ∃ metadata env' : gmap string json,
    import_portable_file st (JObj o) password file_id now =
      (Ok file_id, write_metadata st file_id (JObj metadata)) ∧
    metadata !! "file_id" = Some (JStr file_id) ∧
    metadata !! "filename" = o !! "filename" ∧
    metadata !! "last_accessed" = Some (JStr (isoformat now)) ∧
    metadata !! "access_count" = Some (dict_get o "access_count" (JInt 0)) ∧
    metadata !! "failed_password_attempts" =
      Some (dict_get o "failed_password_attempts" (JInt 0)) ∧
    metadata !! "security" = o !! "security" ∧
    metadata !! "encryption" = Some (JObj env') ∧
    decrypt_file_content (JObj env') password = Ok content ∧
    metadata !! "content_hash" =
      Some (if truthy (content_hash_of o) then content_hash_of o
            else JStr (_hash_content content)).
Proof.
  intros [Hm [fn Hf] [ct Hc] [sec Hs]] A Ee Ed.
  unfold import_portable_file.
  rewrite import_body_past_blacklist by done.
  rewrite (get_obj_some _ _ _ _ Ee). py_run.
  set (o' := if bool_decide (is_Some (env !! "hardware_id_hash"))
             then <["encryption" := JObj (unbound env)]> o else o).
  assert (import_decrypt (JObj o) (JObj env) password = Ok (content, JObj o'))
    as ->.
  { unfold o'. case_bool_decide as I.
    - by rewrite import_decrypt_bound, Ed.
    - rewrite import_decrypt_unbound, Ed; [done|].
      by apply eq_None_not_Some. }
  py_run.
  assert (∀ k, k ≠ "encryption" → o' !! k = o !! k) as Hk.
  { intros k Nk. unfold o'.
    case_bool_decide; [by rewrite lookup_insert_ne|done]. }
  set (env' := if bool_decide (is_Some (env !! "hardware_id_hash"))
               then unbound env else env).
  assert (o' !! "encryption" = Some (JObj env')) as He'.
  { unfold o', env'. case_bool_decide; [by rewrite lookup_insert_eq|done]. }
  assert (decrypt_file_content (JObj env') password = Ok content) as Ed'.
  { unfold env', unbound. case_bool_decide; [|done].
    by rewrite decrypt_stripped. }
  rewrite (getitem_obj o' "filename" fn) by by rewrite Hk.
  rewrite (getitem_obj o' "creation_time" ct) by by rewrite Hk.
  rewrite (getitem_obj o' "security" (JObj sec)) by by rewrite Hk.
  rewrite (getitem_obj _ _ _ He').
  cbn [get]. py_run. rewrite !Hk by done.
  eexists _, env'. split; [reflexivity|].
  rewrite Hf, Hs. by repeat split.
Qed.

(** The record [export_portable_file] writes for an entry that may be
    exported. *)
Lemma export_portable_file_writes st file_id (o security : gmap string json)
    encryption password content filename creation_time :
  metadata_directory st !! file_id = Some (JObj o) →
  o !! "security" = Some (JObj security) →
  truthy (dict_get security "disable_export" (JBool false)) = false →
  o !! "encryption" = Some encryption →
  decrypt_file_content encryption password = Ok content →
  o !! "filename" = Some filename →
  o !! "creation_time" = Some creation_time →
  ∃ portable_data : gmap string json,
    export_portable_file st file_id password = Ok (JObj portable_data) ∧
    portable_data !! "bar_portable_file" = Some (JBool true) ∧
    portable_data !! "filename" = Some filename ∧
    portable_data !! "creation_time" = Some creation_time ∧
    portable_data !! "security" = Some (JObj security) ∧
    portable_data !! "encryption" = Some encryption ∧
    portable_data !! "content_hash" = Some (JStr (_hash_content content)) ∧
    portable_data !! "access_count" =
      Some (dict_get o "access_count" (JInt 0)) ∧
    portable_data !! "failed_password_attempts" =
      Some (dict_get o "failed_password_attempts" (JInt 0)).
Proof.
  intros Est Es Tx Ee Ed Ef Ec. unfold export_portable_file.
  rewrite Est, (getitem_obj _ _ _ Es). py_run. cbn [get]. py_run.
  unfold dict_get in Tx. rewrite Tx.
  rewrite (getitem_obj _ _ _ Ee). py_run. rewrite Ed. py_run.
  rewrite (getitem_obj _ _ _ Ef), (getitem_obj _ _ _ Ec). py_run.
  eexists. split; [reflexivity|]. by repeat split.
Qed.

(** X9.  Export, then import: the portable record of an entry that may
    be exported can be imported with the same password into any store
    whose blacklist does not hold the hash of the content; the new entry
    carries the policy and the access count of the old one, its time of
    last access is the time of the import, and while it is not due
    [access_file] returns the content. *)
Theorem export_then_import st file_id (o security env : gmap string json) p
    last_accessed c password content st2 new_id now later :
  metadata_directory st !! file_id = Some (JObj o) →
  describes o p last_accessed c → limits_nonzero p →
  o !! "security" = Some (JObj security) →
  truthy (dict_get security "disable_export" (JBool false)) = false →
  o !! "encryption" = Some (JObj env) →
  decrypt_file_content (JObj env) password = Ok content →
  is_Some (o !! "filename") → is_Some (o !! "creation_time") →
  _is_blacklisted st2 (JStr (_hash_content content)) = false →
  must_destroy p later now c = false →
  ∃ (portable_data metadata : gmap string json) st3,
    export_portable_file st file_id password = Ok (JObj portable_data) ∧
    import_portable_file st2 (JObj portable_data) password new_id now =
      (Ok new_id, write_metadata st2 new_id (JObj metadata)) ∧
    describes metadata p now c ∧
    metadata !! "content_hash" = Some (JStr (_hash_content content)) ∧
    access_file (write_metadata st2 new_id (JObj metadata)) new_id password
      later = (Ok (content, JObj (accessed metadata later c)), st3).
Proof.
  intros Est D Nz Es Tx Ee Ed [fn Ef] [ct Ec] B M.
  destruct (export_portable_file_writes st file_id o security (JObj env)
              password content fn ct Est Es Tx Ee Ed Ef Ec)
    as (pd & Ex & Pm & Pf & Pc & Ps & Pe & Ph & Pa & _).
  assert (o !! "access_count" = Some (JInt c)) as Ea by apply D.
  assert (content_hash_of pd = JStr (_hash_content content)) as Ech
    by (unfold content_hash_of; by rewrite Ph).
  assert (portable_record pd) as P.
  { split; eauto. }
  assert (passes_blacklist st2 pd) as A.
  { unfold passes_blacklist. rewrite Ech, B. apply andb_false_r. }
  destruct (import_portable_file_stores st2 pd env password content new_id
              now P A Pe Ed)
    as (md & env' & Ei & Mi & Mf & Ml & Ma & _ & Ms & Me & Md & Mh).
  assert (describes md p now c) as D'.
  { destruct D as [_ (sec & ve & vm & vd & Hsec & R) _ _]. split.
    - eauto.
    - exists sec, ve, vm, vd. split; [|done]. by rewrite Ms, Ps, <- Hsec.
    - eexists. split; [done|]. eexists. split; [done|].
      apply fromisoformat_isoformat.
    - rewrite Ma. unfold dict_get in *. by rewrite Pa, Ea. }
  assert (md !! "content_hash" = Some (JStr (_hash_content content))) as Mh'.
  { rewrite Mh, Ech. by destruct (truthy (JStr (_hash_content content))). }
  destruct (access_file_described (write_metadata st2 new_id (JObj md)) new_id
              md p now c (JObj env') password content later)
    as (st3 & Ea3 & _); try done.
  { apply lookup_insert_eq. }
  { rewrite Mf, Pf. eauto. }
  by exists pd, md, st3.
Qed.

Lemma hex_length b : String.length (hex b) = (2 * length b)%nat.
Proof. induction b as [|x b IH]; [done|]. cbn. rewrite IH. lia. Qed.

Lemma encryption_hash_length v : String.length (encryption_hash v) = 64%nat.
Proof.
  assert (∀ s, String.length (sha256_hexdigest s) = 64%nat) as L.
  { intros s. unfold sha256_hexdigest. by rewrite hex_length, sha256_length. }
  destruct v; apply L.
Qed.

(** X10.  The blacklist does not reach an entry made by
    [create_secure_file]: such an entry has no content hash, so its
    destruction files it under the 64-digit hash of its envelope, while a
    portable record carries the hash of the content.  A portable record
    exported before the destruction is therefore imported afterwards, and
    the content can be read again. *)
Theorem created_entry_outlives_destruction st content filename password
    (settings : gmap string json) file_id e now t new_id now2 :
  file_id ≠ "" →
  match settings !! "disable_export" with
  | Some v => truthy v = false
  | None => _is_media_file filename content = false
  end →
  _is_blacklisted st (JStr (_hash_content content)) = false →
  String.length (_hash_content content) ≠ 64%nat →
  let st1 := store_after (create_secure_file st content filename password
                            settings file_id e now) in
  let st2 := (_secure_delete_file st1 file_id t).2 in
  ∃ (portable_data metadata envelope : gmap string json) h,
    export_portable_file st1 file_id password = Ok (JObj portable_data) ∧
    metadata_directory st2 !! file_id = None ∧
    String.length h = 64%nat ∧ _is_blacklisted st2 (JStr h) = true ∧
    import_portable_file st2 (JObj portable_data) password new_id now2 =
      (Ok new_id, write_metadata st2 new_id (JObj metadata)) ∧
    metadata !! "encryption" = Some (JObj envelope) ∧
    decrypt_file_content (JObj envelope) password = Ok content.
Proof.
  intros N X B L st1 st2.
  destruct (create_secure_file_stores st content filename password settings
              file_id e now)
    as (o & security & env & _ & Est & Ed & _ & Hfn & Hct & _ & _ & _ & Hsec &
        Henc & Hch & _ & _ & _ & _ & Hx).
  fold st1 in Est.
  assert (metadata_directory st1 !! file_id = Some (JObj o)) as Elook
    by (rewrite Est; apply lookup_insert_eq).
  assert (truthy (dict_get security "disable_export" (JBool false)) = false)
    as Tx.
  { unfold dict_get. rewrite Hx.
    destruct (settings !! "disable_export"); [done|by rewrite X]. }
  destruct (export_portable_file_writes st1 file_id o security (JObj env)
              password content _ _ Elook Hsec Tx Henc Ed Hfn Hct)
    as (pd & Ex & Pm & Pf & Pc & Ps & Pe & Ph & _).
  set (h := encryption_hash (JObj env)).
  assert (blacklist_hash (JObj o) = Ok (JStr h)) as Eh.
  { unfold blacklist_hash. rewrite (get_obj_none _ _ _ Hch). py_run.
    rewrite contains_obj, Henc, bool_decide_eq_true_2 by eauto. py_run.
    cbn [truthy negb andb]. by rewrite (get_obj_some _ _ _ _ Henc). }
  assert (fits h = true) as F.
  { unfold fits, h. by rewrite (encryption_hash_length (JObj env)). }
  destruct (add_to_blacklist_typed st1 o t h Eh (encryption_hash_nonempty _) F)
    as (entry & Ea & _).
  pose proof (create_secure_file_file_path st content filename password
                settings file_id e now o Est) as Pf'.
  assert (st2 = remove_metadata
                  (write_blacklist st1 (safe_hash h) (JObj entry)) file_id)
    as E2.
  { unfold st2.
    by rewrite (secure_delete_file_obj st1 file_id o t N Elook Pf'), Ea. }
  assert (_is_blacklisted st2 (JStr (_hash_content content)) = false) as B2.
  { revert B. rewrite E2, Est. unfold _is_blacklisted. cbn.
    rewrite lookup_insert_ne; [done|].
    intros E. apply (f_equal String.length) in E.
    rewrite !safe_hash_length in E.
    pose proof (encryption_hash_length (JObj env)) as L'.
    change (String.length (encryption_hash (JObj env))) with
      (String.length (sha256_hexdigest (json_dumps_sorted (JObj env)))) in L'.
    congruence. }
  assert (content_hash_of pd = JStr (_hash_content content)) as Ech
    by (unfold content_hash_of; by rewrite Ph).
  assert (portable_record pd) as P by (split; eauto).
  assert (passes_blacklist st2 pd) as A.
  { unfold passes_blacklist. rewrite Ech, B2. apply andb_false_r. }
  destruct (import_portable_file_stores st2 pd env password content new_id
              now2 P A Pe Ed)
    as (md & env' & Ei & _ & _ & _ & _ & _ & _ & Me & Md & _).
  exists pd, md, env', h. split; [done|]. split.
  { rewrite E2. cbn. apply lookup_delete_eq. }
  split; [apply encryption_hash_length|]. split; [|done].
  rewrite E2. unfold _is_blacklisted. cbn.
  apply bool_decide_eq_true_2. rewrite lookup_insert_eq. eauto.
Qed.

Lemma bytes_prefix_app sig post : bytes_prefix sig (sig ++ post) = true.
Proof.
  induction sig as [|x sig IH]; [done|]. cbn.
  by rewrite IH, (Byte.byte_dec_lb (eq_refl x)).
Qed.

Lemma bytes_contains_app sig pre post :
  bytes_contains sig (pre ++ sig ++ post) = true.
Proof.
  induction pre as [|x pre IH].
  - cbn [app]. destruct (sig ++ post)%list eqn:E;
      cbn [bytes_contains]; by rewrite <- E, bytes_prefix_app.
  - cbn [app bytes_contains]. rewrite IH. apply orb_true_r.
Qed.

(** X11.  A file counts as media on its content alone: when one of the
    seven signatures occurs anywhere in the first 20 bytes, whatever
    precedes it and whatever the file is called. *)
Theorem signature_makes_media filename content sig pre post :
  sig ∈ signatures →
  take 20 content = (pre ++ sig ++ post)%list →
  _is_media_file filename content = true.
Proof.
  intros In E. unfold _is_media_file.
  case_bool_decide; [done|]. rewrite E.
  apply existsb_exists. exists sig.
  split; [by apply list_elem_of_In|apply bytes_contains_app].
Qed.

(** X12.  A media file filed without an explicit [disable_export] is
    view-only: neither export path hands it out, whatever the
    password.  The setting is also written into
    the caller's dictionary, so a file of any kind that is filed next
    with the same dictionary is view-only as well. *)
Theorem media_is_view_only st content filename password
    (settings : gmap string json) file_id e now
    st' content' filename' password' file_id' e' now' :
  _is_media_file filename content = true →
  settings !! "disable_export" = None →
  let c := create_secure_file st content filename password settings file_id
             e now in
  let c' := create_secure_file st' content' filename' password'
              (settings_after c) file_id' e' now' in
  export_file (store_after c) file_id = Raise (ValueError view_only_message) ∧
  (∀ guess, export_portable_file (store_after c) file_id guess =
              Raise (ValueError view_only_message)) ∧
  settings_after c = <["disable_export" := JBool true]> settings ∧
  export_file (store_after c') file_id' =
    Raise (ValueError view_only_message) ∧
  (∀ guess, export_portable_file (store_after c') file_id' guess =
              Raise (ValueError view_only_message)).
Proof.
  intros Hm Hn c c'.
  assert (∀ st content filename password (settings : gmap string json)
            file_id e now,
    (match settings !! "disable_export" with
     | Some v => v
     | None => JBool (_is_media_file filename content)
     end) = JBool true →
    let c := create_secure_file st content filename password settings file_id
               e now in
    export_file (store_after c) file_id =
      Raise (ValueError view_only_message) ∧
    (∀ guess, export_portable_file (store_after c) file_id guess =
                Raise (ValueError view_only_message))) as Hv.
  { clear Hm Hn c c'. clear dependent st. clear dependent st'.
    intros st content0 filename0 password0 settings0 file_id0 e0 now0 X c0.
    destruct (create_secure_file_stores st content0 filename0 password0
                settings0 file_id0 e0 now0)
      as (o & security & env & _ & Est & _ & _ & _ & _ & _ & _ & _ & Hsec &
          _ & _ & _ & _ & _ & _ & Hx).
    subst c0. rewrite X in Hx.
    split; [|intros guess].
    - unfold export_file. rewrite Est. cbn [write_metadata metadata_directory].
      rewrite lookup_insert_eq, (get_obj_some _ _ _ _ Hsec). py_run.
      by rewrite (get_obj_some _ _ _ _ Hx).
    - unfold export_portable_file. rewrite Est.
      cbn [write_metadata metadata_directory].
      rewrite lookup_insert_eq, (getitem_obj _ _ _ Hsec). py_run.
      by rewrite (get_obj_some _ _ _ _ Hx). }
  assert (settings_after c = <["disable_export" := JBool true]> settings)
    as Es.
  { unfold c, create_secure_file. rewrite Hm, Hn.
    rewrite bool_decide_eq_false_2 by by intros [??].
    cbn [andb negb].
    by destruct (encrypt_file_content content password e now) as [[|] ?]. }
  destruct (Hv st content filename password settings file_id e now) as [E1 E2].
  { by rewrite Hn, Hm. }
  destruct (Hv st' content' filename' password' (settings_after c) file_id'
              e' now') as [E3 E4].
  { by rewrite Es, lookup_insert_eq. }
  done.
Qed.

End PortableTheorems.

(** ** Plain export and import, settings and listing *)

Section ManagementTheorems.
Context `{PrimitivesLaws} `{OsRoutines} `{FileSystem}.
Import EncryptionManager FileManager Spec.

(** X13.  [import_file] does not consult the blacklist: the plain copy
    [export_file] hands out brings a destroyed entry back.  After the
    entry was destroyed (and blacklisted, when the name of the record
    fits), importing the copy stores it again under its old id, and the
    metadata directory is what it was before the destruction,
    failed-attempt and access counters included.  The document names no
    file of the vault as its [file_path]. *)
Theorem import_file_restores st file_id (o security envelope : gmap string json)
    now fresh_id :
  file_id ≠ "" →
  metadata_directory st !! file_id = Some (JObj o) →
  o !! "file_id" = Some (JStr file_id) →
  o !! "encryption" = Some (JObj envelope) → content_hash_typed o →
  file_path_elsewhere o →
  o !! "security" = Some (JObj security) →
  truthy (dict_get security "disable_export" (JBool false)) = false →
  let st2 := (_secure_delete_file st file_id now).2 in
  let r := import_file st2 (JObj o) fresh_id in
  let h := filing_hash o (JObj envelope) in
  export_file st file_id = Ok (Some (JObj o)) ∧
  metadata_directory st2 !! file_id = None ∧
  (fits h = true → _is_blacklisted st2 (JStr h) = true) ∧
  r.1 = Ok (JStr file_id) ∧
  metadata_directory r.2 = metadata_directory st ∧
  blacklist_directory r.2 = blacklist_directory st2.
Proof.
  intros N Est Eid Ee T P Hsec Tx st2 r h.
  destruct (secure_delete_file_filed st file_id o envelope now N Est Ee T P)
    as (_ & Hfit & Hlong). fold h in Hfit, Hlong.
  assert (metadata_directory st2 = delete file_id (metadata_directory st))
    as Em.
  { unfold st2. destruct (fits h).
    - by destruct (Hfit eq_refl) as (record & _ & ->).
    - by rewrite (Hlong eq_refl). }
  assert (metadata_directory st2 !! file_id = None) as Egone.
  { rewrite Em. apply lookup_delete_eq. }
  split; [|split; [done|split]].
  - unfold export_file. rewrite Est, (get_obj_some _ _ _ _ Hsec). py_run.
    cbn [get]. py_run. unfold dict_get in Tx. by rewrite Tx.
  - intros F. unfold st2. destruct (Hfit F) as (record & _ & ->).
    apply is_blacklisted_written.
  - assert (import_file st2 (JObj o) fresh_id =
              (Ok (JStr file_id), write_metadata st2 file_id (JObj o))) as Ei.
    { unfold import_file, import_file_body. rewrite !contains_obj.
      rewrite Eid, Ee. rewrite !bool_decide_eq_true_2 by eauto. py_run.
      cbn [andb negb].
      rewrite (getitem_obj _ _ _ Eid). py_run. cbn [format_value].
      by rewrite Egone. }
    unfold r. rewrite Ei. split; [done|]. cbn [snd write_metadata
      metadata_directory blacklist_directory]. split; [|done].
    rewrite Em. by apply insert_delete_id.
Qed.

(** [update_settings] over a list of settings without repeated keys. *)
Lemma update_settings_list (settings : list (string * json)) :
  NoDup settings.*1 →
  ∀ o security : gmap string json,
  o !! "security" = Some (JObj security) →
  ∃ security' : gmap string json,
    update_settings (JObj o) settings =
      Ok (JObj (<["security" := JObj security']> o)) ∧
    ∀ k, security' !! k =
         match security !! k with
         | Some v =>
             Some (default v
                     ((list_to_map settings : gmap string json) !! k))
         | None => None
         end.
Proof.
  induction settings as [|[k0 v0] settings IH]; intros ND o security Es.
  - exists security. split.
    + cbn. by rewrite insert_id.
    + intros k. cbn [list_to_map foldr]. rewrite lookup_empty.
      by destruct (security !! k).
  - rewrite fmap_cons in ND. cbn [fst] in ND.
    apply NoDup_cons in ND as [Nin ND].
    cbn [update_settings]. unfold update_setting.
    rewrite (getitem_obj _ _ _ Es). py_run. rewrite contains_obj. py_run.
    cbn [fst snd]. case_bool_decide as I.
    + cbn [setitem]. py_run.
      destruct (IH ND (<["security" := JObj (<[k0 := v0]> security)]> o)
                  (<[k0 := v0]> security)) as (s' & E & Hk).
      { apply lookup_insert_eq. }
      exists s'. rewrite E, insert_insert_eq. split; [done|].
      intros k. rewrite Hk. cbn [list_to_map foldr]. 
      destruct (decide (k = k0)) as [->|Nk].
      * rewrite !lookup_insert_eq.
        rewrite (not_elem_of_list_to_map_1 settings k0 Nin).
        destruct I as [v ->]. done.
      * by rewrite !lookup_insert_ne.
    + py_run. destruct (IH ND o security Es) as (s' & E & Hk).
      exists s'. split; [done|].
      intros k. rewrite Hk. cbn [list_to_map foldr].
      destruct (decide (k = k0)) as [->|Nk].
      * apply eq_None_not_Some in I. by rewrite I.
      * by rewrite lookup_insert_ne.
Qed.

(** X14.  [update_security_settings] changes the keys the policy of the
    entry already has and no others: each of them takes the new value
    when the settings give one and keeps its value otherwise; a key the
    policy does not have is not added, and the rest of the entry
    (envelope, counters, content hash) is written back as it was. *)
Theorem update_changes_recognized_keys st file_id
    (o security settings : gmap string json) :
  metadata_directory st !! file_id = Some (JObj o) →
  o !! "security" = Some (JObj security) →
  ∃ security' : gmap string json,
    update_security_settings st file_id settings =
      (Ok true,
       write_metadata st file_id (JObj (<["security" := JObj security']> o))) ∧
    ∀ k, security' !! k =
         match security !! k with
         | Some v => Some (default v (settings !! k))
         | None => None
         end.
Proof.
  intros Est Es. unfold update_security_settings. rewrite Est.
  destruct (update_settings_list (map_to_list settings)
              (NoDup_fst_map_to_list settings) o security Es)
    as (s' & E & Hk).
  exists s'. rewrite E. split; [done|].
  intros k. by rewrite Hk, list_to_map_to_list.
Qed.

(** What [list_files] shows of one entry. *)
Lemma list_item_hides metadata item :
  list_item metadata = Ok (Some item) →
  ∃ (o shown : gmap string json) view display,
    metadata = JObj o ∧ item = JObj shown ∧
    shown !! "encryption" = None ∧
    get (dict_get o "security" (JObj ∅)) "disable_export" (JBool false)
      = Ok view ∧
    shown !! "is_view_only" = Some view ∧
    shown !! "file_type_display" = Some (JStr display) ∧
    ∀ k, k ∉ ["encryption"; "is_view_only"; "file_type"; "file_type_display"] →
         shown !! k = o !! k.
Proof.
  unfold list_item. destruct metadata as [| | |s|o]; try done.
  - cbn [contains]. py_run. by destruct (str_contains _ _).
  - rewrite contains_obj. py_run. case_bool_decide; [|done].
    assert (dict_get (delete "encryption" o) "security" (JObj ∅) =
            dict_get o "security" (JObj ∅)) as ->
      by (unfold dict_get; by rewrite lookup_delete_ne).
    destruct (get (dict_get o "security" (JObj ∅)) "disable_export"
                (JBool false)) as [view|] eqn:Ev; [|done].
    py_run.
    set (copy := <["file_type" := _]> (<["is_view_only" := view]> _)).
    destruct (if is_str "media" _ then _ else _) as [display|] eqn:Ed;
      [|done].
    py_run. intros [= <-].
    exists o, (<["file_type_display" := JStr display]> copy), view, display.
    split; [done|]. split; [done|]. unfold copy.
    split; [rewrite !lookup_insert_ne by done; apply lookup_delete_eq|].
    split; [done|].
    split; [rewrite !lookup_insert_ne by done; apply lookup_insert_eq|].
    split; [by rewrite lookup_insert_eq|].
    intros k Nk.
    assert (k ≠ "encryption" ∧ k ≠ "is_view_only" ∧ k ≠ "file_type" ∧
            k ≠ "file_type_display") as (N1 & N2 & N3 & N4)
      by (repeat split; intros ->; apply Nk; set_solver).
    rewrite !lookup_insert_ne by done. by apply lookup_delete_ne.
Qed.

(** X15.  [list_files] never shows an envelope: every item of a listing
    is an entry of the store without its [encryption] data, carrying the
    view-only flag of its policy and a display name; everything else it
    shows is what the entry holds. *)
Theorem list_files_hides_envelopes st listing files item :
  list_files st listing = Ok files →
  item ∈ files →
  ∃ name (o shown : gmap string json) view display,
    name ∈ listing ∧
    metadata_directory st !! name = Some (JObj o) ∧
    is_Some (o !! "encryption") ∧
    item = JObj shown ∧
    shown !! "encryption" = None ∧
    get (dict_get o "security" (JObj ∅)) "disable_export" (JBool false)
      = Ok view ∧
    shown !! "is_view_only" = Some view ∧
    shown !! "file_type_display" = Some (JStr display) ∧
    ∀ k, k ∉ ["encryption"; "is_view_only"; "file_type"; "file_type_display"] →
         shown !! k = o !! k.
Proof.
  revert files. induction listing as [|name listing IH]; intros files.
  - intros [= <-] In. by apply elem_of_nil in In.
  - cbn [list_files].
    destruct (metadata_directory st !! name) as [metadata|] eqn:Est; [|done].
    destruct (list_item metadata) as [shown|] eqn:El; [|done]. py_run.
    destruct (list_files st listing) as [files'|] eqn:Ef; [|done]. py_run.
    intros [= <-] In.
    assert (item ∈ files' →
            ∃ name0 (o shown0 : gmap string json) view display,
              name0 ∈ name :: listing ∧
              metadata_directory st !! name0 = Some (JObj o) ∧
              is_Some (o !! "encryption") ∧
              item = JObj shown0 ∧
              shown0 !! "encryption" = None ∧
              get (dict_get o "security" (JObj ∅)) "disable_export"
                (JBool false) = Ok view ∧
              shown0 !! "is_view_only" = Some view ∧
              shown0 !! "file_type_display" = Some (JStr display) ∧
              ∀ k, k ∉ ["encryption"; "is_view_only"; "file_type";
                        "file_type_display"] →
                   shown0 !! k = o !! k) as Hrest.
    { intros In'. destruct (IH files' eq_refl In')
        as (name0 & o & shown0 & view & display & Hin & R).
      exists name0, o, shown0, view, display. split; [|done].
      by apply list_elem_of_further. }
    destruct shown as [first|]; [|by apply Hrest].
    apply elem_of_cons in In as [->|In]; [|by apply Hrest].
    destruct (list_item_hides metadata first El)
      as (o & shown & view & display & -> & -> & R).
    exists name, o, shown, view, display.
    split; [apply list_elem_of_here|]. split; [done|]. split; [|done].
    unfold list_item in El. rewrite contains_obj in El.
    revert El. py_run. by case_bool_decide.
Qed.

(** X16.  On a store in good order a call touches one entry only.
    [access_file], [update_security_settings], [delete_file] and
    [_secure_delete_file] leave every entry other than the one they are
    given as it is, also when they fail or destroy that one;
    [create_secure_file] and [import_portable_file] write the entry of
    the new id only; and [import_file] never replaces an entry that
    exists, as long as the id it generates is fresh.  The ids are stems
    of file names. *)
Theorem calls_touch_one_entry st k :
  tidy st →
  (∀ file_id password now, is_stem file_id = true → k ≠ file_id →
     metadata_directory (access_file st file_id password now).2 !! k =
     metadata_directory st !! k) ∧
  (∀ file_id settings, is_stem file_id = true → k ≠ file_id →
     metadata_directory (update_security_settings st file_id settings).2 !! k =
     metadata_directory st !! k) ∧
  (∀ file_id, is_stem file_id = true → k ≠ file_id →
     metadata_directory (delete_file st file_id).2 !! k =
     metadata_directory st !! k) ∧
  (∀ file_id now, is_stem file_id = true → k ≠ file_id →
     metadata_directory (_secure_delete_file st file_id now).2 !! k =
     metadata_directory st !! k) ∧
  (∀ content filename password settings file_id e now,
     is_stem file_id = true → k ≠ file_id →
     metadata_directory
       (store_after (create_secure_file st content filename password settings
                       file_id e now)) !! k =
     metadata_directory st !! k) ∧
  (∀ portable_data password file_id now, is_stem file_id = true → k ≠ file_id →
     metadata_directory
       (import_portable_file st portable_data password file_id now).2 !! k =
     metadata_directory st !! k) ∧
  (∀ metadata fresh_id,
     safe_json metadata → is_stem fresh_id = true →
     is_Some (metadata_directory st !! k) → k ≠ fresh_id →
     metadata_directory (import_file st metadata fresh_id).2 !! k =
     metadata_directory st !! k).
Proof.
  intros T.
  split.
  { intros file_id password now Si Nk.
    by apply (access_file_tidy st file_id password now Si T). }
  split.
  { intros file_id settings _ Nk. unfold update_security_settings.
    repeat case_match; cbn; by rewrite ?lookup_insert_ne. }
  split.
  { intros file_id _ Nk. unfold delete_file, _delete_file.
    case_match; cbn; by rewrite ?lookup_delete_ne. }
  split.
  { intros file_id now _ Nk.
    by apply (secure_delete_file_tidy st file_id now T). }
  split.
  { intros content filename password settings file_id e now _ Nk.
    unfold create_secure_file.
    destruct (encrypt_file_content content password e now) as [[|] ?];
      cbn; by rewrite ?lookup_insert_ne. }
  split.
  { intros portable_data password file_id now _ Nk.
    unfold import_portable_file.
    case_match; cbn; by rewrite ?lookup_insert_ne. }
  intros metadata fresh_id _ _ Ik Nk. unfold import_file, import_file_body.
  destruct (contains metadata "file_id") as [has_id|]; [|done]. py_run.
  destruct (if has_id then _ else _) as [has_encryption|]; [|done]. py_run.
  destruct (negb _); [done|].
  destruct (getitem metadata "file_id") as [file_id|]; [|done]. py_run.
  destruct (metadata_directory st !! format_value file_id) eqn:Ef.
  - destruct (setitem metadata "file_id" (JStr fresh_id)); [|done].
    cbn. by rewrite lookup_insert_ne.
  - cbn. rewrite lookup_insert_ne; [done|].
    intros <-. rewrite Ef in Ik. by destruct Ik.
Qed.

End ManagementTheorems.

(** ** The scanner: reports, the walk and the import of a found file *)

Section ScanTheorems.
Context `{PrimitivesLaws} `{OsRoutines} `{FileSystem}.
Import EncryptionManager FileManager FileScanner Scan Spec.

Ltac in_list :=
  solve [repeat first [apply list_elem_of_here | apply list_elem_of_further]].

Ltac not_in_list :=
  rewrite ?not_elem_of_cons; repeat split;
  solve [done | apply not_elem_of_nil].

Lemma expiration_report_keeps security now metadata metadata' k :
  expiration_report security now metadata = Ok metadata' →
  k ∉ ["expired"; "expiration_status"] →
  metadata' !! k = metadata !! k.
Proof.
  intros E Nk.
  assert (k ≠ "expired" ∧ k ≠ "expiration_status") as [N1 N2]
    by (split; intros ->; apply Nk; in_list).
  revert E. unfold expiration_report.
  destruct (get security "expiration_time" JNull) as [e|]; [|done]. py_run.
  destruct (is_not_None e); [|by intros [= <-]].
  destruct e as [| | |s|]; try (intros [= <-]; by rewrite lookup_insert_ne).
  destruct (fromisoformat s); intros [= <-];
    by rewrite !lookup_insert_ne.
Qed.

Lemma security_report_keeps data now metadata metadata' k :
  security_report data now metadata = Ok metadata' →
  k ∉ ["security_info"; "expired"; "expiration_status"] →
  metadata' !! k = metadata !! k.
Proof.
  intros E Nk.
  assert (k ≠ "security_info" ∧ k ∉ ["expired"; "expiration_status"])
    as [N1 N2].
  { split; [intros ->; apply Nk; in_list|].
    intros In. apply Nk. by apply list_elem_of_further. }
  revert E. unfold security_report.
  destruct (contains data "security") as [[]|]; try done; py_run.
  - destruct (getitem data "security") as [security|]; [|done]. py_run.
    destruct (get security "expiration_time" JNull); [|done]. py_run.
    destruct (get security "max_access_count" JNull); [|done]. py_run.
    destruct (get security "deadman_switch" JNull); [|done]. py_run.
    intros E. rewrite (expiration_report_keeps _ _ _ _ k E N2).
    by rewrite lookup_insert_ne.
  - by intros [= <-].
Qed.

(** The path of [_validate_bar_file] that ends in a report. *)
Lemma validate_report_inv invalid f now report invalid' :
  _validate_bar_file invalid f now = (Ok (Some report), invalid') →
  invalid' = invalid ∧ BAR_FILE_MIN_SIZE ≤ c_size f ∧
  ∃ (data metadata : gmap string json) marker,
    c_read f = Parsed (JObj data) ∧
    data !! BAR_FILE_SIGNATURE = Some marker ∧ truthy marker = true ∧
    (is_unknown (dict_get data "version" (JStr "unknown")) = true ∨
     ∃ v, dict_get data "version" (JStr "unknown") = JStr v ∧
          match_version v = true) ∧
    is_Some (data !! "filename") ∧ is_Some (data !! "encryption") ∧
    security_report (JObj data) now (report_base f data) = Ok metadata ∧
    report = JObj (<["integrity_score" := JInt (Z.max 0 (raw_score data))]>
                     metadata).
Proof.
  unfold _validate_bar_file.
  destruct (Z.ltb_spec (c_size f) BAR_FILE_MIN_SIZE) as [|Hsize]; [done|].
  destruct (c_read f) as [| |data]; try done.
  destruct data as [| | | |data]; try done.
  cbn [get].
  destruct (data !! BAR_FILE_SIGNATURE) as [marker|] eqn:Em; [|done].
  destruct (truthy marker) eqn:Tm; [|done]. cbn [negb].
  fold (dict_get data "version" (JStr "unknown")).
  set (version := dict_get data "version" (JStr "unknown")).
  assert ((if is_unknown version then Ok true
           else match version with
                | JStr v => Ok (match_version v)
                | _ => Raise (TypeError "expected string or bytes-like object")
                end) = Ok true →
          is_unknown version = true ∨
          ∃ v, version = JStr v ∧ match_version v = true) as Hv.
  { destruct (is_unknown version); [by left|].
    destruct version as [| | |v|]; try done. intros [= E]. right. eauto. }
  destruct (if is_unknown version then _ else _) as [[]|] eqn:Ev; try done.
  specialize (Hv eq_refl).
  rewrite !contains_obj. py_run.
  destruct (bool_decide (is_Some (data !! "filename"))) eqn:Bf; [|done].
  destruct (bool_decide (is_Some (data !! "encryption"))) eqn:Be; [|done].
  cbn [andb]. apply bool_decide_eq_true in Bf, Be.
  change (list_to_map _) with (report_base f data).
  destruct (security_report (JObj data) now (report_base f data))
    as [metadata|] eqn:Es; [|done].
  py_run. rewrite deduct_missing_obj. py_run. cbn [foldl].
  intros [= <- <-]. split; [done|]. split; [done|].
  exists data, metadata, marker. do 7 (split; [done|]).
  do 3 f_equal. unfold raw_score. fold version.
  destruct (is_unknown version); lia.
Qed.

Lemma raw_score_range data : 60 ≤ Z.max 0 (raw_score data) ≤ 100.
Proof.
  unfold raw_score, deduction.
  destruct (data !! "creation_time"), (data !! "content_hash"),
    (data !! "security"), (is_unknown _); lia.
Qed.

(** X17.  A report of [_validate_bar_file] is sound: when the call
    returns one, the file has at least 50 bytes and parses as an object
    with a true signature marker, a file name and encryption data, and a
    version that is absent, ["unknown"] or of the shape digits-dot-digits;
    the counter of invalid files is unchanged; the report names the path,
    does not carry the encryption data, and its integrity score is 100
    less 10 for each absent optional field and for an unknown version, so
    between 60 and 100. *)
Theorem validated_report_is_sound invalid f now report invalid' :
  _validate_bar_file invalid f now = (Ok (Some report), invalid') →
  invalid' = invalid ∧ BAR_FILE_MIN_SIZE ≤ c_size f ∧
  ∃ (data shown : gmap string json) marker version score,
    c_read f = Parsed (JObj data) ∧
    data !! BAR_FILE_SIGNATURE = Some marker ∧ truthy marker = true ∧
    version = dict_get data "version" (JStr "unknown") ∧
    (is_unknown version = true ∨
     ∃ v, version = JStr v ∧ match_version v = true) ∧
    is_Some (data !! "filename") ∧ is_Some (data !! "encryption") ∧
    report = JObj shown ∧
    shown !! "path" = Some (JStr (c_path f)) ∧
    shown !! "encryption" = None ∧
    shown !! "integrity_score" = Some (JInt score) ∧
    score = 100 - deduction data "creation_time"
                - deduction data "content_hash"
                - deduction data "security"
                - (if is_unknown version then 10 else 0) ∧
    60 ≤ score ≤ 100.
Proof.
  intros E.
  destruct (validate_report_inv _ _ _ _ _ E)
    as (-> & Hsize & data & metadata & marker & Hp & Hm & Tm & Hv & Hf & He &
        Es & ->).
  split; [done|]. split; [done|].
  pose proof (raw_score_range data) as R.
  exists data, (<["integrity_score" := JInt (Z.max 0 (raw_score data))]>
                  metadata), marker,
    (dict_get data "version" (JStr "unknown")), (Z.max 0 (raw_score data)).
  do 8 (split; [done|]).
  split; [|split; [|split; [apply lookup_insert_eq|split; [|done]]]].
  - rewrite lookup_insert_ne by done.
    by rewrite (security_report_keeps _ _ _ _ "path" Es) by not_in_list.
  - rewrite lookup_insert_ne by done.
    by rewrite (security_report_keeps _ _ _ _ "encryption" Es)
      by not_in_list.
  - unfold raw_score in *. lia.
Qed.

(** A report is an object without encryption data with a score in
    range. *)
Lemma validate_report_sound invalid f now report invalid' :
  _validate_bar_file invalid f now = (Ok (Some report), invalid') →
  invalid' = invalid ∧ truthy report = true ∧ sound_report report.
Proof.
  intros E.
  destruct (validate_report_inv _ _ _ _ _ E)
    as (-> & _ & data & metadata & marker & _ & _ & _ & _ & _ & _ & Es & ->).
  split; [done|]. split.
  - cbn [truthy]. destruct (Nat.eqb_spec (size (<["integrity_score" :=
      JInt (Z.max 0 (raw_score data))]> metadata)) 0) as [E0|]; [|done].
    apply map_size_empty_iff in E0.
    by apply insert_non_empty in E0.
  - eexists _, _. split; [done|]. split; [|split].
    + rewrite lookup_insert_ne by done.
      by rewrite (security_report_keeps _ _ _ _ "encryption" Es)
        by not_in_list.
    + apply lookup_insert_eq.
    + apply raw_score_range.
Qed.

Lemma validate_counter invalid f now :
  invalid ≤ (_validate_bar_file invalid f now).2 ≤ invalid + 1.
Proof. unfold _validate_bar_file. repeat case_match; cbn [snd]; lia. Qed.

Lemma count_total_files_add recursive directory total :
  _count_total_files recursive directory total =
    total + _count_total_files recursive directory 0 ∧
  0 ≤ _count_total_files recursive directory 0.
Proof.
  revert total.
  induction directory using listing_item_ind with
    (P0 := λ i, ∀ total,
       let counted t :=
         match i with
         | RegularFile _ _ => t + 1
         | Directory d =>
             if recursive then _count_total_files recursive d t else t
         | Other => t
         end in
       counted total = total + counted 0 ∧ 0 ≤ counted 0);
    intros total; cbn [_count_total_files]; try (cbn zeta; lia).
  - destruct (IHdirectory total) as [E1 L1]. cbn zeta in E1, L1.
    destruct (IHdirectory0 (match i with
                            | RegularFile _ _ => total + 1
                            | Directory d =>
                                if recursive
                                then _count_total_files recursive d total
                                else total
                            | Other => total
                            end)) as [E2 L2].
    destruct (IHdirectory0 (match i with
                            | RegularFile _ _ => 0 + 1
                            | Directory d =>
                                if recursive
                                then _count_total_files recursive d 0
                                else 0
                            | Other => 0
                            end)) as [E3 _].
    rewrite E2, E3, E1. lia.
  - cbn zeta. destruct recursive; [apply IHdirectory|lia].
Qed.

Lemma accounted_refl s : accounted 0 s (None, s).
Proof.
  split; cbn [fst snd]; try lia.
  exists []. rewrite app_nil_r. split; [done|]. split; [cbn; lia|done].
Qed.

Lemma accounted_then n1 n2 s r1 r2 :
  accounted n1 s r1 → r1.1 = None → accounted n2 r1.2 r2 →
  accounted (n1 + n2) s r2.
Proof.
  intros [T1 (new1 & F1 & C1 & S1) I1 P1 B1 K1] E
         [T2 (new2 & F2 & C2 & S2) I2 P2 B2 K2].
  specialize (K1 E). split; try lia.
  - exists (new1 ++ new2)%list. rewrite F2, F1, app_assoc.
    split; [done|]. split; [rewrite length_app; lia|].
    by apply Forall_app.
  - intros E2. specialize (K2 E2). lia.
Qed.

Lemma accounted_cut n1 n2 s r e :
  accounted n1 s r → r.1 = Some e → 0 ≤ n2 → accounted (n1 + n2) s r.
Proof.
  intros [T1 (new1 & F1 & C1 & S1) I1 P1 B1 K1] E L.
  split; try done; try lia.
  - by exists new1.
  - intros E'. by rewrite E in E'.
Qed.

Lemma scan_file_accounted suffix f now s :
  accounted 1 s (scan_file suffix f now s).
Proof.
  unfold scan_file.
  destruct (String.eqb _ _).
  - pose proof (validate_counter (invalid_bar_files (scan_progress s)) f now)
      as Hc.
    destruct (_validate_bar_file _ f now) as [[[info|]|e] invalid'] eqn:Ev;
      cbn [snd] in Hc.
    + destruct (validate_report_sound _ _ _ _ _ Ev) as (-> & -> & Sound).
      split; cbn [fst snd scan_progress files total_files processed_files
                  found_bar_files invalid_bar_files]; try lia.
      exists [info]. split; [done|]. split; [cbn; lia|].
      by apply Forall_singleton.
    + split; cbn [fst snd scan_progress files total_files processed_files
                  found_bar_files invalid_bar_files]; try lia.
      exists []. rewrite app_nil_r. split; [done|]. split; [cbn; lia|done].
    + split; cbn [fst snd scan_progress files total_files processed_files
                  found_bar_files invalid_bar_files]; try lia; try done.
      exists []. rewrite app_nil_r. split; [done|]. split; [cbn; lia|done].
  - split; cbn [fst snd scan_progress files total_files processed_files
                found_bar_files invalid_bar_files]; try lia.
    exists []. rewrite app_nil_r. split; [done|]. split; [cbn; lia|done].
Qed.

(** X18.  The walk accounts for every file.  From any state,
    [_scan_directory] leaves the total alone, appends the reports it
    finds and counts them, each without encryption data and with a score
    between 60 and 100; the files found and the invalid ones never exceed
    the files processed; and when the walk is not cut short by an
    exception of the validation, it has processed exactly the files
    [_count_total_files] counted on the same tree, so the progress
    reaches the total. *)
Theorem scan_accounts_for_every_file recursive clock directory s :
  accounted (_count_total_files recursive directory 0) s
    (_scan_directory recursive clock directory s).
Proof.
  revert s.
  induction directory using listing_item_ind with
    (P0 := λ i, ∀ s,
       accounted
         match i with
         | RegularFile _ _ => 1
         | Directory d =>
             if recursive then _count_total_files recursive d 0 else 0
         | Other => 0
         end s
         match i with
         | RegularFile suffix f =>
             scan_file suffix f
               (clock (processed_files (scan_progress s) + 1)) s
         | Directory d =>
             if recursive then _scan_directory recursive clock d s
             else (None, s)
         | Other => (None, s)
         end);
    intros s; cbn [_scan_directory _count_total_files];
    try apply accounted_refl.
  - specialize (IHdirectory s).
    destruct (count_total_files_add recursive directory
                match i with
                | RegularFile _ _ => 0 + 1
                | Directory d =>
                    if recursive then _count_total_files recursive d 0 else 0
                | Other => 0
                end) as [-> L].
    set (n := match i with
              | RegularFile _ _ => 1
              | Directory d =>
                  if recursive then _count_total_files recursive d 0 else 0
              | Other => 0
              end) in *.
    replace (match i with
             | RegularFile _ _ => 0 + 1
             | Directory d =>
                 if recursive then _count_total_files recursive d 0 else 0
             | Other => 0
             end) with n by (unfold n; by destruct i).
    match goal with
    | |- accounted _ _ (let (_, _) := ?t in _) =>
        destruct t as [[e|] s1] eqn:Er
    end.
    + by apply (accounted_cut _ _ _ _ e).
    + apply (accounted_then _ _ _ (None, s1)); [done|done|].
      apply IHdirectory0.
  - apply scan_file_accounted.
  - destruct recursive; [apply IHdirectory|apply accounted_refl].
Qed.

(** The report of a record whose expiration time can be read. *)
Lemma validate_expiration invalid f now (data sec : gmap string json) s t :
  validates f data →
  data !! "security" = Some (JObj sec) →
  sec !! "expiration_time" = Some (JStr s) → fromisoformat s = Some t →
  ∃ report : gmap string json,
    _validate_bar_file invalid f now = (Ok (Some (JObj report)), invalid) ∧
    report !! "expired" = Some (JBool (t <? now)).
Proof.
  intros V Esec Eexp Et.
  destruct (validate_score invalid f now data V) as (report & Ev & _).
  exists report. split; [done|].
  revert Ev. unfold _validate_bar_file.
  destruct V as [Hp' Hs (marker' & Hm & Ht) Hv [fn Hf] [en He] _].
  rewrite Hp'. rewrite (proj2 (Z.ltb_ge _ _)) by done.
  rewrite (get_obj_some _ _ _ _ Hm), Ht. cbn [negb get].
  destruct (if is_unknown _ then _ else _) as [[]|]; try done.
  rewrite !contains_obj, Hf, He, Esec.
  rewrite !bool_decide_eq_true_2 by eauto. py_run. cbn [andb].
  unfold security_report. rewrite contains_obj, Esec.
  rewrite bool_decide_eq_true_2 by eauto. py_run.
  rewrite (getitem_obj _ _ _ Esec). py_run. cbn [get]. py_run.
  unfold expiration_report. rewrite (get_obj_some _ _ _ _ Eexp). py_run.
  cbn [is_not_None]. rewrite Et. py_run.
  rewrite deduct_missing_obj. py_run. intros [= <-].
  rewrite !lookup_insert_ne by done. apply lookup_insert_eq.
Qed.

(** X19.  The scanner's import looks at the expiration time, the
    manager's import does not.  For a found file that validates and whose
    expiration time can be read: once that time has passed,
    [import_found_file] refuses the file for every password and leaves
    the store as it is; before, it does what [import_portable_file] does.
    [import_portable_file] itself imports the record at any time when the
    password decrypts it. *)
Theorem found_file_expiration st invalid f (data sec : gmap string json) s t
    portable_data password file_id now now' :
  validates f data →
  data !! "security" = Some (JObj sec) →
  sec !! "expiration_time" = Some (JStr s) → fromisoformat s = Some t →
  (t < now →
   import_found_file st invalid f portable_data password file_id now now' =
     (ImportError "This .bar file has expired and cannot be imported",
      st, invalid)) ∧
  (now ≤ t →
   ∃ report,
     import_found_file st invalid f portable_data password file_id now now' =
       match import_portable_file st portable_data password file_id now' with
       | (Ok new_id, st') => (ImportSuccess new_id report, st', invalid)
       | (Raise e, st') => (ImportError (str_exn e), st', invalid)
       end) ∧
  (∀ (env : gmap string json) content,
     portable_record data → passes_blacklist st data →
     data !! "encryption" = Some (JObj env) →
     decrypt_file_content (JObj env) password = Ok content →
     (import_portable_file st (JObj data) password file_id now').1
       = Ok file_id).
Proof.
  intros V Esec Eexp Et.
  destruct (validate_expiration invalid f now data sec s t V Esec Eexp Et)
    as (report & Ev & Ee).
  assert (truthy (JObj report) = true) as Tr.
  { cbn [truthy]. destruct (Nat.eqb_spec (size report) 0) as [E|]; [|done].
    apply map_size_empty_iff in E. by rewrite E in Ee. }
  split; [|split].
  - intros L. unfold import_found_file. rewrite Ev, Tr. cbn [negb].
    rewrite (get_obj_some _ _ _ _ Ee). cbn [truthy].
    by rewrite (proj2 (Z.ltb_lt _ _)).
  - intros L. exists (JObj report).
    unfold import_found_file. rewrite Ev, Tr. cbn [negb].
    rewrite (get_obj_some _ _ _ _ Ee). cbn [truthy].
    rewrite (proj2 (Z.ltb_ge _ _)) by done.
    unfold import_portable_file.
    by destruct (import_body st portable_data password file_id now').
  - intros env content P A Eenc Ed.
    destruct (import_portable_file_stores st data env password content
                file_id now' P A Eenc Ed) as (md & env' & -> & _).
    done.
Qed.

End ScanTheorems.

(** ** Overwriting before removal *)

Section OverwriteTheorems.
Import SecureDelete.

Lemma pattern_length pass_num e : length (pattern pass_num e).1 = 4096%nat.
Proof.
  destruct pass_num as [|[|n]]; cbn [pattern fst];
    [apply length_replicate..|apply os_urandom_length].
Qed.

Lemma mod_block (written i : nat) :
  (written mod 4096 = 0)%nat → (written ≤ i)%nat → (i - written < 4096)%nat →
  (i mod 4096 = i - written)%nat.
Proof.
  intros M L B. apply Nat.Lcm0.mod_divide in M as [q ->].
  replace i with ((i - q * 4096) + q * 4096)%nat at 1 by lia.
  rewrite Nat.Div0.mod_add. apply Nat.mod_small. lia.
Qed.

(** The loop of a pass lays the block end to end. *)
Lemma write_chunks_tiles pat fuel file_size bytes_written written :
  length pat = 4096%nat →
  length written = bytes_written →
  (bytes_written ≤ file_size)%nat →
  (file_size - bytes_written ≤ fuel)%nat →
  (bytes_written mod 4096 = 0 ∨ bytes_written = file_size)%nat →
  (∀ i, (i < bytes_written)%nat → written !! i = pat !! (i mod 4096)%nat) →
  ∀ i, (i < file_size)%nat →
    write_chunks fuel pat file_size bytes_written written !! i =
      pat !! (i mod 4096)%nat.
Proof.
  intros Lp. revert bytes_written written.
  induction fuel as [|fuel IH]; intros bw written Lw Le Lf Hm Hw i Hi.
  - cbn. apply Hw. lia.
  - cbn [write_chunks]. destruct (Nat.ltb_spec bw file_size) as [Lt|];
      [|apply Hw; lia].
    destruct Hm as [Hm|Hm]; [|lia].
    apply IH; try lia.
    + rewrite length_app, length_take, Lp, Lw. lia.
    + destruct (decide (4096 ≤ file_size - bw)%nat).
      * left. replace (Nat.min 4096 (file_size - bw)) with 4096%nat by lia.
        apply Nat.Lcm0.mod_divide in Hm as [q ->].
        replace (q * 4096 + 4096)%nat with (S q * 4096)%nat by lia.
        apply Nat.Div0.mod_mul.
      * right. lia.
    + intros j Hj. destruct (decide (j < bw)%nat).
      * rewrite lookup_app_l by lia. by apply Hw.
      * rewrite lookup_app_r by lia. rewrite Lw, lookup_take.
        rewrite decide_True by lia.
        f_equal. symmetry. apply mod_block; lia.
Qed.

(** What the passes leave on disk, one after the other. *)
Lemma overwrite_passes_trace todo pass_num file_size e :
  length (overwrite_passes todo pass_num file_size e).1 = todo ∧
  ∀ k contents,
    (overwrite_passes todo pass_num file_size e).1 !! k = Some contents →
    length contents = file_size ∧
    ∃ pat,
      length pat = 4096%nat ∧
      ((pass_num + k = 0)%nat → pat = replicate 4096 x00) ∧
      ((pass_num + k = 1)%nat → pat = replicate 4096 xff) ∧
      ∀ i, (i < file_size)%nat → contents !! i = pat !! (i mod 4096)%nat.
Proof.
  revert pass_num e. induction todo as [|todo IH]; intros pass_num e.
  - split; [done|]. intros k contents E. by destruct k.
  - cbn [overwrite_passes].
    pose proof (pattern_length pass_num e) as Lp.
    assert (pass_num = 0%nat → (pattern pass_num e).1 = replicate 4096 x00)
      as P0 by by intros ->.
    assert (pass_num = 1%nat → (pattern pass_num e).1 = replicate 4096 xff)
      as P1 by by intros ->.
    destruct (pattern pass_num e) as [pat e1]. cbn [fst] in Lp, P0, P1.
    specialize (IH (S pass_num) e1).
    destruct (overwrite_passes todo (S pass_num) file_size e1) as [later e2].
    cbn [fst] in *. destruct IH as [IHl IHk].
    split; [cbn; by rewrite IHl|].
    intros [|k] contents E; cbn in E.
    + injection E as <-. split; [by apply write_chunks_length; try lia|].
      exists pat. split; [done|]. split; [intros; apply P0; lia|].
      split; [intros; apply P1; lia|].
      apply write_chunks_tiles; try done; try lia; by left.
    + destruct (IHk k contents E) as (L & pat' & Lp' & Q0 & Q1 & T).
      split; [done|]. exists pat'. split; [done|].
      split; [intros; lia|]. split; [intros; apply Q1; lia|done].
Qed.

(** X20.  [secure_delete_file] on a file it may write, for any number of
    passes: the call returns [True] and removes the path and nothing
    else.  Before that the file holds, pass after pass, as many bytes as
    it had, made of one 4096-byte block laid end to end: zeros in the
    first pass, ones in the second, and in every later pass one random
    block that repeats every 4096 bytes; then it is truncated.  With no
    pass (zero or a negative number) the file is truncated and removed
    without being overwritten. *)
Theorem secure_delete_file_overwrites (fs : filesystem) path data passes e :
  fs !! path = Some (File data true) →
  let r := secure_delete_file fs path passes e in
  returned r = true ∧ fs_after r = delete path fs ∧
  length (on_disk r) = S (Z.to_nat passes) ∧
  last (on_disk r) = Some [] ∧
  (passes ≤ 0 → on_disk r = [[]]) ∧
  ∀ k contents,
    (k < Z.to_nat passes)%nat → on_disk r !! k = Some contents →
    length contents = length data ∧
    ∃ pat,
      length pat = 4096%nat ∧
      (k = 0%nat → pat = replicate 4096 x00) ∧
      (k = 1%nat → pat = replicate 4096 xff) ∧
      ∀ i, (i < length data)%nat → contents !! i = pat !! (i mod 4096)%nat.
Proof.
  intros E r. unfold r, secure_delete_file. rewrite E.
  destruct (overwrite_passes_trace (Z.to_nat passes) 0 (length data) e)
    as [Ll Lk].
  destruct (overwrite_passes (Z.to_nat passes) 0 (length data) e)
    as [trace e'] eqn:Eo.
  cbn [fst] in Ll, Lk. cbn [returned fs_after on_disk].
  split; [done|]. split; [done|].
  split; [rewrite length_app, Ll; cbn; lia|].
  split; [apply last_snoc|]. split.
  - intros Lp. replace (Z.to_nat passes) with 0%nat in Ll by lia.
    by destruct trace.
  - intros k contents Hk Ek. rewrite lookup_app_l in Ek by lia.
    apply (Lk k contents Ek).
Qed.

End OverwriteTheorems.

(** ** Sessions *)

Section SessionTheorems.
Import SessionManager Spec.

Lemma validate_session_live st session_id s now :
  sessions st !! session_id = Some s → is_locked s = false →
  now - last_activity s ≤ timeout_minutes st * MINUTE →
  validate_session st session_id now =
    (true, with_sessions st (<[session_id := touch s now]> (sessions st))).
Proof.
  intros E L T. unfold validate_session, timed_out. rewrite E, L.
  by rewrite (proj2 (Z.ltb_ge _ _)).
Qed.

Lemma last_default (t : Z) times d d' :
  List.last (t :: times) d = List.last (t :: times) d'.
Proof.
  revert t. induction times as [|t' times IH]; intros t; [done|].
  change (List.last (t :: t' :: times) d) with (List.last (t' :: times) d).
  change (List.last (t :: t' :: times) d') with (List.last (t' :: times) d').
  apply IH.
Qed.

(** X21.  The timeout is a sliding window: a session that is not locked
    stays valid through any number of validations, as long as each comes
    no later than the timeout after the one before it (the first no later
    than the timeout after the last activity); every one of them returns
    [True], and the session is then still there, with the time of the
    last validation as its last activity. *)
Theorem session_stays_alive st session_id s times :
  sessions st !! session_id = Some s → is_locked s = false →
  spaced (timeout_minutes st * MINUTE) (last_activity s) times →
  let r := validations st session_id times in
  r.1 = replicate (length times) true ∧
  timeout_minutes r.2 = timeout_minutes st ∧
  sessions r.2 !! session_id = Some (touch s (List.last times (last_activity s))).
Proof.
  revert st s. induction times as [|now times IH]; intros st s E L Sp.
  - cbn. split; [done|]. split; [done|]. rewrite E. by destruct s.
  - destruct Sp as [T Sp]. cbn [validations].
    rewrite (validate_session_live st session_id s now E L T).
    set (st1 := with_sessions st _).
    destruct (IH st1 (touch s now)) as (Hv & Ht & Hs).
    { apply lookup_insert_eq. } { done. } { done. }
    destruct (validations st1 session_id times) as [rest st2].
    cbn [fst snd] in *. rewrite Hv. split; [done|]. split; [done|].
    rewrite Hs. f_equal. destruct times as [|t times]; [done|].
    unfold touch. cbn [username created_at last_activity is_locked data].
    f_equal. change (List.last (now :: t :: times) (last_activity s))
      with (List.last (t :: times) (last_activity s)).
    apply last_default.
Qed.

Lemma run_absent st session_id c :
  ¬ creates session_id c →
  sessions st !! session_id = None →
  sessions (run st c) !! session_id = None.
Proof.
  intros Nc E.
  destruct c as [user d id now|id now|id now|id|id now|id|m|now];
    cbn [run create_session validate_session update_activity lock_session
         unlock_session end_session set_timeout monitor_sessions
         with_sessions snd sessions].
  - rewrite lookup_insert_ne; [done|]. intros ->. by apply Nc.
  - unfold validate_session, end_session.
    destruct (sessions st !! id) as [s|] eqn:Ei; [|done].
    destruct (is_locked s); [done|]. destruct (timed_out st s now); cbn.
    + destruct (decide (id = session_id)) as [->|N];
        [apply lookup_delete_eq|by rewrite lookup_delete_ne].
    + rewrite lookup_insert_ne; [done|]. intros ->. by rewrite E in Ei.
  - unfold update_activity.
    destruct (sessions st !! id) as [s|] eqn:Ei; [|done]. cbn.
    rewrite lookup_insert_ne; [done|]. intros ->. by rewrite E in Ei.
  - unfold lock_session.
    destruct (sessions st !! id) as [s|] eqn:Ei; [|done]. cbn.
    rewrite lookup_insert_ne; [done|]. intros ->. by rewrite E in Ei.
  - unfold unlock_session.
    destruct (sessions st !! id) as [s|] eqn:Ei; [|done]. cbn.
    rewrite lookup_insert_ne; [done|]. intros ->. by rewrite E in Ei.
  - unfold end_session.
    destruct (sessions st !! id) as [s|] eqn:Ei; [|done]. cbn.
    destruct (decide (id = session_id)) as [->|N];
      [apply lookup_delete_eq|by rewrite lookup_delete_ne].
  - done.
  - apply map_lookup_filter_None. by left.
Qed.

(** X22.  Expiry is final.  A session that is not locked and has been
    idle for longer than the timeout is refused by [validate_session] and
    removed; from then on, through any calls that do not create a session
    of that id again, it stays absent: validating, refreshing, locking,
    unlocking and ending it all return [False] and change nothing. *)
Theorem session_expiry_is_final st session_id s now calls :
  sessions st !! session_id = Some s → is_locked s = false →
  timeout_minutes st * MINUTE < now - last_activity s →
  Forall (λ c, ¬ creates session_id c) calls →
  (validate_session st session_id now).1 = false ∧
  let st' := foldl run (validate_session st session_id now).2 calls in
  sessions st' !! session_id = None ∧
  (∀ t, validate_session st' session_id t = (false, st')) ∧
  (∀ t, update_activity st' session_id t = (false, st')) ∧
  (∀ t, unlock_session st' session_id t = (false, st')) ∧
  lock_session st' session_id = (false, st') ∧
  end_session st' session_id = (false, st').
Proof.
  intros E L T Hc.
  assert (validate_session st session_id now =
            (false, with_sessions st (delete session_id (sessions st)))) as Ev.
  { unfold validate_session, timed_out, end_session. rewrite E, L.
    by rewrite (proj2 (Z.ltb_lt _ _)). }
  rewrite Ev. cbn [fst snd]. split; [done|].
  set (st1 := with_sessions st _).
  assert (sessions st1 !! session_id = None) as E1 by apply lookup_delete_eq.
  clearbody st1. clear -Hc E1.
  assert (sessions (foldl run st1 calls) !! session_id = None) as E2.
  { revert st1 E1. induction Hc as [|c calls Nc _ IH]; intros st1 E1;
      [done|].
    cbn [foldl]. apply IH. by apply run_absent. }
  cbn zeta. split; [done|].
  unfold validate_session, update_activity, unlock_session, lock_session,
    end_session. by rewrite E2.
Qed.

(** X23.  Only [validate_session] and the monitor look at the timeout.
    A locked session never validates, and validating it never removes it,
    however long it has been idle; [unlock_session] and [update_activity]
    set the last activity without looking at the old one, so a session
    that was idle for longer than the timeout but has not been swept yet
    validates again after either of them.  The monitor removes a session
    that is idle for too long, locked or not. *)
Theorem session_timeout_checks st session_id s :
  sessions st !! session_id = Some s →
  let locked := (lock_session st session_id).2 in
  (∀ now, validate_session locked session_id now = (false, locked)) ∧
  (∀ t t', t' - t ≤ timeout_minutes st * MINUTE →
     (validate_session (unlock_session locked session_id t).2 session_id t').1
       = true) ∧
  (is_locked s = false →
   ∀ t t', t' - t ≤ timeout_minutes st * MINUTE →
     (validate_session (update_activity st session_id t).2 session_id t').1
       = true) ∧
  (∀ now, timeout_minutes st * MINUTE < now - last_activity s →
     sessions (monitor_sessions locked now) !! session_id = None ∧
     sessions (monitor_sessions st now) !! session_id = None).
Proof.
  intros E locked.
  assert (locked = with_sessions st
            (<[session_id := set_locked s true]> (sessions st))) as El
    by (unfold locked, lock_session; by rewrite E).
  assert (sessions locked !! session_id = Some (set_locked s true)) as E1
    by (rewrite El; apply lookup_insert_eq).
  split; [|split; [|split]].
  - intros now. unfold validate_session. by rewrite E1.
  - intros t t' T. unfold unlock_session. rewrite E1. cbn [snd].
    erewrite validate_session_live; [done|apply lookup_insert_eq|done|].
    cbn. by rewrite El.
  - intros L t t' T. unfold update_activity. rewrite E. cbn [snd].
    erewrite validate_session_live; [done|apply lookup_insert_eq|done|].
    done.
  - intros now T. split; apply map_lookup_filter_None; right;
      intros s' Es'; unfold timed_out; cbn [snd].
    + rewrite E1 in Es'. injection Es' as <-. rewrite El. cbn.
      by rewrite (proj2 (Z.ltb_lt _ _)).
    + rewrite E in Es'. injection Es' as <-.
      by rewrite (proj2 (Z.ltb_lt _ _)).
Qed.

End SessionTheorems.

(** ** User accounts *)

Section UserTheorems.
Context `{PrimitivesLaws}.
Import EncryptionManager UserManager Spec.

Local Abbreviation dict_get := FileManager.dict_get.
Local Abbreviation MINUTE := SessionManager.MINUTE.


Lemma hash_password_foreign password guess hw_id hw_id' e :
  hardware_id_hash hw_id' ≠ hardware_id_hash hw_id →
  verify_password guess (hash_password password true hw_id e).1 hw_id'
    = Ok false.
Proof.
  intros N.
  destruct (hash_password_obj password true hw_id e)
    as (record & -> & Es & Eh & Eb & Ei).
  unfold verify_password.
  rewrite (getitem_obj _ _ _ Es), (getitem_obj _ _ _ Eh),
    (getitem_obj _ _ _ Ei), (get_obj_some _ _ _ _ Eb), contains_obj, Ei.
  py_run. rewrite !b64decode_value_b64encode. py_run. cbn [truthy].
  rewrite bool_decide_eq_true_2 by eauto. py_run. cbn [str_ne].
  by destruct (String.eqb_spec (hardware_id_hash hw_id')
                 (hardware_id_hash hw_id)).
Qed.

Lemma truthy_obj (o : gmap string json) k v :
  o !! k = Some v → truthy (JObj o) = true.
Proof.
  intros E. cbn [truthy]. destruct (Nat.eqb_spec (size o) 0) as [E0|]; [|done].
  apply map_size_empty_iff in E0. by rewrite E0 in E.
Qed.

Lemma check_lock_active (u : gmap string json) now :
  u !! "account_status" = Some (JStr "active") →
  check_lock (JObj u) now = Ok (inr (JObj u)).
Proof.
  intros E. unfold check_lock. by rewrite (get_obj_some _ _ _ _ E).
Qed.

(** The document after the lock was found to have run out. *)
Lemma check_lock_locked (u r : gmap string json) t now :
  locked u r t →
  check_lock (JObj u) now =
    if now <? t then Ok (inl (AccountLocked ((t - now) / MINUTE)
                                (JStr (isoformat t))))
    else Ok (inr (JObj (<["failed_login_attempts" := JInt 0]>
                          (<["locked_until" := JNull]>
                             (<["account_status" := JStr "active"]> u))))).
Proof.
  intros [Ep Es Eu _]. unfold check_lock.
  rewrite (get_obj_some _ _ _ _ Es). py_run. cbn [str_eq String.eqb].
  rewrite (get_obj_some _ _ _ _ Eu). py_run.
  assert (truthy (JStr (isoformat t)) = true) as ->.
  { apply truthy_str. intros E.
    pose proof (fromisoformat_isoformat t) as F. rewrite E in F.
    by rewrite fromisoformat_empty in F. }
  cbn [FileManager.fromisoformat_value]. rewrite fromisoformat_isoformat.
  py_run. by destruct (now <? t).
Qed.

(** After the check of the lock, on the user's own device, everything
    turns on whether the password verifies. *)
Lemma authenticate_checked st name (u u1 r : gmap string json) password
    hw_id now :
  users_directory st !! name = Some (JObj u) →
  truthy (JObj u) = true →
  check_lock (JObj u) now = Ok (inr (JObj u1)) →
  u1 !! "password" = Some (JObj r) → own_device r hw_id →
  authenticate st name password hw_id now =
    verified ← verify_password password (JObj r) hw_id;
    if negb verified then count_failure (JObj u1) now
    else after_password (JObj u1) hw_id now.
Proof.
  intros Eu Tu Ec Ep Own. unfold authenticate, _get_user_data.
  rewrite Eu, Tu, Ec. cbn [negb]. py_run.
  rewrite (getitem_obj _ _ _ Ep). py_run.
  unfold check_device. cbn [get]. py_run. rewrite Ep.
  destruct (truthy match u1 !! "hardware_bound" with
                   | Some x => x
                   | None => JBool false
                   end); [|done].
  cbn [get]. py_run.
  destruct (truthy match r !! "hardware_bound" with
                   | Some x => x
                   | None => JBool false
                   end); [|done].
  destruct (verify_password password (JObj r) hw_id) as [[]|]; py_run;
    try done.
  cbn [negb]. py_run.
  unfold own_device, FileManager.dict_get in Own. by rewrite Own.
Qed.

Lemma count_failure_obj (u : gmap string json) n now :
  u !! "failed_login_attempts" = Some (JInt n) →
  count_failure (JObj u) now =
    if MAX_LOGIN_ATTEMPTS <=? n + 1 then
      Ok (LockedOut
            (JObj (<["locked_until" :=
                       JStr (isoformat
                               (now + LOCKOUT_DURATION_MINUTES * MINUTE))]>
                     (<["account_status" := JStr "locked"]>
                        (<["failed_login_attempts" := JInt (n + 1)]> u))))
            (now + LOCKOUT_DURATION_MINUTES * MINUTE))
    else
      Ok (IncorrectPassword
            (JObj (<["failed_login_attempts" := JInt (n + 1)]> u))
            (MAX_LOGIN_ATTEMPTS - (n + 1))).
Proof.
  intros E. unfold count_failure. rewrite (get_obj_some _ _ _ _ E). py_run.
  cbn [plus1 as_int FileManager.setitem]. py_run.
  by destruct (MAX_LOGIN_ATTEMPTS <=? n + 1).
Qed.

Lemma after_password_obj (u r : gmap string json) hw_id now :
  u !! "password" = Some (JObj r) → own_device r hw_id →
  truthy (dict_get u "two_factor_enabled" (JBool false))
  && truthy (dict_get u "two_factor_secret" JNull) = false →
  after_password (JObj u) hw_id now =
    Ok (Authenticated
          (JObj (<["last_login" := JStr (isoformat now)]>
                   (<["locked_until" := JNull]>
                      (<["account_status" := JStr "active"]>
                         (<["failed_login_attempts" := JInt 0]> u)))))).
Proof.
  intros Ep Own T2. unfold after_password. cbn [get]. py_run.
  unfold own_device, FileManager.dict_get in Own.
  unfold FileManager.dict_get in T2.
  destruct (truthy match u !! "hardware_bound" with
                   | Some x => x
                   | None => JBool false
                   end).
  - rewrite Ep. cbn [get]. py_run.
    rewrite <- andb_assoc, Own, andb_false_r. by rewrite T2.
  - py_run. by rewrite T2.
Qed.

(** A password that does not verify, below the threshold. *)
Lemma authenticate_user_incorrect st name (u r : gmap string json) n guess
    hw_id session_id now :
  users_directory st !! name = Some (JObj u) →
  account u r n → own_device r hw_id →
  verify_password guess (JObj r) hw_id = Ok false →
  n + 1 < MAX_LOGIN_ATTEMPTS →
  ∃ st' (u' : gmap string json),
    authenticate_user st name guess hw_id session_id now =
      (Ok (false, Some (incorrect_password (MAX_LOGIN_ATTEMPTS - (n + 1))),
           None), st') ∧
    users_directory st' !! name = Some (JObj u') ∧
    account u' r (n + 1) ∧
    session_manager st' = session_manager st.
Proof.
  intros Eu [Ep Ea Es T2] Own Ev L. unfold authenticate_user.
  rewrite (authenticate_checked st name u u r guess hw_id now Eu
             (truthy_obj _ _ _ Ep) (check_lock_active u now Es) Ep Own).
  rewrite Ev. py_run. cbn [negb].
  rewrite (count_failure_obj u n now Ea).
  rewrite (proj2 (Z.leb_gt _ _)) by done.
  eexists _, _. split; [reflexivity|]. cbn.
  split; [apply lookup_insert_eq|]. split; [|done].
  split; rewrite ?lookup_insert_ne by done; try done.
  - apply lookup_insert_eq.
  - unfold FileManager.dict_get in *. by rewrite !lookup_insert_ne.
Qed.

(** The failure that reaches the threshold. *)
Lemma authenticate_user_lockout st name (u r : gmap string json) n guess
    hw_id session_id now :
  users_directory st !! name = Some (JObj u) →
  account u r n → own_device r hw_id →
  verify_password guess (JObj r) hw_id = Ok false →
  MAX_LOGIN_ATTEMPTS ≤ n + 1 →
  ∃ st' (u' : gmap string json),
    authenticate_user st name guess hw_id session_id now =
      (Ok (false, Some locked_out, None), st') ∧
    users_directory st' !! name = Some (JObj u') ∧
    locked u' r (now + LOCKOUT_DURATION_MINUTES * MINUTE) ∧
    session_manager st' = session_manager st.
Proof.
  intros Eu [Ep Ea Es T2] Own Ev L. unfold authenticate_user.
  rewrite (authenticate_checked st name u u r guess hw_id now Eu
             (truthy_obj _ _ _ Ep) (check_lock_active u now Es) Ep Own).
  rewrite Ev. py_run. cbn [negb].
  rewrite (count_failure_obj u n now Ea).
  rewrite (proj2 (Z.leb_le _ _)) by done.
  eexists _, _. split; [reflexivity|]. cbn.
  split; [apply lookup_insert_eq|]. split; [|done].
  split.
  - by rewrite !lookup_insert_ne.
  - rewrite lookup_insert_ne by done. apply lookup_insert_eq.
  - apply lookup_insert_eq.
  - unfold FileManager.dict_get in *. by rewrite !lookup_insert_ne.
Qed.

(** While the lock lasts. *)
Lemma authenticate_user_locked st name (u r : gmap string json) t password
    hw_id session_id now :
  users_directory st !! name = Some (JObj u) →
  locked u r t → now < t →
  ∃ st',
    authenticate_user st name password hw_id session_id now =
      (Ok (false, Some (still_locked ((t - now) / MINUTE)), None), st') ∧
    users_directory st' = users_directory st ∧
    session_manager st' = session_manager st.
Proof.
  intros Eu Lk L. unfold authenticate_user, authenticate, _get_user_data.
  rewrite Eu, (truthy_obj _ _ _ (lk_password _ _ _ Lk)). cbn [negb].
  rewrite (check_lock_locked u r t now Lk).
  rewrite (proj2 (Z.ltb_lt _ _)) by done. py_run.
  eexists. split; [reflexivity|]. done.
Qed.

(** A password that verifies, after a check of the lock that lets the
    call go on. *)
Lemma authenticate_user_verified st name (u u1 r : gmap string json) password
    hw_id session_id now :
  users_directory st !! name = Some (JObj u) →
  truthy (JObj u) = true →
  check_lock (JObj u) now = Ok (inr (JObj u1)) →
  u1 !! "password" = Some (JObj r) → own_device r hw_id →
  truthy (dict_get u1 "two_factor_enabled" (JBool false))
  && truthy (dict_get u1 "two_factor_secret" JNull) = false →
  verify_password password (JObj r) hw_id = Ok true →
  ∃ st' (u' : gmap string json),
    authenticate_user st name password hw_id session_id now =
      (Ok (true, None, Some session_id), st') ∧
    users_directory st' !! name = Some (JObj u') ∧
    account u' r 0 ∧
    u' !! "last_login" = Some (JStr (isoformat now)) ∧
    SessionManager.sessions (session_manager st') !! session_id =
      Some {| SessionManager.username := name;
              SessionManager.created_at := now;
              SessionManager.last_activity := now;
              SessionManager.is_locked := false;
              SessionManager.data :=
                JObj {[ "role" := dict_get u1 "role" (JStr ROLE_USER) ]} |}.
Proof.
  intros Eu Tu Ec Ep Own T2 Ev. unfold authenticate_user.
  rewrite (authenticate_checked st name u u1 r password hw_id now Eu Tu Ec Ep
             Own).
  rewrite Ev. py_run. cbn [negb].
  rewrite (after_password_obj u1 r hw_id now Ep Own T2).
  cbn [get]. unfold SessionManager.create_session.
  assert (truthy (JObj {[ "role" := match
        (<["last_login" := JStr (isoformat now)]>
           (<["locked_until" := JNull]>
              (<["account_status" := JStr "active"]>
                 (<["failed_login_attempts" := JInt 0]> u1)))) !! "role" with
      | Some x => x
      | None => JStr ROLE_USER
      end ]}) = true) as ->
    by (eapply truthy_obj; apply lookup_singleton_eq).
  eexists _, _. split; [reflexivity|]. cbn.
  split; [apply lookup_insert_eq|]. split; [|split].
  - split.
    + by rewrite !lookup_insert_ne.
    + rewrite !lookup_insert_ne by done. apply lookup_insert_eq.
    + rewrite !lookup_insert_ne by done. apply lookup_insert_eq.
    + unfold FileManager.dict_get in *. by rewrite !lookup_insert_ne.
  - apply lookup_insert_eq.
  - rewrite lookup_insert_eq. do 3 f_equal.
    unfold FileManager.dict_get. by rewrite !lookup_insert_ne.
Qed.


Lemma unlock_account_locked st name (u r : gmap string json) t admin :
  users_directory st !! name = Some (JObj u) → locked u r t →
  ∃ st' (u' : gmap string json),
    unlock_account st name admin = (Ok true, st') ∧
    users_directory st' !! name = Some (JObj u') ∧
    account u' r 0 ∧
    session_manager st' = session_manager st.
Proof.
  intros Eu [Ep Es El T2]. unfold unlock_account, _get_user_data.
  rewrite Eu, (truthy_obj _ _ _ Ep). cbn [negb].
  rewrite (get_obj_some _ _ _ _ Es). py_run.
  cbn [str_eq String.eqb negb FileManager.setitem]. py_run.
  eexists _, _. split; [reflexivity|]. cbn.
  split; [apply lookup_insert_eq|]. split; [|done]. split.
  - by rewrite !lookup_insert_ne.
  - apply lookup_insert_eq.
  - rewrite !lookup_insert_ne by done. apply lookup_insert_eq.
  - unfold FileManager.dict_get in *. by rewrite !lookup_insert_ne.
Qed.

(** A password that verifies for a stored account, locked or not, once a
    lock has run out. *)
Lemma authenticate_user_right st name (u r : gmap string json) password hw_id
    session_id now :
  users_directory st !! name = Some (JObj u) →
  (∃ n, account u r n) ∨ (∃ t, locked u r t ∧ t ≤ now) →
  own_device r hw_id →
  verify_password password (JObj r) hw_id = Ok true →
  (authenticate_user st name password hw_id session_id now).1 =
    Ok (true, None, Some session_id).
Proof.
  intros Eu [[n [Ep Ea Es T2]]|(t & Lk & L)] Own Ev.
  - destruct (authenticate_user_verified st name u u r password hw_id
                session_id now Eu (truthy_obj _ _ _ Ep)
                (check_lock_active u now Es) Ep Own T2 Ev)
      as (st' & u' & -> & _). done.
  - pose proof (check_lock_locked u r t now Lk) as Ec.
    rewrite (proj2 (Z.ltb_ge _ _)) in Ec by done.
    destruct Lk as [Ep Es El T2].
    destruct (authenticate_user_verified st name u _ r password hw_id
                session_id now Eu (truthy_obj _ _ _ Ep) Ec)
      as (st' & u' & -> & _); try done.
    + by rewrite !lookup_insert_ne.
    + unfold FileManager.dict_get in *. by rewrite !lookup_insert_ne.
Qed.

(** X25.  Five failed logins in a row lock the account.  For an account
    in good standing, on its own device: four passwords that do not
    verify are answered with 4, 3, 2 and 1 attempts remaining, the fifth
    with the lockout.  For the next 30 minutes every login is refused as
    locked, whatever the password, the right one included, and changes
    neither the user data nor the sessions.  Once the 30 minutes are over
    the right password logs in again, and so it does at any time after
    [unlock_account]. *)
Theorem five_failures_lock_the_account st name (u r : gmap string json) hw_id
    g1 g2 g3 g4 g5 t1 t2 t3 t4 t5 password session_id admin :
  users_directory st !! name = Some (JObj u) →
  account u r 0 → own_device r hw_id →
  Forall (λ g, verify_password g (JObj r) hw_id = Ok false)
    [g1; g2; g3; g4; g5] →
  verify_password password (JObj r) hw_id = Ok true →
  let a1 := authenticate_user st name g1 hw_id session_id t1 in
  let a2 := authenticate_user a1.2 name g2 hw_id session_id t2 in
  let a3 := authenticate_user a2.2 name g3 hw_id session_id t3 in
  let a4 := authenticate_user a3.2 name g4 hw_id session_id t4 in
  let a5 := authenticate_user a4.2 name g5 hw_id session_id t5 in
  let until := t5 + 30 * SessionManager.MINUTE in
  a1.1 = Ok (false, Some (incorrect_password 4), None) ∧
  a2.1 = Ok (false, Some (incorrect_password 3), None) ∧
  a3.1 = Ok (false, Some (incorrect_password 2), None) ∧
  a4.1 = Ok (false, Some (incorrect_password 1), None) ∧
  a5.1 = Ok (false, Some locked_out, None) ∧
  (∀ guess t, t < until →
     ∃ st',
       authenticate_user a5.2 name guess hw_id session_id t =
         (Ok (false,
              Some (still_locked ((until - t) / SessionManager.MINUTE)),
              None), st') ∧
       users_directory st' = users_directory a5.2 ∧
       session_manager st' = session_manager a5.2) ∧
  (∀ t, until ≤ t →
     (authenticate_user a5.2 name password hw_id session_id t).1 =
       Ok (true, None, Some session_id)) ∧
  (unlock_account a5.2 name admin).1 = Ok true ∧
  (∀ t, (authenticate_user (unlock_account a5.2 name admin).2 name password
           hw_id session_id t).1 = Ok (true, None, Some session_id)).
Proof.
  intros Eu A Own Hg Ev.
  apply Forall_cons in Hg as [V1 Hg]. apply Forall_cons in Hg as [V2 Hg].
  apply Forall_cons in Hg as [V3 Hg]. apply Forall_cons in Hg as [V4 Hg].
  apply Forall_cons in Hg as [V5 _].
  destruct (authenticate_user_incorrect st name u r 0 g1 hw_id session_id t1
              Eu A Own V1) as (st1 & u1 & E1 & Eu1 & A1 & _); [done|].
  destruct (authenticate_user_incorrect st1 name u1 r 1 g2 hw_id session_id t2
              Eu1 A1 Own V2) as (st2 & u2 & E2 & Eu2 & A2 & _); [done|].
  destruct (authenticate_user_incorrect st2 name u2 r 2 g3 hw_id session_id t3
              Eu2 A2 Own V3) as (st3 & u3 & E3 & Eu3 & A3 & _); [done|].
  destruct (authenticate_user_incorrect st3 name u3 r 3 g4 hw_id session_id t4
              Eu3 A3 Own V4) as (st4 & u4 & E4 & Eu4 & A4 & _); [done|].
  destruct (authenticate_user_lockout st4 name u4 r 4 g5 hw_id session_id t5
              Eu4 A4 Own V5) as (st5 & u5 & E5 & Eu5 & L5 & _); [done|].
  intros a1 a2 a3 a4 a5 until. subst a1 a2 a3 a4 a5 until.
  rewrite E1. cbn [fst snd]. rewrite E2. cbn [fst snd].
  rewrite E3. cbn [fst snd]. rewrite E4. cbn [fst snd].
  rewrite E5. cbn [fst snd].
  do 5 (split; [done|]). split; [|split; [|split]].
  - intros guess t Lt.
    apply (authenticate_user_locked st5 name u5 r _ guess hw_id session_id t
             Eu5 L5 Lt).
  - intros t Lt.
    apply (authenticate_user_right st5 name u5 r); try done.
    right. by exists (t5 + LOCKOUT_DURATION_MINUTES * SessionManager.MINUTE).
  - by destruct (unlock_account_locked st5 name u5 r _ admin Eu5 L5)
      as (st6 & u6 & -> & _).
  - intros t.
    destruct (unlock_account_locked st5 name u5 r _ admin Eu5 L5)
      as (st6 & u6 & -> & Eu6 & A6 & _). cbn [snd].
    apply (authenticate_user_right st6 name u6 r); try done.
    left. by exists 0.
Qed.

(** X26.  A foreign device is turned away before the password counts.
    For an active account whose password record was made bound to the
    hardware, on a machine whose identifier hashes differently:
    [authenticate_user] returns the device error for every password, the
    right one included, logs a security alert and writes nothing else, so
    that no failed attempt is counted and the account is never locked
    from there. *)
Theorem foreign_device_is_refused st name (u : gmap string json) password e
    hw_id hw_id' guess session_id now :
  users_directory st !! name = Some (JObj u) →
  u !! "password" = Some (hash_password password true hw_id e).1 →
  u !! "hardware_bound" = Some (JBool true) →
  u !! "account_status" = Some (JStr "active") →
  hardware_id_hash hw_id' ≠ hardware_id_hash hw_id →
  authenticate_user st name guess hw_id' session_id now =
    (Ok (false, Some device_message, None),
     log_event st SECURITY_ALERT name
       (list_to_map [("reason", JStr "hardware_id_mismatch");
                     ("current_hw_hash", JStr (hardware_id_hash hw_id'))])
       WARNING).
Proof.
  intros Eu Ep Eb Es N.
  pose proof (hash_password_foreign password guess hw_id hw_id' e N) as Ev.
  destruct (hash_password_obj password true hw_id e)
    as (record & Er & _ & _ & Erb & Ei).
  rewrite Er in Ep, Ev.
  unfold authenticate_user, authenticate, _get_user_data.
  rewrite Eu, (truthy_obj _ _ _ Ep). cbn [negb].
  rewrite (check_lock_active u now Es). py_run.
  unfold check_device.
  rewrite (get_obj_some _ _ _ _ Eb). py_run. cbn [truthy].
  rewrite (get_obj_some _ _ _ _ Ep). py_run.
  rewrite (get_obj_some _ _ _ _ Erb). py_run. cbn [truthy].
  rewrite Ev. py_run. cbn [negb].
  rewrite (get_obj_some _ _ _ _ Ei). py_run.
  rewrite (truthy_str _ (sha256_hexdigest_nonempty hw_id)).
  cbn [str_ne andb].
  by destruct (String.eqb_spec (hardware_id_hash hw_id')
                 (hardware_id_hash hw_id)).
Qed.

Lemma add_minutes_in_range now m :
  0 ≤ now → 0 ≤ m → m * SessionManager.MINUTE < 2 ^ 50 →
  now + m * SessionManager.MINUTE < DATETIME_END →
  add_minutes now m = Ok (now + m * SessionManager.MINUTE).
Proof.
  unfold SessionManager.MINUTE. intros Hn Hm Hb He. unfold add_minutes.
  assert (0 ≤ m / 1440 < 20000) as [D1 D2].
  { split; [apply Z.div_pos; lia|apply Z.div_lt_upper_bound; lia]. }
  rewrite (proj2 (Z.ltb_ge _ _)), (proj2 (Z.ltb_ge _ _)) by lia.
  cbn [orb]. unfold MAX_DELTA_DAYS.
  rewrite (proj2 (Z.ltb_ge _ _)) by lia.
  unfold SessionManager.MINUTE.
  rewrite (proj2 (Z.leb_le _ _)), (proj2 (Z.ltb_lt _ _)) by lia.
  done.
Qed.

(** X27.  [lock_account] never returns [True].  For a user that does not
    exist it returns [False].  For one that exists, and a lock that ends
    on a day the calendar has, it saves the locked status and then
    raises [AttributeError], because the session manager has no method
    [end_all_user_sessions]: no session is ended and no event is logged.
    The lock that was saved holds all the same: from then on until it
    runs out every login is refused.  (The duration is at most what
    [2 ^ 50] microseconds hold, some 35 years: the minutes left are
    computed in floating point, and up to there they are the integer
    quotient.)  When the end of the lock is no date any more, the
    [OverflowError] of the addition leaves the call before anything is
    saved. *)
Theorem lock_account_never_returns st name duration now :
  (lock_account st name duration now).1 ≠ Ok true ∧
  session_manager (lock_account st name duration now).2 = session_manager st ∧
  audit_log (lock_account st name duration now).2 = audit_log st ∧
  (∀ (u r : gmap string json) n,
    users_directory st !! name = Some (JObj u) → account u r n →
    0 ≤ now → 0 ≤ duration →
    duration * SessionManager.MINUTE < 2 ^ 50 →
    now + duration * SessionManager.MINUTE < DATETIME_END →
    ∃ st' (u' : gmap string json),
      lock_account st name duration now =
        (Raise (AttributeError
           "'SessionManager' object has no attribute 'end_all_user_sessions'"),
         st') ∧
      users_directory st' !! name = Some (JObj u') ∧
      locked u' r (now + duration * SessionManager.MINUTE) ∧
      ∀ guess hw_id session_id t,
        now ≤ t → t < now + duration * SessionManager.MINUTE →
        (authenticate_user st' name guess hw_id session_id t).1 =
          Ok (false,
              Some (still_locked
                      ((now + duration * SessionManager.MINUTE - t)
                       / SessionManager.MINUTE)), None)) ∧
  (∀ u msg,
    users_directory st !! name = Some u → truthy u = true →
    add_minutes now duration = Raise (OverflowError msg) →
    lock_account st name duration now = (Raise (OverflowError msg), st)).
Proof.
  split; [|split; [|split; [|split]]].
  - unfold lock_account. repeat case_match; done.
  - unfold lock_account. repeat case_match; done.
  - unfold lock_account. repeat case_match; done.
  - intros u r n Eu [Ep Ea Es T2] Hn Hd Hb He.
    unfold lock_account, _get_user_data.
    rewrite Eu, (truthy_obj _ _ _ Ep). cbn [negb].
    rewrite (add_minutes_in_range now duration Hn Hd Hb He).
    cbn [FileManager.setitem]. py_run.
    set (u' := <["locked_until" :=
                   JStr (isoformat (now + duration * SessionManager.MINUTE))]>
                 (<["account_status" := JStr "locked"]> u)).
    assert (locked u' r (now + duration * SessionManager.MINUTE)) as Lk.
    { unfold u'. split.
      - by rewrite !lookup_insert_ne.
      - rewrite lookup_insert_ne by done. apply lookup_insert_eq.
      - apply lookup_insert_eq.
      - unfold FileManager.dict_get in *. by rewrite !lookup_insert_ne. }
    exists (_save_user_data st name (JObj u')), u'.
    split; [done|]. split; [apply lookup_insert_eq|]. split; [done|].
    intros guess hw_id session_id t _ Lt.
    destruct (authenticate_user_locked (_save_user_data st name (JObj u'))
                name u' r (now + duration * SessionManager.MINUTE) guess
                hw_id session_id t) as (st' & -> & _);
      try done.
    apply lookup_insert_eq.
  - intros u msg Eu Tu Eo. unfold lock_account, _get_user_data.
    by rewrite Eu, Tu, Eo.
Qed.

Lemma str_exists_first_line p s suffix :
  str_exists p (first_line s) = true →
  str_exists p (first_line (s +:+ suffix)) = true.
Proof.
  induction s as [|c s IH]; [done|].
  change (String c s +:+ suffix) with (String c (s +:+ suffix)).
  cbn [first_line].
  destruct (Ascii.eqb c "010"%char); [done|]. cbn [str_exists].
  intros [E|E]%orb_true_iff; apply orb_true_iff; [by left|right; by apply IH].
Qed.

(** X28.  The complexity rule looks at the first character only.  A
    password is refused when it has fewer than 8 characters, and when its
    first character is not a letter, a digit or one of [@$!%*?&],
    whatever follows; but a password that is accepted stays accepted with
    anything appended to it, characters outside that set included. *)
Theorem password_complexity_first_character :
  (∀ password, (String.length password < 8)%nat →
     _validate_password_complexity password = false) ∧
  (∀ c rest, is_allowed c = false →
     _validate_password_complexity (String c rest) = false) ∧
  (∀ password suffix,
     _validate_password_complexity password = true →
     _validate_password_complexity (password +:+ suffix) = true).
Proof.
  split; [|split].
  - intros password L. unfold _validate_password_complexity.
    by rewrite (proj2 (Nat.ltb_lt _ _)).
  - intros c rest N. unfold _validate_password_complexity.
    destruct (_ <? _)%nat; [done|]. rewrite N. apply andb_false_r.
  - intros password suffix. unfold _validate_password_complexity.
    destruct (Nat.ltb_spec (String.length password) PASSWORD_MIN_LENGTH)
      as [|L]; [done|].
    rewrite !andb_true_iff. intros [[[[E1 E2] E3] E4] E5].
    assert (String.length (password +:+ suffix) =
            (String.length password + String.length suffix)%nat) as El.
    { clear. induction password as [|c p IH]; [done|].
      change (String c p +:+ suffix) with (String c (p +:+ suffix)).
      cbn [String.length]. by rewrite IH. }
    rewrite (proj2 (Nat.ltb_ge _ _)) by lia.
    rewrite !str_exists_first_line by done.
    destruct password; [done|]. done.
Qed.

End UserTheorems.

(** ** The theorems of the life of an entry on the sample data *)

Section LifecycleSamples.
Import EncryptionManager FileManager FileScanner Spec Reference.
Existing Instance file_system.

Lemma create_then_access_witness :
  let c := create_secure_file empty_store content "notes.txt" "pw" settings
             "7c9e" (λ _, x2a) 1000 in
  created c = Ok "7c9e" ∧
  ∃ metadata st',
    access_file (store_after c) "7c9e" "pw" 2000 =
      (Ok (content, JObj metadata), st') ∧
    metadata !! "filename" = Some (JStr "notes.txt") ∧
    metadata !! "access_count" = Some (JInt 1) ∧
    metadata_directory st' !! "7c9e" = Some (JObj metadata).
Proof.
  apply (create_then_access empty_store content "notes.txt" "pw" settings
           policy3 "7c9e" (λ _, x2a) 1000 2000).
  - split; [|split].
    + exists "5000". split; vm_compute; reflexivity.
    + vm_compute. reflexivity.
    + vm_compute. reflexivity.
  - split; discriminate.
  - vm_compute. reflexivity.
Defined.

Lemma sample_tidy_empty : tidy empty_store.
Proof.
  split.
  - intros name [m E]. vm_compute in E. discriminate.
  - intros name m E. vm_compute in E. discriminate.
  - constructor.
Qed.

Lemma sample_tidy_blacklist : tidy store_with_blacklist.
Proof.
  split.
  - intros name [m E]. vm_compute in E. discriminate.
  - intros name m E. vm_compute in E. discriminate.
  - constructor.
Qed.

(** [imported_store] comes from the empty store by one import. *)
Lemma sample_tidy_imported : tidy imported_store.
Proof.
  apply (steps_tidy empty_store); [|apply sample_tidy_empty].
  eapply steps_step; [|apply steps_refl].
  by apply (step_import_portable empty_store (JObj portable) "pw" "a1b2" 1500).
Qed.

(** [store] holds an entry as [create_secure_file] writes it. *)
Lemma sample_tidy : tidy store.
Proof.
  split.
  - intros name [m E]. unfold store in E. cbn [metadata_directory] in E.
    apply lookup_singleton_Some in E as [<- _].
    vm_compute. reflexivity.
  - intros name m E. unfold store in E. cbn [metadata_directory] in E.
    apply lookup_singleton_Some in E as [<- <-].
    intros o [= <-]. split.
    + intros file_path Ep. vm_compute in Ep. discriminate.
    + intros v Ev. vm_compute in Ev. injection Ev as <-.
      vm_compute. reflexivity.
  - constructor.
Qed.

Lemma blacklist_is_permanent_witness :
  let st1 := store_after (create_secure_file store_with_blacklist content
                            "notes.txt" "pw" settings "7c9e" (λ _, x2a) 1000) in
  let st2 := (access_file st1 "7c9e" "pw1" 2000).2 in
  let st3 := (_secure_delete_file st2 "7c9e" 3000).2 in
  _is_blacklisted st3 (JStr (_hash_content content)) = true ∧ tidy st3.
Proof.
  apply (blacklist_is_permanent store_with_blacklist).
  - apply sample_tidy_blacklist.
  - eapply steps_step.
    { by apply (step_create store_with_blacklist content "notes.txt" "pw"
                  settings "7c9e" (λ _, x2a) 1000). }
    eapply steps_step.
    { by apply (step_access _ "7c9e" "pw1" 2000). }
    eapply steps_step; [|apply steps_refl].
    by apply (step_secure_delete _ "7c9e" 3000).
  - vm_compute. reflexivity.
Defined.

Lemma blacklist_stays_filed_witness :
  let st' := (_secure_delete_file imported_store "a1b2" 2000).2 in
  blacklist_filed st' ∧ _is_blacklisted st' (JStr "") = false ∧
  _is_blacklisted st' (JStr long_hash) = false.
Proof.
  destruct (blacklist_stays_filed imported_store
              (_secure_delete_file imported_store "a1b2" 2000).2)
    as (F & E & L).
  - apply sample_tidy_imported.
  - eapply steps_step; [|apply steps_refl].
    by apply (step_secure_delete imported_store "a1b2" 2000).
  - intros name record E. vm_compute in E. discriminate.
  - split; [exact F|]. split; [exact E|].
    apply L; vm_compute; reflexivity.
Defined.

Lemma sample_created_describes : describes created_entry policy3 1000 0.
Proof.
  split.
  - exists (JStr "7c9e"). vm_compute. reflexivity.
  - exists (list_to_map [
        ("expiration_time", JStr "5000"); ("max_access_count", JInt 3);
        ("deadman_switch", JNull); ("disable_export", JBool false)]),
      (JStr "5000"), (JInt 3), JNull.
    repeat split; try (vm_compute; reflexivity).
    exists "5000". split; vm_compute; reflexivity.
  - exists (JStr "1000"). split; [vm_compute; reflexivity|].
    exists "1000". split; vm_compute; reflexivity.
  - vm_compute. reflexivity.
Qed.

Lemma failed_attempts_are_consecutive_witness :
  let r1 := access_file created_store "7c9e" "pw1" 2000 in
  let r2 := access_file r1.2 "7c9e" "pw1" 2100 in
  let r3 := access_file r2.2 "7c9e" "pw" 2200 in
  let r4 := access_file r3.2 "7c9e" "pw1" 2300 in
  let r5 := access_file r4.2 "7c9e" "pw1" 2400 in
  r1.1 = Raise (AuthenticationError 2) ∧
  r2.1 = Raise (AuthenticationError 1) ∧
  (∃ metadata, r3.1 = Ok (content, metadata)) ∧
  r4.1 = Raise (AuthenticationError 2) ∧
  r5.1 = Raise (AuthenticationError 1) ∧
  is_Some (metadata_directory r5.2 !! "7c9e") ∧
  blacklist_directory r5.2 = blacklist_directory created_store.
Proof.
  apply (failed_attempts_are_consecutive created_store "7c9e" created_entry
           policy3 1000 0 created_envelope "pw" "pw1" content
           2000 2100 2200 2300 2400).
  - vm_compute. reflexivity.
  - apply sample_created_describes.
  - split; discriminate.
  - right. split; [vm_compute|]; reflexivity.
  - vm_compute. reflexivity.
  - exists (JStr "notes.txt"). vm_compute. reflexivity.
  - vm_compute. reflexivity.
  - exists "Decryption failed: ". vm_compute. reflexivity.
  - vm_compute. reflexivity.
  - vm_compute. reflexivity.
  - vm_compute. reflexivity.
  - vm_compute. reflexivity.
  - vm_compute. reflexivity.
Defined.

Lemma sample_file_path_elsewhere : file_path_elsewhere entry.
Proof. intros file_path E. vm_compute in E. discriminate. Qed.

Lemma due_entry_is_destroyed_witness :
  must_destroy policy 7000 1000 0 = true ∧
  ∃ st',
    (∀ password,
       access_file store "7c9e" password 7000 = (Raise PolicyError, st')) ∧
    monitor_file store "7c9e" 7000 = st' ∧
    metadata_directory st' !! "7c9e" = None ∧
    _is_blacklisted st' (JStr (filing_hash entry (JObj envelope))) = true.
Proof.
  destruct (due_entry_is_destroyed store "7c9e" entry envelope policy 1000 0
              6000 7000) as (M & st' & Ea & Em & G & B & _).
  - discriminate.
  - vm_compute. reflexivity.
  - vm_compute. reflexivity.
  - apply sample_describes.
  - split; discriminate.
  - left. vm_compute. reflexivity.
  - vm_compute. reflexivity.
  - apply sample_file_path_elsewhere.
  - vm_compute. reflexivity.
  - lia.
  - split; [exact M|]. exists st'. split; [exact Ea|]. split; [exact Em|].
    split; [exact G|]. apply B. vm_compute. reflexivity.
Defined.

Lemma destroyed_content_stays_out_witness :
  let st' := (_secure_delete_file imported_store "a1b2" 2000).2 in
  import_portable_file st' (JObj portable) "pw" "c3d4" 3000 =
    (Raise BlacklistedError, st').
Proof.
  apply (destroyed_content_stays_out imported_store "a1b2" imported_entry
           (_hash_content content) 2000 _ portable (JBool true) "pw" "c3d4"
           3000).
  - apply sample_tidy_imported.
  - discriminate.
  - vm_compute. reflexivity.
  - vm_compute. reflexivity.
  - vm_compute. discriminate.
  - vm_compute. reflexivity.
  - apply steps_refl.
  - vm_compute. reflexivity.
  - reflexivity.
  - vm_compute. reflexivity.
Defined.

Lemma export_then_import_witness :
  ∃ (portable_data metadata : gmap string json) st3,
    export_portable_file store "7c9e" "pw" = Ok (JObj portable_data) ∧
    import_portable_file empty_store (JObj portable_data) "pw" "a1b2" 1500 =
      (Ok "a1b2", write_metadata empty_store "a1b2" (JObj metadata)) ∧
    describes metadata policy 1500 0 ∧
    metadata !! "content_hash" = Some (JStr (_hash_content content)) ∧
    access_file (write_metadata empty_store "a1b2" (JObj metadata)) "a1b2"
      "pw" 2000 = (Ok (content, JObj (accessed metadata 2000 0)), st3).
Proof.
  apply (export_then_import store "7c9e" entry security envelope policy 1000 0
           "pw" content empty_store "a1b2" 1500 2000).
  - vm_compute. reflexivity.
  - apply sample_describes.
  - split; discriminate.
  - vm_compute. reflexivity.
  - vm_compute. reflexivity.
  - vm_compute. reflexivity.
  - apply sample_decrypts.
  - exists (JStr "notes.txt"). vm_compute. reflexivity.
  - exists (JStr "1000"). vm_compute. reflexivity.
  - vm_compute. reflexivity.
  - vm_compute. reflexivity.
Defined.

Lemma created_entry_outlives_destruction_witness :
  let st1 := store_after (create_secure_file empty_store content "notes.txt"
                            "pw" settings "7c9e" (λ _, x2a) 1000) in
  let st2 := (_secure_delete_file st1 "7c9e" 2000).2 in
  ∃ (portable_data metadata envelope : gmap string json) h,
    export_portable_file st1 "7c9e" "pw" = Ok (JObj portable_data) ∧
    metadata_directory st2 !! "7c9e" = None ∧
    String.length h = 64%nat ∧ _is_blacklisted st2 (JStr h) = true ∧
    import_portable_file st2 (JObj portable_data) "pw" "a1b2" 3000 =
      (Ok "a1b2", write_metadata st2 "a1b2" (JObj metadata)) ∧
    metadata !! "encryption" = Some (JObj envelope) ∧
    decrypt_file_content (JObj envelope) "pw" = Ok content.
Proof.
  apply (created_entry_outlives_destruction empty_store content "notes.txt"
           "pw" settings "7c9e" (λ _, x2a) 1000 2000 "a1b2" 3000).
  - discriminate.
  - vm_compute. reflexivity.
  - vm_compute. reflexivity.
  - vm_compute. discriminate.
Defined.

Lemma signature_makes_media_witness :
  _is_media_file "notes.txt" jpeg = true.
Proof.
  apply (signature_makes_media "notes.txt" jpeg [xff; xd8; xff] []
           [xe0; x00; x10; x4a; x46]).
  - apply list_elem_of_here.
  - reflexivity.
Defined.

Lemma media_is_view_only_witness :
  let c := create_secure_file empty_store jpeg "photo.txt" "pw" settings
             "7c9e" (λ _, x2a) 1000 in
  let c' := create_secure_file (store_after c) content "notes.txt" "pw"
              (settings_after c) "a1b2" (λ _, x2a) 1100 in
  export_file (store_after c) "7c9e" = Raise (ValueError view_only_message) ∧
  (∀ guess, export_portable_file (store_after c) "7c9e" guess =
              Raise (ValueError view_only_message)) ∧
  settings_after c = <["disable_export" := JBool true]> settings ∧
  export_file (store_after c') "a1b2" =
    Raise (ValueError view_only_message) ∧
  (∀ guess, export_portable_file (store_after c') "a1b2" guess =
              Raise (ValueError view_only_message)).
Proof.
  apply (media_is_view_only empty_store jpeg "photo.txt" "pw" settings "7c9e"
           (λ _, x2a) 1000).
  - vm_compute. reflexivity.
  - vm_compute. reflexivity.
Defined.

Lemma import_file_restores_witness :
  let st2 := (_secure_delete_file store "7c9e" 2000).2 in
  let r := import_file st2 (JObj entry) "a1b2" in
  export_file store "7c9e" = Ok (Some (JObj entry)) ∧
  metadata_directory st2 !! "7c9e" = None ∧
  _is_blacklisted st2 (JStr (filing_hash entry (JObj envelope))) = true ∧
  r.1 = Ok (JStr "7c9e") ∧
  metadata_directory r.2 = metadata_directory store ∧
  blacklist_directory r.2 = blacklist_directory st2.
Proof.
  destruct (import_file_restores store "7c9e" entry security envelope 2000
              "a1b2") as (Ex & G & B & Er & Em & Eb).
  - discriminate.
  - vm_compute. reflexivity.
  - vm_compute. reflexivity.
  - vm_compute. reflexivity.
  - left. vm_compute. reflexivity.
  - apply sample_file_path_elsewhere.
  - vm_compute. reflexivity.
  - vm_compute. reflexivity.
  - split; [exact Ex|]. split; [exact G|].
    split; [apply B; vm_compute; reflexivity|].
    split; [exact Er|]. split; [exact Em|exact Eb].
Defined.

Lemma update_changes_recognized_keys_witness :
  ∃ security' : gmap string json,
    update_security_settings store "7c9e" new_settings =
      (Ok true,
       write_metadata store "7c9e"
         (JObj (<["security" := JObj security']> entry))) ∧
    ∀ k, security' !! k =
         match security !! k with
         | Some v => Some (default v (new_settings !! k))
         | None => None
         end.
Proof.
  apply (update_changes_recognized_keys store "7c9e" entry security
           new_settings).
  - vm_compute. reflexivity.
  - vm_compute. reflexivity.
Defined.

Lemma list_files_hides_envelopes_witness :
  ∃ name (o shown : gmap string json) view display,
    name ∈ ["7c9e"] ∧
    metadata_directory store !! name = Some (JObj o) ∧
    is_Some (o !! "encryption") ∧
    listed_item = JObj shown ∧
    shown !! "encryption" = None ∧
    get (dict_get o "security" (JObj ∅)) "disable_export" (JBool false)
      = Ok view ∧
    shown !! "is_view_only" = Some view ∧
    shown !! "file_type_display" = Some (JStr display) ∧
    ∀ k, k ∉ ["encryption"; "is_view_only"; "file_type"; "file_type_display"] →
         shown !! k = o !! k.
Proof.
  apply (list_files_hides_envelopes store ["7c9e"] listed listed_item).
  - vm_compute. reflexivity.
  - vm_compute. apply list_elem_of_here.
Defined.

Lemma file_path_reaches_the_vault_witness :
  let st := write_metadata store_with_blacklist "a1b2" (JObj pointing_entry) in
  let st' := (_secure_delete_file st "a1b2" 2000).2 in
  _is_blacklisted st (JStr (_hash_content content)) = true ∧
  metadata_directory st' !! "a1b2" = None ∧
  _is_blacklisted st' (JStr (_hash_content content)) = false.
Proof.
  intros st st'.
  destruct (file_path_reaches_the_vault st "a1b2" pointing_entry
              ("/vault/blacklist/" +:+ safe_hash (_hash_content content) +:+
               ".json") 2000) as (G & _ & B & _).
  - discriminate.
  - vm_compute. reflexivity.
  - vm_compute. reflexivity.
  - split; [vm_compute; reflexivity|]. split; [exact G|].
    destruct (B (safe_hash (_hash_content content))) as [_ B'].
    + vm_compute. reflexivity.
    + by apply B'.
Defined.

Lemma calls_touch_one_entry_witness :
  let st := write_metadata store "a1b2" (JObj imported_entry) in
  metadata_directory (access_file st "7c9e" "pw1" 2000).2 !! "a1b2" =
    Some (JObj imported_entry) ∧
  metadata_directory (_secure_delete_file st "7c9e" 2000).2 !! "a1b2" =
    Some (JObj imported_entry) ∧
  metadata_directory (delete_file st "7c9e").2 !! "a1b2" =
    Some (JObj imported_entry).
Proof.
  intros st.
  assert (tidy st) as T.
  { apply tidy_write; [done| |apply sample_tidy].
    apply (tidy_documents _ sample_tidy_imported "a1b2").
    vm_compute. reflexivity. }
  destruct (calls_touch_one_entry st "a1b2" T) as (Ha & _ & Hd & Hs & _).
  split; [|split].
  - by rewrite Ha.
  - by rewrite Hs.
  - by rewrite Hd.
Defined.

End LifecycleSamples.

(** ** The theorems of the scanner and of the overwrite on the sample data *)

Section ScanSamples.
Import EncryptionManager FileManager FileScanner Scan Spec Reference.

Lemma validated_report_is_sound_witness :
  0 = 0 ∧ BAR_FILE_MIN_SIZE ≤ c_size minimal_file ∧
  ∃ (data shown : gmap string json) marker version score,
    c_read minimal_file = Parsed (JObj data) ∧
    data !! BAR_FILE_SIGNATURE = Some marker ∧ truthy marker = true ∧
    version = dict_get data "version" (JStr "unknown") ∧
    (is_unknown version = true ∨
     ∃ v, version = JStr v ∧ match_version v = true) ∧
    is_Some (data !! "filename") ∧ is_Some (data !! "encryption") ∧
    minimal_report = JObj shown ∧
    shown !! "path" = Some (JStr (c_path minimal_file)) ∧
    shown !! "encryption" = None ∧
    shown !! "integrity_score" = Some (JInt score) ∧
    score = 100 - deduction data "creation_time"
                - deduction data "content_hash"
                - deduction data "security"
                - (if is_unknown version then 10 else 0) ∧
    60 ≤ score ≤ 100.
Proof.
  apply (validated_report_is_sound 0 minimal_file 3000 minimal_report 0).
  vm_compute. reflexivity.
Defined.

Lemma sample_found_validates : validates found_file portable.
Proof.
  split.
  - reflexivity.
  - vm_compute. discriminate.
  - exists (JBool true). split; vm_compute; reflexivity.
  - right. exists "1.0". split; vm_compute; reflexivity.
  - exists (JStr "notes.txt"). vm_compute. reflexivity.
  - exists (JObj bound_envelope). vm_compute. reflexivity.
  - right. exists security. vm_compute. reflexivity.
Qed.

Lemma found_file_expiration_witness :
  (5000 < 6000 →
   import_found_file empty_store 0 found_file (JObj portable) "pw" "a1b2"
     6000 6001 =
     (ImportError "This .bar file has expired and cannot be imported",
      empty_store, 0)) ∧
  (6000 ≤ 5000 →
   ∃ report,
     import_found_file empty_store 0 found_file (JObj portable) "pw" "a1b2"
       6000 6001 =
       match import_portable_file empty_store (JObj portable) "pw" "a1b2"
               6001 with
       | (Ok new_id, st') => (ImportSuccess new_id report, st', 0)
       | (Raise e, st') => (ImportError (str_exn e), st', 0)
       end) ∧
  (∀ (env : gmap string json) content,
     portable_record portable → passes_blacklist empty_store portable →
     portable !! "encryption" = Some (JObj env) →
     decrypt_file_content (JObj env) "pw" = Ok content →
     (import_portable_file empty_store (JObj portable) "pw" "a1b2" 6001).1
       = Ok "a1b2").
Proof.
  apply (found_file_expiration empty_store 0 found_file portable security
           "5000" 5000 (JObj portable) "pw" "a1b2" 6000 6001).
  - apply sample_found_validates.
  - vm_compute. reflexivity.
  - vm_compute. reflexivity.
  - vm_compute. reflexivity.
Defined.

Lemma secure_delete_file_overwrites_witness :
  let r := SecureDelete.secure_delete_file scratch "/tmp/notes.json" 3
             (λ _, x2a) in
  SecureDelete.returned r = true ∧
  SecureDelete.fs_after r = delete "/tmp/notes.json" scratch ∧
  length (SecureDelete.on_disk r) = S (Z.to_nat 3) ∧
  last (SecureDelete.on_disk r) = Some [] ∧
  (3 ≤ 0 → SecureDelete.on_disk r = [[]]) ∧
  ∀ k contents,
    (k < Z.to_nat 3)%nat → SecureDelete.on_disk r !! k = Some contents →
    length contents = length content ∧
    ∃ pat,
      length pat = 4096%nat ∧
      (k = 0%nat → pat = replicate 4096 x00) ∧
      (k = 1%nat → pat = replicate 4096 xff) ∧
      ∀ i, (i < length content)%nat → contents !! i = pat !! (i mod 4096)%nat.
Proof.
  apply (secure_delete_file_overwrites scratch "/tmp/notes.json" content 3
           (λ _, x2a)).
  apply lookup_singleton_eq.
Defined.

End ScanSamples.

(** ** The theorems of sessions and accounts on the sample data *)

Section AccountSamples.
Import EncryptionManager UserManager Spec Reference.

Lemma session_stays_alive_witness :
  let r := SessionManager.validations sessions1 "s1" [2000; 3000] in
  r.1 = replicate (length [2000; 3000]) true ∧
  SessionManager.timeout_minutes r.2 = SessionManager.timeout_minutes sessions1 ∧
  SessionManager.sessions r.2 !! "s1" =
    Some (SessionManager.touch session1
            (List.last [2000; 3000] (SessionManager.last_activity session1))).
Proof.
  apply (session_stays_alive sessions1 "s1" session1 [2000; 3000]).
  - vm_compute. reflexivity.
  - reflexivity.
  - vm_compute. repeat split; discriminate.
Defined.

Lemma session_expiry_is_final_witness :
  (SessionManager.validate_session sessions1 "s1" 960002000).1 = false ∧
  let st' :=
    foldl SessionManager.run
      (SessionManager.validate_session sessions1 "s1" 960002000).2
      [SessionManager.UnlockSession "s1" 960003000;
       SessionManager.UpdateActivity "s1" 960004000] in
  SessionManager.sessions st' !! "s1" = None ∧
  (∀ t, SessionManager.validate_session st' "s1" t = (false, st')) ∧
  (∀ t, SessionManager.update_activity st' "s1" t = (false, st')) ∧
  (∀ t, SessionManager.unlock_session st' "s1" t = (false, st')) ∧
  SessionManager.lock_session st' "s1" = (false, st') ∧
  SessionManager.end_session st' "s1" = (false, st').
Proof.
  apply (session_expiry_is_final sessions1 "s1" session1 960002000
           [SessionManager.UnlockSession "s1" 960003000;
            SessionManager.UpdateActivity "s1" 960004000]).
  - vm_compute. reflexivity.
  - reflexivity.
  - vm_compute. reflexivity.
  - repeat constructor; intros [].
Defined.

Lemma session_timeout_checks_witness :
  let locked := (SessionManager.lock_session sessions1 "s1").2 in
  (∀ now, SessionManager.validate_session locked "s1" now = (false, locked)) ∧
  (∀ t t',
     t' - t ≤ SessionManager.timeout_minutes sessions1 * SessionManager.MINUTE →
     (SessionManager.validate_session
        (SessionManager.unlock_session locked "s1" t).2 "s1" t').1 = true) ∧
  (SessionManager.is_locked session1 = false →
   ∀ t t',
     t' - t ≤ SessionManager.timeout_minutes sessions1 * SessionManager.MINUTE →
     (SessionManager.validate_session
        (SessionManager.update_activity sessions1 "s1" t).2 "s1" t').1 = true) ∧
  (∀ now,
     SessionManager.timeout_minutes sessions1 * SessionManager.MINUTE <
       now - SessionManager.last_activity session1 →
     SessionManager.sessions (SessionManager.monitor_sessions locked now)
       !! "s1" = None ∧
     SessionManager.sessions (SessionManager.monitor_sessions sessions1 now)
       !! "s1" = None).
Proof.
  apply (session_timeout_checks sessions1 "s1" session1).
  vm_compute. reflexivity.
Defined.


Lemma sample_account : account alice alice_record 0.
Proof. split; vm_compute; reflexivity. Qed.

Lemma sample_own_device : own_device alice_record "host-a".
Proof. vm_compute. reflexivity. Qed.

Lemma five_failures_lock_the_account_witness :
  let a1 := authenticate_user registered "alice" "Wrong111!" "host-a" "s1"
              2000 in
  let a2 := authenticate_user a1.2 "alice" "Wrong222!" "host-a" "s1" 2100 in
  let a3 := authenticate_user a2.2 "alice" "Wrong333!" "host-a" "s1" 2200 in
  let a4 := authenticate_user a3.2 "alice" "Wrong444!" "host-a" "s1" 2300 in
  let a5 := authenticate_user a4.2 "alice" "Wrong555!" "host-a" "s1" 2400 in
  let until := 2400 + 30 * SessionManager.MINUTE in
  a1.1 = Ok (false, Some (incorrect_password 4), None) ∧
  a2.1 = Ok (false, Some (incorrect_password 3), None) ∧
  a3.1 = Ok (false, Some (incorrect_password 2), None) ∧
  a4.1 = Ok (false, Some (incorrect_password 1), None) ∧
  a5.1 = Ok (false, Some locked_out, None) ∧
  (∀ guess t, t < until →
     ∃ st',
       authenticate_user a5.2 "alice" guess "host-a" "s1" t =
         (Ok (false,
              Some (still_locked ((until - t) / SessionManager.MINUTE)),
              None), st') ∧
       users_directory st' = users_directory a5.2 ∧
       session_manager st' = session_manager a5.2) ∧
  (∀ t, until ≤ t →
     (authenticate_user a5.2 "alice" "Abcdef1!" "host-a" "s1" t).1 =
       Ok (true, None, Some "s1")) ∧
  (unlock_account a5.2 "alice" (Some "root")).1 = Ok true ∧
  (∀ t, (authenticate_user (unlock_account a5.2 "alice" (Some "root")).2
           "alice" "Abcdef1!" "host-a" "s1" t).1 = Ok (true, None, Some "s1")).
Proof.
  apply (five_failures_lock_the_account registered "alice" alice alice_record
           "host-a" "Wrong111!" "Wrong222!" "Wrong333!" "Wrong444!"
           "Wrong555!" 2000 2100 2200 2300 2400 "Abcdef1!" "s1" (Some "root")).
  - vm_compute. reflexivity.
  - apply sample_account.
  - apply sample_own_device.
  - repeat constructor; vm_compute; reflexivity.
  - vm_compute. reflexivity.
Defined.

Lemma foreign_device_is_refused_witness :
  authenticate_user registered "alice" "Abcdef1!" "host-b" "s1" 2000 =
    (Ok (false, Some device_message, None),
     log_event registered SECURITY_ALERT "alice"
       (list_to_map [("reason", JStr "hardware_id_mismatch");
                     ("current_hw_hash", JStr (hardware_id_hash "host-b"))])
       WARNING).
Proof.
  apply (foreign_device_is_refused registered "alice" alice "Abcdef1!"
           (λ _, x2a) "host-a" "host-b" "Abcdef1!" "s1" 2000).
  - vm_compute. reflexivity.
  - vm_compute. reflexivity.
  - vm_compute. reflexivity.
  - vm_compute. reflexivity.
  - vm_compute. discriminate.
Defined.

Lemma lock_account_never_returns_witness :
  let until := 2000 + 30 * SessionManager.MINUTE in
  (lock_account registered "alice" 30 2000).1 ≠ Ok true ∧
  ∃ st' (u' : gmap string json),
    lock_account registered "alice" 30 2000 =
      (Raise (AttributeError
         "'SessionManager' object has no attribute 'end_all_user_sessions'"),
       st') ∧
    users_directory st' !! "alice" = Some (JObj u') ∧
    locked u' alice_record until ∧
    ∀ guess hw_id session_id t,
      2000 ≤ t → t < until →
      (authenticate_user st' "alice" guess hw_id session_id t).1 =
        Ok (false,
            Some (still_locked ((until - t) / SessionManager.MINUTE)), None).
Proof.
  destruct (lock_account_never_returns registered "alice" 30 2000)
    as (N & _ & _ & L & _).
  split; [exact N|].
  apply (L alice alice_record 0).
  - vm_compute. reflexivity.
  - apply sample_account.
  - lia.
  - lia.
  - vm_compute. reflexivity.
  - vm_compute. reflexivity.
Defined.

End AccountSamples.
